(** * whats-bot: message dispatch pipeline and conversation memory

    A shallow embedding of the JavaScript sources

    - [src/utils/helpers.js]            (module [Helpers])
    - [src/core/memory.js]              (module [ConversationMemory])
    - [src/handlers/responseHandler.js] (module [ResponseHandler])
    - [src/handlers/commandHandler.js]  (module [CommandHandler])
    - [src/handlers/messageHandler.js]  (module [MessageHandler])

    followed by the properties of the design document that were checked
    against them.

    Conventions.  A JavaScript string is the list of its UTF-16 code units
    ([jsstring]); a JavaScript integer is a [Z]; [Map] objects are [gmap]s;
    [Date.now()], [Math.random()] and the asynchronous collaborators
    (generation engine, transport) are inputs of the functions that read
    them; a method of the memory that reads the clock several times in one
    call gets one reading.  Logging and the best-effort disk writes, whose
    failures the source swallows, leave no trace in the model. *)

From Stdlib Require Import ZArith NArith Lia Bool DecimalString Sorted.
From stdpp Require Import base numbers option list strings gmap.

Local Open Scope Z_scope.

(** ** JavaScript strings and arrays *)

Module Js.

Abbreviation jsstring := (list N).

(** ASCII literal to code units. *)
Fixpoint js (s : String.string) : jsstring :=
  match s with
  | String.EmptyString => []
  | String.String c s' => Ascii.N_of_ascii c :: js s'
  end.
Arguments js : simpl never.

(** Decimal rendering of an integer, as a template literal does it. *)
Definition showNum (z : Z) : jsstring :=
  js (NilZero.string_of_int (Z.to_int z)).

(** [\s] of ECMAScript regular expressions, also what [trim] removes. *)
Definition isSpace (c : N) : bool :=
  ((9 <=? c) && (c <=? 13) || (c =? 32) || (c =? 160) || (c =? 5760)
   || (8192 <=? c) && (c <=? 8202) || (c =? 8232) || (c =? 8233)
   || (c =? 8239) || (c =? 8287) || (c =? 12288) || (c =? 65279))%N.

Definition isDigit (c : N) : bool := ((48 <=? c) && (c <=? 57))%N.
Definition isUpper (c : N) : bool := ((65 <=? c) && (c <=? 90))%N.
Definition isLower (c : N) : bool := ((97 <=? c) && (c <=? 122))%N.

(** [\w] = [A-Za-z0-9_]. *)
Definition isWord (c : N) : bool :=
  isDigit c || isUpper c || isLower c || (c =? 95)%N.

(** [[a-zA-Z0-9]]. *)
Definition isAlnum (c : N) : bool := isDigit c || isUpper c || isLower c.

(** [String.prototype.toLowerCase].  Exact on ASCII and on the two
    code units above ASCII whose lower case contains an ASCII letter
    (U+0130 and the Kelvin sign U+212A).  Every other unit above ASCII
    is kept, where the engine lower-cases the letters among them (to
    units above ASCII again): the result is the engine's on strings of
    ASCII units, and agrees with it on which units are ASCII and what
    they are.  Properties that state the lower-cased text are stated for
    ASCII input. *)
Definition lowerUnit (c : N) : jsstring :=
  if isUpper c then [(c + 32)%N]
  else if (c =? 304)%N then [105; 775]%N
  else if (c =? 8490)%N then [107]%N
  else [c].

Definition toLowerCase (s : jsstring) : jsstring := concat (map lowerUnit s).

Fixpoint dropWhile {A} (p : A -> bool) (l : list A) : list A :=
  match l with
  | [] => []
  | x :: l' => if p x then dropWhile p l' else l
  end.

(** [String.prototype.trim]. *)
Definition trim (s : jsstring) : jsstring :=
  rev (dropWhile isSpace (rev (dropWhile isSpace s))).

(** Relative index of [Array.prototype.slice]. *)
Definition relIndex (len k : Z) : Z :=
  if k <? 0 then Z.max (len + k) 0 else Z.min k len.

(** [l.slice(start, end)]; [end_ = None] for an omitted second argument. *)
Definition slice {A} (l : list A) (start : Z) (end_ : option Z) : list A :=
  let len := Z.of_nat (length l) in
  let from := relIndex len start in
  let to := match end_ with Some e => relIndex len e | None => len end in
  take (Z.to_nat (to - from)) (drop (Z.to_nat from) l).

(** [s.substring(0, n)]. *)
Definition substring0 (s : jsstring) (n : Z) : jsstring :=
  take (Z.to_nat (Z.min (Z.max n 0) (Z.of_nat (length s)))) s.

(** [s.substring(n)] for a length [n >= 0]. *)
Definition substringFrom (s : jsstring) (n : nat) : jsstring := drop n s.

Fixpoint startsWith (s p : jsstring) : bool :=
  match p, s with
  | [], _ => true
  | _ :: _, [] => false
  | a :: p', b :: s' => (a =? b)%N && startsWith s' p'
  end.

Definition eqb (s t : jsstring) : bool := bool_decide (s = t).

Fixpoint includes (s p : jsstring) : bool :=
  startsWith s p ||
  match s with
  | [] => false
  | _ :: s' => includes s' p
  end.

(** [s.replace(p, '')] with a string pattern: the first occurrence only. *)
Fixpoint removeFirst (s p : jsstring) : jsstring :=
  if startsWith s p then drop (length p) s
  else match s with
       | [] => []
       | c :: s' => c :: removeFirst s' p
       end.

(** [s.split(' ')]-style split on every occurrence of one unit. *)
Fixpoint splitOn (sep : N) (cur s : jsstring) : list jsstring :=
  match s with
  | [] => [cur]
  | c :: s' =>
      if (c =? sep)%N then cur :: splitOn sep [] s'
      else splitOn sep (cur ++ [c]) s'
  end.

(** [s.split(/\s+/)]: maximal runs of white space separate the pieces;
    a leading or trailing run leaves an empty piece. *)
Fixpoint splitWs (inws : bool) (cur s : jsstring) : list jsstring :=
  match s with
  | [] => [cur]
  | c :: s' =>
      if isSpace c then
        if inws then splitWs true cur s' else cur :: splitWs true [] s'
      else splitWs false (cur ++ [c]) s'
  end.

(** A canonical array index: decimal digits without a leading zero
    (or "0" itself), denoting at most 2^32 - 2. *)
Definition digitsValue (s : jsstring) : N :=
  fold_left (fun acc c => (acc * 10 + (c - 48))%N) s 0%N.

Definition arrayIndex (s : jsstring) : option N :=
  match s with
  | [] => None
  | c :: r =>
      if forallb isDigit s && (negb (c =? 48)%N || bool_decide (r = []))
         && (digitsValue s <=? 4294967294)%N
      then Some (digitsValue s) else None
  end.

(** Own properties of a plain object, in creation order. *)
Abbreviation JsObject V := (list (jsstring * V)).

Fixpoint insertIndex {V} (x : N * (jsstring * V))
    (l : list (N * (jsstring * V))) : list (N * (jsstring * V)) :=
  match l with
  | [] => [x]
  | y :: l' => if (x.1 <=? y.1)%N then x :: l else y :: insertIndex x l'
  end.

(** [Object.entries]: the array-index keys in ascending numeric order,
    then the other keys in creation order. *)
Definition objectEntries {V} (obj : JsObject V) : JsObject V :=
  map snd
    (foldr insertIndex []
       (omap (fun e => (fun i => (i, e)) <$> arrayIndex e.1) obj))
  ++ List.filter (fun e => bool_decide (arrayIndex e.1 = None)) obj.

End Js.

Import Js.

(** ** [src/core/memory.js]: class [ConversationMemory] *)

Module ConversationMemory.

(** The fields of a message object that [addMessage] reads.  Inbound
    WhatsApp messages and the bot's own replies both pass through it. *)
Record MessageData := {
  id : jsstring;
  from : jsstring;
  body : jsstring;
  timestamp : Z;
  type : jsstring
}.

(** An element of [conversation.messages]. *)
Record StoredMessage := {
  data : MessageData;
  addedAt : Z
}.

Record Conversation := {
  conv_id : jsstring;
  messages : list StoredMessage;
  createdAt : Z;
  updatedAt : Z
}.

(** [keyTopics = None]: the order of the topics is left to the engine
    (see [extractKeyTopics]). *)
Record Summary := {
  conversationId : jsstring;
  messageCount : Z;
  timeRange_start : option Z;
  timeRange_end : option Z;
  keyTopics : option (list jsstring);
  summary_createdAt : Z
}.

(** [config.get('memory.*')]; [config/default.json] is not part of the
    sources, so the two numbers are parameters. *)
Record Config := {
  maxContextMessages : Z;
  summarizationThreshold : Z
}.

(** [this.conversations] and [this.summaries]. *)
Record Memory := {
  conversations : gmap jsstring Conversation;
  summaries : gmap jsstring Summary
}.

Definition empty : Memory := {| conversations := ∅; summaries := ∅ |}.

(** *** [extractKeyTopics] *)

Definition stopWords : list jsstring :=
  map js ["the"; "a"; "an"; "and"; "or"; "but"; "in"; "on"; "at"; "to";
          "for"; "of"; "with"; "by"; "is"; "are"; "was"; "were"; "be";
          "been"; "have"; "has"; "had"; "do"; "does"; "did"; "will";
          "would"; "could"; "should"; "may"; "might"; "can"; "i"; "you";
          "he"; "she"; "it"; "we"; "they"; "me"; "him"; "her"; "us";
          "them"]%string.

Definition isStopWord (w : jsstring) : bool :=
  existsb (Js.eqb w) stopWords.

(** [body.toLowerCase().replace(/[^\w\s]/g, '').split(/\s+/)
      .filter(word => word.length > 2 && !stopWords.has(word))] *)
Definition words (b : jsstring) : list jsstring :=
  List.filter (fun w => (2 <? length w)%nat && negb (isStopWord w))
    (splitWs false []
       (List.filter (fun c => isWord c || isSpace c) (toLowerCase b))).

(** A value held by the plain object [wordCount]: a number, or the
    non-numeric string that [(wordCount[word] || 0) + 1] produces when
    [wordCount[word]] is found on [Object.prototype]. *)
Inductive CountVal := CNum (n : N) | CText.

Fixpoint getOwn (w : jsstring) (obj : JsObject CountVal) : option CountVal :=
  match obj with
  | [] => None
  | (k, v) :: obj' => if Js.eqb k w then Some v else getOwn w obj'
  end.

Fixpoint setOwn (w : jsstring) (v : CountVal) (obj : JsObject CountVal)
    : JsObject CountVal :=
  match obj with
  | [] => [(w, v)]
  | (k, u) :: obj' =>
      if Js.eqb k w then (k, v) :: obj' else (k, u) :: setOwn w v obj'
  end.

(** [wordCount[word] = (wordCount[word] || 0) + 1].  All tokens are in
    lower case, and the lower-case names on [Object.prototype] are
    [constructor] (a function: the sum is a string, stored as an own
    property) and [__proto__] (an accessor: the sum is a string, which
    its setter discards). *)
Definition bump (obj : JsObject CountVal) (w : jsstring)
    : JsObject CountVal :=
  match getOwn w obj with
  | Some (CNum n) => setOwn w (CNum (n + 1)) obj
  | Some CText => setOwn w CText obj
  | None =>
      if Js.eqb w (js "__proto__") then obj
      else if Js.eqb w (js "constructor") then setOwn w CText obj
      else setOwn w (CNum 1) obj
  end.

Fixpoint insertDesc (x : jsstring * N) (l : list (jsstring * N))
    : list (jsstring * N) :=
  match l with
  | [] => [x]
  | y :: l' => if (x.2 <? y.2)%N then y :: insertDesc x l' else x :: l
  end.

(** [.sort(([,a], [,b]) => b - a)] on numeric counts: a stable sort by
    descending count ([Array.prototype.sort] is stable from ECMAScript
    2019 on). *)
Definition sortDesc (l : list (jsstring * N)) : list (jsstring * N) :=
  foldr insertDesc [] l.

Definition numericEntry (e : jsstring * CountVal) : option (jsstring * N) :=
  match e.2 with
  | CNum n => Some (e.1, n)
  | CText => None
  end.

Definition countWords (bodies : list jsstring) : JsObject CountVal :=
  fold_left
    (fun obj b => match b with
                  | [] => obj
                  | _ :: _ => fold_left bump (words b) obj
                  end)
    bodies [].

(** With a non-numeric count in the object the comparator yields [NaN]
    and is not a consistent comparator, so the order of the result is
    implementation-defined: [None]. *)
Definition extractKeyTopics (msgs : list StoredMessage)
    : option (list jsstring) :=
  numeric ← mapM numericEntry
              (objectEntries
                 (countWords (map (fun m => body (data m)) msgs)));
  Some (map fst (take 10 (sortDesc numeric))).

(** *** [addMessage], [summarizeConversation], [getConversationContext] *)

Definition summarizeConversation (cfg : Config) (now : Z)
    (conversationId : jsstring) (st : Memory) : Memory :=
  match conversations st !! conversationId with
  | None => st
  | Some conversation =>
      if Z.of_nat (length (messages conversation))
           <? summarizationThreshold cfg
      then st
      else
        let messagesToSummarize :=
          slice (messages conversation) 0 (Some (- maxContextMessages cfg)) in
        let recentMessages :=
          slice (messages conversation) (- maxContextMessages cfg) None in
        let summary := {|
          conversationId := conversationId;
          messageCount := Z.of_nat (length messagesToSummarize);
          timeRange_start :=
            (fun m => timestamp (data m)) <$> head messagesToSummarize;
          timeRange_end :=
            (fun m => timestamp (data m)) <$> last messagesToSummarize;
          keyTopics := extractKeyTopics messagesToSummarize;
          summary_createdAt := now |} in
        {| summaries := <[conversationId := summary]> (summaries st);
           conversations :=
             <[conversationId :=
                 {| conv_id := conv_id conversation;
                    messages := recentMessages;
                    createdAt := createdAt conversation;
                    updatedAt := updatedAt conversation |}]>
               (conversations st) |}
  end.

(** [addMessage(conversationId, message)] at the clock reading [now].
    The source stamps the message and the conversation in one synchronous
    run, and reads the clock once more for the [createdAt] of a summary,
    after the conversation file is written; that later reading is taken
    to be [now] here, and the properties of summaries proved below say
    nothing of [createdAt]. *)
Definition addMessage (cfg : Config) (now : Z) (conversationId : jsstring)
    (message : MessageData) (st : Memory) : Memory :=
  let conversation :=
    default {| conv_id := conversationId; messages := [];
               createdAt := now; updatedAt := now |}
            (conversations st !! conversationId) in
  let conversation' :=
    {| conv_id := conv_id conversation;
       messages := messages conversation
                   ++ [ {| data := message; addedAt := now |} ];
       createdAt := createdAt conversation;
       updatedAt := now |} in
  let st' :=
    {| conversations := <[conversationId := conversation']> (conversations st);
       summaries := summaries st |} in
  if summarizationThreshold cfg <=? Z.of_nat (length (messages conversation'))
  then summarizeConversation cfg now conversationId st'
  else st'.

(** The [summary] field of a context: [null] for an unknown conversation,
    [undefined] when [this.summaries.get] finds nothing, else the object. *)
Inductive SummaryRef :=
| SummaryNull
| SummaryUndefined
| SummaryObject (s : Summary).

(** The object returned by [getConversationContext];
    [totalMessages = None] when the field is absent. *)
Record Context := {
  ctx_messages : list StoredMessage;
  ctx_summary : SummaryRef;
  totalMessages : option Z
}.

(** [getConversationContext(conversationId, maxMessages = null)], with the
    memory it leaves behind.  [maxMessages = None] stands for [null]. *)
Definition getConversationContext (cfg : Config) (conversationId : jsstring)
    (maxMessages : option Z) (st : Memory) : Context * Memory :=
  match conversations st !! conversationId with
  | None =>
      ({| ctx_messages := []; ctx_summary := SummaryNull;
          totalMessages := None |}, st)
  | Some conversation =>
      let limit :=
        match maxMessages with
        | Some n => if n =? 0 then maxContextMessages cfg else n
        | None => maxContextMessages cfg
        end in
      let recentMessages := slice (messages conversation) (- limit) None in
      let summary :=
        match summaries st !! conversationId with
        | Some s => SummaryObject s
        | None => SummaryUndefined
        end in
      ({| ctx_messages := recentMessages; ctx_summary := summary;
          totalMessages :=
            Some (Z.of_nat (length (messages conversation))) |}, st)
  end.

(** [addMessage] called once per element of [inputs], oldest first. *)
Definition addMessages (cfg : Config) (conversationId : jsstring)
    (inputs : list (Z * MessageData)) (st : Memory) : Memory :=
  fold_left (fun s i => addMessage cfg i.1 conversationId i.2 s) inputs st.

(** *** [deleteConversation], [cleanupOldConversations], [getStats] *)

(** [deleteConversation(conversationId)], as far as the memory goes (the
    two files are removed as well). *)
Definition deleteConversation (conversationId : jsstring) (st : Memory)
    : Memory :=
  {| conversations := delete conversationId (conversations st);
     summaries := delete conversationId (summaries st) |}.

(** [cleanupOldConversations(maxAge)]: the ids whose conversation has
    [now - updatedAt > maxAge] are collected, then deleted one by one.
    (The source walks the map in insertion order; the outcome does not
    depend on the order.) *)
Definition cleanupOldConversations (now maxAge : Z) (st : Memory) : Memory :=
  let toDelete :=
    map fst
      (List.filter (fun e => maxAge <? now - updatedAt e.2)
         (map_to_list (conversations st))) in
  fold_left (fun s conversationId => deleteConversation conversationId s)
    toDelete st.

(** The three counts of [getStats()] ([memoryUsage] is the process's). *)
Record Stats := {
  totalConversations : Z;
  stats_totalMessages : Z;
  totalSummaries : Z
}.

Definition getStats (st : Memory) : Stats :=
  {| totalConversations := Z.of_nat (size (conversations st));
     stats_totalMessages :=
       fold_left (fun sum conv => sum + Z.of_nat (length (messages conv)))
         (map snd (map_to_list (conversations st))) 0;
     totalSummaries := Z.of_nat (size (summaries st)) |}.

End ConversationMemory.

(** ** [src/utils/helpers.js]: class [Helpers] *)

Module Helpers.

(** [contactId.replace('@c.us', '').replace(/[^a-zA-Z0-9]/g, '_')] *)
Definition generateConversationId (contactId : jsstring) : jsstring :=
  map (fun c => if isAlnum c then c else 95%N)
      (removeFirst contactId (js "@c.us")).

(** [message.from.includes('@g.us')] *)
Definition isGroupMessage (from : jsstring) : bool :=
  includes from (js "@g.us").

(** [text && text.startsWith(prefix)], as a truth value. *)
Definition isCommand (text prefix : jsstring) : bool :=
  match text with
  | [] => false
  | _ :: _ => startsWith text prefix
  end.

(** [name = None] stands for [null]. *)
Record Command := {
  name : option jsstring;
  args : list jsstring
}.

Definition parseCommand (text prefix : jsstring) : Command :=
  if negb (isCommand text prefix) then {| name := None; args := [] |}
  else
    let parts :=
      splitOn 32%N [] (trim (substringFrom text (length prefix))) in
    {| name := Some (toLowerCase (hd [] parts)); args := tl parts |}.

Definition getCooldownKey (contactId : jsstring) : jsstring :=
  js "cooldown_" ++ contactId.

(** A value of the handler's [cooldownMap], which holds a number under a
    [cooldown_] key and an array of numbers under a [frequency_] key. *)
Inductive CooldownEntry :=
| LastResponse (t : Z)
| Timestamps (l : list Z).

(** [Date.now() - lastResponse >= cooldownMs] after [if (!lastResponse)
    return true].  An array is truthy and converts to a number through
    its string: [[]] to 0, [[t]] to [t], a longer one to [NaN]. *)
Definition isCooldownExpired (cooldownMap : gmap jsstring CooldownEntry)
    (key : jsstring) (cooldownMs now : Z) : bool :=
  match cooldownMap !! key with
  | None => true
  | Some (LastResponse t) => if t =? 0 then true else cooldownMs <=? now - t
  | Some (Timestamps []) => cooldownMs <=? now
  | Some (Timestamps [t]) => cooldownMs <=? now - t
  | Some (Timestamps (_ :: _ :: _)) => false
  end.

Definition updateCooldown (cooldownMap : gmap jsstring CooldownEntry)
    (key : jsstring) (now : Z) : gmap jsstring CooldownEntry :=
  <[key := LastResponse now]> cooldownMap.

(** [truncateText(text, maxLength)] *)
Definition truncateText (text : jsstring) (maxLength : Z) : jsstring :=
  match text with
  | [] => text
  | _ :: _ =>
      if Z.of_nat (length text) <=? maxLength then text
      else substring0 text (maxLength - 3) ++ js "..."
  end.

(** [whatsappId.replace('@c.us', '').replace('@g.us', '')] *)
Definition extractPhoneNumber (whatsappId : jsstring) : jsstring :=
  removeFirst (removeFirst whatsappId (js "@c.us")) (js "@g.us").

(** [message.from === `${botNumber}@c.us`] *)
Definition isFromBot (from botNumber : jsstring) : bool :=
  Js.eqb from (botNumber ++ js "@c.us").

(** The number an entry of the cooldown map stands for in [now -
    timestamp]; [None] is [NaN].  An array converts through its string:
    the empty one to 0, a singleton to its element. *)
Definition entryNumber (e : CooldownEntry) : option Z :=
  match e with
  | LastResponse t => Some t
  | Timestamps [] => Some 0
  | Timestamps [t] => Some t
  | Timestamps (_ :: _ :: _) => None
  end.

(** [now - timestamp > maxAge] *)
Definition isStale (now maxAge : Z) (e : CooldownEntry) : bool :=
  match entryNumber e with
  | Some t => maxAge <? now - t
  | None => false
  end.

(** [cleanupCooldowns(cooldownMap, maxAge)]: every entry with
    [now - timestamp > maxAge] is deleted. *)
Definition cleanupCooldowns (cooldownMap : gmap jsstring CooldownEntry)
    (now maxAge : Z) : gmap jsstring CooldownEntry :=
  filter (fun kv => isStale now maxAge kv.2 = false) cooldownMap.

End Helpers.

(** ** [src/core/gemini.js]: [GeminiAI.generateResponse] after the call *)

Module GeminiAI.

(** [text.length > this.maxResponseLength
      ? text.substring(0, this.maxResponseLength - 3) + '...' : text] *)
Definition finalResponse (maxResponseLength : Z) (text : jsstring) : jsstring :=
  if maxResponseLength <? Z.of_nat (length text)
  then substring0 text (maxResponseLength - 3) ++ js "..."
  else text.

Definition fallbacks : list jsstring :=
  map js
    [ "I'm sorry, I'm having trouble processing your message right now. Please try again in a moment.";
      "I apologize, but I'm experiencing some technical difficulties. Could you please rephrase your question?";
      "I'm having trouble understanding that right now. Could you try asking in a different way?";
      "I'm sorry, I'm not able to respond properly at the moment. Please try again later." ]%string.

Definition getFallbackResponse (rnd : nat) : jsstring :=
  default [] (fallbacks !! (rnd mod length fallbacks)%nat).

(** What [this.model.generateContent(prompt)] and [response.text()] do. *)
Inductive ApiResult :=
| Generated (text : jsstring)
| Failed.

(** [generateResponse] from the answer of the API on: its own [catch]
    turns a failure into one of its fallback texts, so it returns a text
    in either case. *)
Definition generateResponse (api : ApiResult) (maxResponseLength : Z)
    (rnd : nat) : jsstring :=
  match api with
  | Generated text => finalResponse maxResponseLength text
  | Failed => getFallbackResponse rnd
  end.

End GeminiAI.

(** ** [src/handlers/responseHandler.js]: class [ResponseHandler] *)

Module ResponseHandler.

(** *** Global regular-expression replacement

    A matcher tells, for the text that starts at the current position,
    whether the expression matches there and how the match splits into
    [(pre, keep, post)]: [pre] units deleted, [keep] units copied (the
    group [$1]), [post] units deleted.  [replaceAll] scans from left to
    right and resumes after each match, as [String.prototype.replace]
    does with the [g] flag. *)
Definition Matcher := jsstring -> option (nat * nat * nat).

Definition idle : nat * nat * nat := (0, 0, 0)%nat.

Fixpoint replaceAll (m : Matcher) (st : nat * nat * nat) (s : jsstring)
    : jsstring :=
  match s with
  | [] => []
  | c :: s' =>
      let st1 :=
        match st with
        | (O, O, O) => default idle (m s)
        | _ => st
        end in
      match st1 with
      | (S a, b, d) => replaceAll m (a, b, d) s'
      | (O, S b, d) => c :: replaceAll m (O, b, d) s'
      | (O, O, S d) => replaceAll m (O, O, d) s'
      | (O, O, O) => c :: replaceAll m idle s'
      end
  end.

(** Position of the first occurrence of [p] in [s]. *)
Fixpoint indexOf (p s : jsstring) : option nat :=
  if startsWith s p then Some O
  else match s with
       | [] => None
       | _ :: s' => S <$> indexOf p s'
       end.

(** Length of the longest prefix all of whose units satisfy [p]. *)
Fixpoint run (p : N -> bool) (s : jsstring) : nat :=
  match s with
  | [] => O
  | c :: s' => if p c then S (run p s') else O
  end.

Definition backtick : N := 96%N.
Definition star : N := 42%N.
Definition hash : N := 35%N.
Definition fence : jsstring := [backtick; backtick; backtick].

(** [/```[\s\S]*?```/] *)
Definition codeBlock : Matcher := fun s =>
  if startsWith s fence
  then (fun k => (3 + k + 3, 0, 0)%nat) <$> indexOf fence (drop 3 s)
  else None.

(** [/`[^`]*`/] *)
Definition inlineCode : Matcher := fun s =>
  match s with
  | c :: r =>
      if (c =? backtick)%N
      then (fun k => (1 + k + 1, 0, 0)%nat) <$> indexOf [backtick] r
      else None
  | [] => None
  end.

Definition notStar (c : N) : bool := negb (c =? star)%N.

(** [/\*\*([^*]+)\*\*/], replaced by [$1] *)
Definition bold : Matcher := fun s =>
  if startsWith s [star; star] then
    let k := run notStar (drop 2 s) in
    if (0 <? k)%nat && startsWith (drop (2 + k) s) [star; star]
    then Some (2, k, 2)%nat else None
  else None.

(** [/\*([^*]+)\*/], replaced by [$1] *)
Definition italic : Matcher := fun s =>
  if startsWith s [star] then
    let k := run notStar (drop 1 s) in
    if (0 <? k)%nat && startsWith (drop (1 + k) s) [star]
    then Some (1, k, 1)%nat else None
  else None.

(** [/#{1,6}\s+/]: with more than six [#] ahead no match starts here. *)
Definition header : Matcher := fun s =>
  let h := run (fun c => (c =? hash)%N) s in
  let w := run isSpace (drop h s) in
  if (0 <? h)%nat && (h <=? 6)%nat && (0 <? w)%nat
  then Some (h + w, 0, 0)%nat else None.

Definition stripMarkup (s : jsstring) : jsstring :=
  replaceAll header idle
    (replaceAll italic idle
       (replaceAll bold idle
          (replaceAll inlineCode idle
             (replaceAll codeBlock idle s)))).

Definition fallbacks : list jsstring :=
  map js
    [ "I'm sorry, I'm having trouble processing your message right now. Please try again in a moment.";
      "I apologize, but I'm experiencing some technical difficulties. Could you please rephrase your question?";
      "I'm having trouble understanding that right now. Could you try asking in a different way?";
      "I'm sorry, I'm not able to respond properly at the moment. Please try again later.";
      "I'm experiencing some issues right now. Please give me a moment and try again." ]%string.

(** [fallbacks[Math.floor(Math.random() * fallbacks.length)]]: the random
    draw is the input [rnd], read modulo the number of texts. *)
Definition getFallbackResponse (rnd : nat) : jsstring :=
  default [] (fallbacks !! (rnd mod length fallbacks)%nat).

Definition cleanResponse (maxResponseLength : Z) (rnd : nat)
    (response : jsstring) : jsstring :=
  match response with
  | [] => getFallbackResponse rnd
  | _ :: _ =>
      let cleaned := stripMarkup (trim response) in
      let cleaned :=
        if maxResponseLength <? Z.of_nat (length cleaned)
        then substring0 cleaned (maxResponseLength - 3) ++ js "..."
        else cleaned in
      if (length cleaned <? 3)%nat then getFallbackResponse rnd
      else cleaned
  end.

(** What [await this.geminiAI.generateResponse(...)] does. *)
Inductive GenResult :=
| Returned (text : jsstring)
| Thrown.

(** The generation capability as the handler sees it. *)
Definition Generator :=
  jsstring -> ConversationMemory.Context -> jsstring -> GenResult.

Definition generateResponse (geminiAI : Generator) (maxResponseLength : Z)
    (rnd : nat) (message : jsstring) (context : ConversationMemory.Context)
    (contactName : jsstring) : jsstring :=
  match geminiAI message context contactName with
  | Returned response => cleanResponse maxResponseLength rnd response
  | Thrown => getFallbackResponse rnd
  end.

End ResponseHandler.

(** ** [src/handlers/commandHandler.js]: class [CommandHandler] *)

Module CommandHandler.

(** An entry of [personalityLoader.getAllPersonalities()]. *)
Record Personality := {
  p_name : jsstring;
  displayName : jsstring;
  description : jsstring
}.

(** The configuration the handler reads: [commands.*], [bot.*] and the
    personality loader ([None] while it is [null]). *)
Record Config := {
  prefix : jsstring;
  enabled : bool;
  availableCommands : list jsstring;
  personality : jsstring;
  maxResponseLength : Z;
  responseDelay : Z;
  autoResponsesEnabled : bool;
  personalityLoader : option (list Personality)
}.

(** A value of [this.userSettings]; [lastCommand = None] is [null]. *)
Record UserSettings := {
  responsesEnabled : bool;
  lastCommand : option Z;
  commandCount : Z
}.

Abbreviation Settings := (gmap jsstring UserSettings).

(** [getUserSettings]: creates the default entry on first use. *)
Definition getUserSettings (cfg : Config) (contactId : jsstring)
    (us : Settings) : UserSettings * Settings :=
  match us !! contactId with
  | Some s => (s, us)
  | None =>
      let s := {| responsesEnabled := autoResponsesEnabled cfg;
                  lastCommand := None; commandCount := 0 |} in
      (s, <[contactId := s]> us)
  end.

(** [setUserSettings(contactId, { responsesEnabled })] *)
Definition setUserSettings (cfg : Config) (contactId : jsstring)
    (responses : bool) (us : Settings) : Settings :=
  let '(currentSettings, us1) := getUserSettings cfg contactId us in
  <[contactId := {| responsesEnabled := responses;
                    lastCommand := lastCommand currentSettings;
                    commandCount := commandCount currentSettings |}]> us1.

Definition isUserResponsesEnabled (cfg : Config) (contactId : jsstring)
    (us : Settings) : bool * Settings :=
  let '(settings, us1) := getUserSettings cfg contactId us in
  (responsesEnabled settings, us1).

Definition nl : jsstring := [10%N].

Definition enabledText (b : bool) : jsstring :=
  if b then [9989]%N ++ js " Enabled" else [10060]%N ++ js " Disabled".

Definition personalityText (cfg : Config) : jsstring :=
  if Js.eqb (personality cfg) (js "custom") then js "Custom (Your Style)"
  else personality cfg.

Definition handleHelp (cfg : Config) : jsstring :=
    [55358; 56598]%N ++ js " *WhatsApp AI Bot Commands*" ++ nl ++ nl ++
    prefix cfg ++ js "help - Show this help message" ++ nl ++ prefix cfg ++
    js "status - Check bot status and information" ++ nl ++ prefix cfg ++
    js "stop - Disable auto-responses for you" ++ nl ++ prefix cfg ++
    js "start - Enable auto-responses for you" ++ nl ++ prefix cfg ++
    js "info - Show bot configuration and personality" ++ nl ++
    prefix cfg ++
    js "personalities - List available personality profiles" ++ nl ++ nl ++
    js "*Usage:*" ++ nl ++
    js "Just send any message and I'll respond with AI! Use commands to control my behavior." ++
    nl ++ nl ++
    js "*Note:* I only respond to direct messages, not group chats.".

Definition handleStatus (cfg : Config) (from : jsstring) (us : Settings)
    : jsstring * Settings :=
  let '(userSettings, us1) := getUserSettings cfg from us in
  let status := enabledText (responsesEnabled userSettings) in
  let personality := personalityText cfg in
  ( [55358; 56598]%N ++ js " *Bot Status*" ++ nl ++ nl ++
    js "*Your Settings:*" ++ nl ++ [8226]%N ++ js " Auto-responses: " ++
    status ++ nl ++ [8226]%N ++ js " Personality: " ++ personality ++ nl ++
    nl ++ js "*Bot Info:*" ++ nl ++ [8226]%N ++ js " Commands: " ++
    enabledText (enabled cfg) ++ nl ++ [8226]%N ++
    js " Max response length: " ++ showNum (maxResponseLength cfg) ++
    js " characters" ++ nl ++ [8226]%N ++ js " Response delay: " ++
    showNum (responseDelay cfg) ++ js "ms" ++ nl ++ nl ++
    js "I'm ready to chat! Send me any message and I'll respond with AI.",
    us1 ).

Definition handleStop (cfg : Config) (from : jsstring) (us : Settings)
    : jsstring * Settings :=
  ( [9989]%N ++ js " *Auto-responses disabled*" ++ nl ++ nl ++
    js "I won't respond to your messages anymore. Use " ++ prefix cfg ++
    js "start to re-enable responses." ++ nl ++ nl ++
    js "You can still use commands like " ++ prefix cfg ++
    js "help and " ++ prefix cfg ++ js "status.",
    setUserSettings cfg from false us ).

Definition handleStart (cfg : Config) (from : jsstring) (us : Settings)
    : jsstring * Settings :=
  let personality := personalityText cfg in
  ( [9989]%N ++ js " *Auto-responses enabled*" ++ nl ++ nl ++
    js "I'll now respond to your messages with AI! " ++ nl ++ nl ++
    js "*Current personality:* " ++ personality ++ nl ++
    js "*Max response length:* " ++ showNum (maxResponseLength cfg) ++
    js " characters" ++ nl ++ nl ++
    js "Send me any message and I'll respond naturally. Use " ++
    prefix cfg ++ js "help for more commands.",
    setUserSettings cfg from true us ).

Definition handleInfo (cfg : Config) (from : jsstring) (us : Settings)
    : jsstring * Settings :=
  let '(userSettings, us1) := getUserSettings cfg from us in
  let personality := personalityText cfg in
  ( [55358; 56598]%N ++ js " *Bot Information*" ++ nl ++ nl ++
    js "*Configuration:*" ++ nl ++ [8226]%N ++ js " Personality: " ++
    personality ++ nl ++ [8226]%N ++ js " Auto-responses: " ++
    enabledText (autoResponsesEnabled cfg) ++ nl ++ [8226]%N ++
    js " Response delay: " ++ showNum (responseDelay cfg) ++ js "ms" ++
    nl ++ [8226]%N ++ js " Max response length: " ++
    showNum (maxResponseLength cfg) ++ js " characters" ++ nl ++ nl ++
    js "*Your Settings:*" ++ nl ++ [8226]%N ++ js " Responses: " ++
    enabledText (responsesEnabled userSettings) ++ nl ++ nl ++
    js "*Features:*" ++ nl ++ [8226]%N ++
    js " AI-powered responses using Google Gemini" ++ nl ++ [8226]%N ++
    js " Conversation memory and context" ++ nl ++ [8226]%N ++
    js " Persistent WhatsApp sessions" ++ nl ++ [8226]%N ++
    js " Command system" ++ nl ++ [8226]%N ++ js " Token optimization" ++
    nl ++ [8226]%N ++ js " Custom personality matching your style" ++ nl ++
    nl ++
    js "*Note:* I remember our conversation history to provide better responses!",
    us1 ).

Definition handlePersonalities (cfg : Config) : jsstring :=
  match personalityLoader cfg with
  | None => [10060]%N ++ js " Personality system not available."
  | Some personalities =>
      let currentPersonality := personality cfg in
      fold_left
        (fun response p =>
           let isCurrent :=
             if Js.eqb (p_name p) currentPersonality
             then js " " ++ [9989]%N else [] in
           response
           ++ ([8226]%N ++ js " *" ++ displayName p ++ js "*" ++ isCurrent ++ nl)
           ++ (js "  " ++ description p ++ nl ++ nl))
        personalities
        ([55356; 57261]%N ++ js " *Available Personalities*" ++ nl ++ nl)
      ++ (js "*Current:* " ++ currentPersonality ++ nl)
      ++ js "*Note:* Personality can be changed in config files."
  end.

Inductive Handler :=
| Help | Status | Stop | Start | Info | Personalities.

#[global] Instance Handler_eq_dec : EqDecision Handler.
Proof. solve_decision. Defined.

(** [this.commands[name]], the table built by [initializeCommands].  The
    two lower-case names a plain object inherits ([constructor],
    [__proto__]) are read as absent; they matter only if the
    configuration lists them among [availableCommands]. *)
Definition commands (name : jsstring) : option Handler :=
  if Js.eqb name (js "help") then Some Help
  else if Js.eqb name (js "status") then Some Status
  else if Js.eqb name (js "stop") then Some Stop
  else if Js.eqb name (js "start") then Some Start
  else if Js.eqb name (js "info") then Some Info
  else if Js.eqb name (js "personalities") then Some Personalities
  else None.

Definition runHandler (cfg : Config) (h : Handler) (from : jsstring)
    (us : Settings) : jsstring * Settings :=
  match h with
  | Help => (handleHelp cfg, us)
  | Status => handleStatus cfg from us
  | Stop => handleStop cfg from us
  | Start => handleStart cfg from us
  | Info => handleInfo cfg from us
  | Personalities => (handlePersonalities cfg, us)
  end.

Definition unknownCommand (cfg : Config) (name : jsstring) : jsstring :=
    [10060]%N ++ js " Unknown command: " ++ name ++ nl ++ js "Type " ++
    prefix cfg ++ js "help to see available commands.".

Definition notImplemented (name : jsstring) : jsstring :=
    [10060]%N ++ js " Command " ++ name ++ js " is not implemented yet.".

(** [processCommand(message)]: the reply ([None] for [null]) and the
    user settings it leaves. *)
Definition processCommand (cfg : Config) (from body : jsstring)
    (us : Settings) : option jsstring * Settings :=
  if negb (enabled cfg) || bool_decide (body = []) then (None, us)
  else
    match Helpers.name (Helpers.parseCommand body (prefix cfg)) with
    | None | Some [] => (None, us)
    | Some name =>
        if negb (existsb (Js.eqb name) (availableCommands cfg))
        then (Some (unknownCommand cfg name), us)
        else
          match commands name with
          | None => (Some (notImplemented name), us)
          | Some h =>
              let '(text, us1) := runHandler cfg h from us in
              (Some text, us1)
          end
    end.

(** [cleanupOldSettings(maxAge)]: the entries with
    [settings.lastCommand && now - settings.lastCommand > maxAge] are
    deleted. *)
Definition isOldSetting (now maxAge : Z) (s : UserSettings) : bool :=
  match lastCommand s with
  | Some t => negb (t =? 0) && (maxAge <? now - t)
  | None => false
  end.

Definition cleanupOldSettings (now maxAge : Z) (us : Settings) : Settings :=
  filter (fun kv => isOldSetting now maxAge kv.2 = false) us.

(** [getStats()] *)
Record Stats := {
  totalUsers : Z;
  enabledUsers : Z;
  disabledUsers : Z;
  stats_availableCommands : Z;
  commandsEnabled : bool
}.

Definition getStats (cfg : Config) (us : Settings) : Stats :=
  let totalUsers := Z.of_nat (size us) in
  let enabledUsers :=
    Z.of_nat (length (List.filter responsesEnabled
                        (map snd (map_to_list us)))) in
  {| totalUsers := totalUsers;
     enabledUsers := enabledUsers;
     disabledUsers := totalUsers - enabledUsers;
     stats_availableCommands := Z.of_nat (length (availableCommands cfg));
     commandsEnabled := enabled cfg |}.

End CommandHandler.

(** ** [src/handlers/messageHandler.js]: class [MessageHandler] *)

Module MessageHandler.

Import ConversationMemory.

(** An inbound WhatsApp message. *)
Record Message := {
  content : MessageData;
  to : jsstring;
  fromMe : bool
}.

Record Config := {
  commandCfg : CommandHandler.Config;
  memoryCfg : ConversationMemory.Config;
  ignoredContacts : gset jsstring;
  ignoreGroups : bool;
  responseFrequencyLimit : Z;
  (** whether [setSendMessageCallback] has installed the transport *)
  sendMessageCallback : bool
}.

Record State := {
  memory : Memory;
  cooldownMap : gmap jsstring Helpers.CooldownEntry;
  userSettings : CommandHandler.Settings
}.

(** The readings of [Date.now()] while one message is handled. *)
Record Clock := {
  onFilter : Z;     (* cooldown check *)
  onInbound : Z;    (* the inbound message enters the memory *)
  onFrequency : Z;  (* frequency check *)
  onReply : Z;      (* the bot's message is built and stored *)
  onDone : Z        (* the cooldown is recorded *)
}.

(** What the surroundings answer while one message is handled. *)
Record Env := {
  clock : Clock;
  random : nat;
  geminiAI : ResponseHandler.Generator;
  (** [contactInfo.name], [None] when no contact information comes back *)
  contactInfo : option jsstring
}.

(** Calls that leave the handler. *)
Inductive Effect :=
| Generate (message : jsstring) (context : Context) (contactName : jsstring)
| Send (contactId text : jsstring).

Definition windowMs : Z := 60000.

(** [checkResponseFrequency(contactId)]; [None] when it throws, which
    [timestamps.filter] does if the entry is not an array. *)
Definition checkResponseFrequency (limit now : Z) (contactId : jsstring)
    (cooldownMap : gmap jsstring Helpers.CooldownEntry)
    : option (bool * gmap jsstring Helpers.CooldownEntry) :=
  let key := js "frequency_" ++ contactId in
  let cooldownMap1 :=
    match cooldownMap !! key with
    | None => <[key := Helpers.Timestamps []]> cooldownMap
    | Some _ => cooldownMap
    end in
  match cooldownMap1 !! key with
  | Some (Helpers.Timestamps timestamps) =>
      let cutoff := now - windowMs in
      let recentTimestamps := List.filter (fun ts => cutoff <? ts) timestamps in
      if limit <=? Z.of_nat (length recentTimestamps) then
        Some (false, cooldownMap1)
      else
        Some (true,
              <[key := Helpers.Timestamps (recentTimestamps ++ [now])]>
                cooldownMap1)
  | _ => None
  end.

(** [sendResponse]: the transport is called if it is installed; what it
    answers, or throws, changes nothing in the handler. *)
Definition sendResponse (cfg : Config) (contactId response : jsstring)
    : list Effect :=
  if sendMessageCallback cfg then [Send contactId response] else [].

Definition botMessage (now : Z) (response : jsstring) : MessageData :=
  {| id := js "bot_" ++ showNum now;
     from := js "bot";
     body := response;
     timestamp := now / 1000;
     type := js "text" |}.

(** [generateAIResponse(message, conversationId)] *)
Definition generateAIResponse (cfg : Config) (env : Env) (message : Message)
    (conversationId : jsstring) (mem : Memory)
    : jsstring * Memory * list Effect :=
  let '(context, mem1) :=
    getConversationContext (memoryCfg cfg) conversationId None mem in
  let contactName := default (js "User") (contactInfo env) in
  let response :=
    ResponseHandler.generateResponse (geminiAI env)
      (CommandHandler.maxResponseLength (commandCfg cfg)) (random env)
      (body (content message)) context contactName in
  let mem2 :=
    match response with
    | [] => mem1
    | _ :: _ =>
        addMessage (memoryCfg cfg) (onReply (clock env)) conversationId
          (botMessage (onReply (clock env)) response) mem1
    end in
  (response, mem2, [Generate (body (content message)) context contactName]).

(** The part of [handleMessage] that follows the frequency check: the
    reply is generated, stored, sent, and the cooldown recorded. *)
Definition reply (cfg : Config) (env : Env) (message : Message)
    (mem1 : Memory) (cd1 : gmap jsstring Helpers.CooldownEntry)
    (us2 : CommandHandler.Settings) : State * list Effect :=
  let from := from (content message) in
  let '(response, mem2, called) :=
    generateAIResponse cfg env message
      (Helpers.generateConversationId from) mem1 in
  match response with
  | [] =>
      ({| memory := mem2; cooldownMap := cd1; userSettings := us2 |}, called)
  | _ :: _ =>
      ({| memory := mem2;
          cooldownMap :=
            Helpers.updateCooldown cd1 (Helpers.getCooldownKey from)
              (onDone (clock env));
          userSettings := us2 |},
       called ++ sendResponse cfg from response)
  end.

(** The part of [handleMessage] that follows "Message passed all
    filters": memory, command, user preference, frequency, reply. *)
Definition dispatch (cfg : Config) (env : Env) (message : Message)
    (st : State) : State * list Effect :=
  let from := from (content message) in
  let body := body (content message) in
  let cooldownKey := Helpers.getCooldownKey from in
  let conversationId := Helpers.generateConversationId from in
  let mem1 :=
    addMessage (memoryCfg cfg) (onInbound (clock env)) conversationId
      (content message) (memory st) in
  let '(commandResponse, us1) :=
    CommandHandler.processCommand (commandCfg cfg) from body
      (userSettings st) in
  match commandResponse with
  | Some (c :: r) =>
      ({| memory := mem1;
          cooldownMap :=
            Helpers.updateCooldown (cooldownMap st) cooldownKey
              (onDone (clock env));
          userSettings := us1 |},
       sendResponse cfg from (c :: r))
  | _ =>
      let '(on, us2) :=
        CommandHandler.isUserResponsesEnabled (commandCfg cfg) from us1 in
      if negb on
      then ({| memory := mem1; cooldownMap := cooldownMap st;
               userSettings := us2 |}, [])
      else
        match checkResponseFrequency (responseFrequencyLimit cfg)
                (onFrequency (clock env)) from (cooldownMap st) with
        | None =>
            (* the [TypeError] lands in the [catch] of [handleMessage] *)
            ({| memory := mem1; cooldownMap := cooldownMap st;
                userSettings := us2 |}, [])
        | Some (false, cd1) =>
            ({| memory := mem1; cooldownMap := cd1;
                userSettings := us2 |}, [])
        | Some (true, cd1) => reply cfg env message mem1 cd1 us2
        end
  end.

(** [handleMessage(message)]: the state it leaves and the calls it made,
    in order.  The six filters come first, each ending the handling. *)
Definition handleMessage (cfg : Config) (env : Env) (message : Message)
    (st : State) : State * list Effect :=
  let from := from (content message) in
  let body := body (content message) in
  if bool_decide (from ∈ ignoredContacts cfg) then (st, [])
  else if Helpers.isGroupMessage from && ignoreGroups cfg then (st, [])
  else if Js.eqb from (js "status@broadcast") then (st, [])
  else if fromMe message then (st, [])
  else if bool_decide (body = []) || bool_decide (trim body = []) then (st, [])
  else if negb (Helpers.isCooldownExpired (cooldownMap st)
                  (Helpers.getCooldownKey from) 1000 (onFilter (clock env)))
  then (st, [])
  else dispatch cfg env message st.

(** Messages handled one after the other, each with its own readings. *)
Fixpoint handleMessages (cfg : Config) (events : list (Env * Message))
    (st : State) : State * list Effect :=
  match events with
  | [] => (st, [])
  | (env, message) :: events' =>
      let '(st1, out1) := handleMessage cfg env message st in
      let '(st2, out2) := handleMessages cfg events' st1 in
      (st2, out1 ++ out2)
  end.

(** [addIgnoredContact(contactId)] and [removeIgnoredContact(contactId)]
    on the set of ignored contacts. *)
Definition addIgnoredContact (contactId : jsstring) (cfg : Config) : Config :=
  {| commandCfg := commandCfg cfg;
     memoryCfg := memoryCfg cfg;
     ignoredContacts := {[contactId]} ∪ ignoredContacts cfg;
     ignoreGroups := ignoreGroups cfg;
     responseFrequencyLimit := responseFrequencyLimit cfg;
     sendMessageCallback := sendMessageCallback cfg |}.

Definition removeIgnoredContact (contactId : jsstring) (cfg : Config)
    : Config :=
  {| commandCfg := commandCfg cfg;
     memoryCfg := memoryCfg cfg;
     ignoredContacts := ignoredContacts cfg ∖ {[contactId]};
     ignoreGroups := ignoreGroups cfg;
     responseFrequencyLimit := responseFrequencyLimit cfg;
     sendMessageCallback := sendMessageCallback cfg |}.

(** The default ages of the three clean-ups, in milliseconds. *)
Definition conversationMaxAge : Z := 30 * 24 * 60 * 60 * 1000.
Definition cooldownMaxAge : Z := 24 * 60 * 60 * 1000.
Definition settingsMaxAge : Z := 7 * 24 * 60 * 60 * 1000.

(** [cleanup()]: old conversations, old cooldowns, old command settings,
    each with its default age and its own reading of the clock. *)
Definition cleanup (nowMemory nowCooldowns nowSettings : Z) (st : State)
    : State :=
  {| memory :=
       cleanupOldConversations nowMemory conversationMaxAge (memory st);
     cooldownMap :=
       Helpers.cleanupCooldowns (cooldownMap st) nowCooldowns cooldownMaxAge;
     userSettings :=
       CommandHandler.cleanupOldSettings nowSettings settingsMaxAge
         (userSettings st) |}.

End MessageHandler.

(** ** [src/core/whatsapp.js]: [WhatsAppClient.handleIncomingMessage] *)

Module WhatsAppClient.

Import ConversationMemory.

(** A registered message handler, as [onMessage] receives it: a function
    of the message, acting on the state of the message handler. *)
Definition Handler :=
  MessageHandler.Message -> MessageHandler.State ->
  MessageHandler.State * list MessageHandler.Effect.

(** The loop over [this.messageHandlers]; an error of a handler is logged
    and the next handler runs. *)
Fixpoint notify (messageHandlers : list Handler)
    (message : MessageHandler.Message) (st : MessageHandler.State)
    : MessageHandler.State * list MessageHandler.Effect :=
  match messageHandlers with
  | [] => (st, [])
  | handler :: messageHandlers' =>
      let '(st1, out1) := handler message st in
      let '(st2, out2) := notify messageHandlers' message st1 in
      (st2, out1 ++ out2)
  end.

(** [handleIncomingMessage(message)]: messages of the bot itself and,
    with [filtering.ignoreGroups], group messages are skipped; every other
    message goes to the registered handlers. *)
Definition handleIncomingMessage (ignoreGroups : bool)
    (messageHandlers : list Handler) (message : MessageHandler.Message)
    (st : MessageHandler.State)
    : MessageHandler.State * list MessageHandler.Effect :=
  if MessageHandler.fromMe message then (st, [])
  else if Helpers.isGroupMessage (from (MessageHandler.content message))
          && ignoreGroups
  then (st, [])
  else notify messageHandlers message st.

End WhatsAppClient.

(** ** Notions used to state the properties *)

Module Spec.

Import ConversationMemory.

(** The last [n] elements of a list. *)
Definition lastN {A} (n : nat) (l : list A) : list A :=
  drop (length l - n) l.

(** The messages the memory retains for a conversation. *)
Definition retained (st : Memory) (conversationId : jsstring)
    : list StoredMessage :=
  match conversations st !! conversationId with
  | Some c => messages c
  | None => []
  end.

(** The limit [getConversationContext] applies: [maxMessages] when it is
    given and not zero, else the configured [maxContextMessages]. *)
Definition effectiveLimit (cfg : ConversationMemory.Config)
    (maxMessages : option Z) : Z :=
  match maxMessages with
  | Some 0 | None => maxContextMessages cfg
  | Some n => n
  end.

Definition currentSummary (st : Memory) (conversationId : jsstring)
    : SummaryRef :=
  match summaries st !! conversationId with
  | Some s => SummaryObject s
  | None => SummaryUndefined
  end.

(** How many messages one [addMessage] removes from the retained list. *)
Definition evictedBy (cfg : ConversationMemory.Config) (now : Z)
    (conversationId : jsstring) (m : MessageData) (st : Memory) : Z :=
  Z.of_nat (length (retained st conversationId)) + 1
  - Z.of_nat (length (retained (addMessage cfg now conversationId m st)
                               conversationId)).

(** Whether one more message brings the retained list to the threshold. *)
Definition reachesThreshold (cfg : ConversationMemory.Config)
    (conversationId : jsstring) (st : Memory) : bool :=
  summarizationThreshold cfg
    <=? Z.of_nat (length (retained st conversationId)) + 1.

(** The number of messages evicted by the most recent append that
    reached the threshold, while [inputs] are appended to [st];
    [last] is that number before the first of them. *)
Fixpoint lastEviction (cfg : ConversationMemory.Config)
    (conversationId : jsstring) (inputs : list (Z * MessageData))
    (st : Memory) (last : option Z) : option Z :=
  match inputs with
  | [] => last
  | i :: inputs' =>
      lastEviction cfg conversationId inputs'
        (addMessage cfg i.1 conversationId i.2 st)
        (if reachesThreshold cfg conversationId st
         then Some (evictedBy cfg i.1 conversationId i.2 st)
         else last)
  end.

(** The list [addMessage] holds right after the push. *)
Definition pushed (conversationId : jsstring) (now : Z) (m : MessageData)
    (st : Memory) : list StoredMessage :=
  retained st conversationId ++ [ {| data := m; addedAt := now |} ].

(** The invariant of a run of appends to one conversation: [n] messages
    have been appended so far, and [last] is what the most recent
    summarizing append evicted. *)
Definition progress (cfg : ConversationMemory.Config)
    (conversationId : jsstring) (n : nat) (st : Memory) (last : option Z)
    : Prop :=
  Z.of_nat (length (retained st conversationId))
    <= Z.max (maxContextMessages cfg) (summarizationThreshold cfg - 1)
  /\ (n = 0%nat \/ is_Some (conversations st !! conversationId))
  /\ match last with
     | None =>
         length (retained st conversationId) = n
         /\ (Z.of_nat n < summarizationThreshold cfg \/ n = 0%nat)
     | Some k =>
         exists s, summaries st !! conversationId = Some s
                   /\ messageCount s = k
     end.

(** A numbered test message and a run of them. *)
Definition testMessage (k : nat) : Z * MessageData :=
  (1700000000000 + Z.of_nat k,
   {| id := js "m" ++ showNum (Z.of_nat k);
      from := js "4915100000@c.us";
      body := js "message number " ++ showNum (Z.of_nat k);
      timestamp := 1700000000 + Z.of_nat k;
      type := js "chat" |}).

Definition testRun (n : nat) : list (Z * MessageData) :=
  map testMessage (seq 1 n).

(** The values the README documents: the last 10 messages are kept and
    a conversation is summarized from 20 messages on. *)
Definition readmeConfig : ConversationMemory.Config :=
  {| maxContextMessages := 10; summarizationThreshold := 20 |}.

(** *** Key topics *)

(** The tokens of the messages, oldest first. *)
Definition tokens (msgs : list StoredMessage) : list jsstring :=
  concat (map (fun m => words (body (data m))) msgs).

(** The tokens that are counted: all but [__proto__]. *)
Definition counted (toks : list jsstring) : list jsstring :=
  List.filter (fun w => negb (Js.eqb w (js "__proto__"))) toks.

(** The distinct tokens in the order of their first occurrence. *)
Fixpoint firstOccurrences (l : list jsstring) : list jsstring :=
  match l with
  | [] => []
  | w :: l' =>
      w :: List.filter (fun v => negb (Js.eqb v w)) (firstOccurrences l')
  end.

Definition occurrences (w : jsstring) (l : list jsstring) : N :=
  N.of_nat (length (List.filter (Js.eqb w) l)).

(** Each distinct token with its frequency, in first-occurrence order. *)
Definition frequencies (l : list jsstring) : list (jsstring * N) :=
  map (fun w => (w, occurrences w l)) (firstOccurrences l).

(** By the words of the design document: the ten most frequent tokens,
    ties in first-occurrence order. *)
Definition topicsByFirstOccurrence (l : list jsstring) : list jsstring :=
  map fst (take 10 (sortDesc (frequencies l))).

(** As the code has it: ties in the enumeration order of the counting
    object, numerals first. *)
Definition topicsByEnumeration (l : list jsstring) : list jsstring :=
  map fst (take 10 (sortDesc (objectEntries (frequencies l)))).

(** What a token is made of: a lower-case letter, a digit or [_]. *)
Definition tokenUnit (c : N) : bool := isWord c && negb (isUpper c).

(** A property with its value changed. *)
Definition mapValue {V W} (g : V -> W) (e : jsstring * V) : jsstring * W :=
  (e.1, g e.2).

Definition mapIndexed {V W} (g : V -> W) (x : N * (jsstring * V))
    : N * (jsstring * W) :=
  (x.1, mapValue g x.2).

(** The counting object that holds the given numeric counts. *)
Definition numericObject (l : list (jsstring * N)) : JsObject CountVal :=
  map (mapValue CNum) l.

(** The order [sortDesc] establishes. *)
Definition descending (x y : jsstring * N) : Prop := (y.2 <= x.2)%N.

Definition storedText (text : String.string) : StoredMessage :=
  {| data := {| id := js "m"; from := js "4915100000@c.us";
                body := js text; timestamp := 1700000000;
                type := js "chat" |};
     addedAt := 1700000000000 |}.

(** A configuration that summarizes early: keep 1, summarize at 2. *)
Definition smallConfig : ConversationMemory.Config :=
  {| maxContextMessages := 1; summarizationThreshold := 2 |}.

(** *** Post-processing *)

(** The number of back-ticks in a text. *)
Definition backticks (s : jsstring) : nat :=
  length (List.filter (fun c => (c =? ResponseHandler.backtick)%N) s).

(** By the words of the design document: a text longer than the maximum
    is cut to its first [maxResponseLength - 3] units and "..." . *)
Definition withEllipsis (maxResponseLength : Z) (s : jsstring) : jsstring :=
  if Z.of_nat (length s) <=? maxResponseLength then s
  else take (Z.to_nat (maxResponseLength - 3)) s ++ js "...".

(** *** Response frequency *)

Definition frequencyKey (contactId : jsstring) : jsstring :=
  js "frequency_" ++ contactId.

(** The timestamps recorded for a contact: none while it has no entry;
    [None] if the entry under its frequency key is not an array. *)
Definition recorded (cooldownMap : gmap jsstring Helpers.CooldownEntry)
    (contactId : jsstring) : option (list Z) :=
  match cooldownMap !! frequencyKey contactId with
  | None => Some []
  | Some (Helpers.Timestamps l) => Some l
  | Some (Helpers.LastResponse _) => None
  end.

(** The timestamps younger than the window: [now - windowMs < ts]. *)
Definition recent (now : Z) (ts : list Z) : list Z :=
  List.filter (fun t => now - MessageHandler.windowMs <? t) ts.

(** By the words of the design document: the timestamps in the closed
    interval from [now - windowMs] to [now]. *)
Definition withinClosedWindow (now : Z) (ts : list Z) : list Z :=
  List.filter
    (fun t => (now - MessageHandler.windowMs <=? t) && (t <=? now)) ts.

(** The answers of successive frequency checks for one contact, one per
    reading of the clock; the run stops if a check throws. *)
Fixpoint frequencyRun (limit : Z) (contactId : jsstring) (times : list Z)
    (cooldownMap : gmap jsstring Helpers.CooldownEntry) : list bool :=
  match times with
  | [] => []
  | now :: times' =>
      match MessageHandler.checkResponseFrequency limit now contactId
              cooldownMap with
      | Some (b, cooldownMap') =>
          b :: frequencyRun limit contactId times' cooldownMap'
      | None => []
      end
  end.

(** *** The pipeline *)

(** A message gets through the six filters of [handleMessage]. *)
Definition passesFilters (cfg : MessageHandler.Config)
    (env : MessageHandler.Env) (message : MessageHandler.Message)
    (st : MessageHandler.State) : bool :=
  let from := from (MessageHandler.content message) in
  let body := body (MessageHandler.content message) in
  negb (bool_decide (from ∈ MessageHandler.ignoredContacts cfg))
  && negb (Helpers.isGroupMessage from && MessageHandler.ignoreGroups cfg)
  && negb (Js.eqb from (js "status@broadcast"))
  && negb (MessageHandler.fromMe message)
  && negb (bool_decide (body = []) || bool_decide (trim body = []))
  && Helpers.isCooldownExpired (MessageHandler.cooldownMap st)
       (Helpers.getCooldownKey from) 1000
       (MessageHandler.onFilter (MessageHandler.clock env)).

(** The command name [parseCommand] reads off a prefixed body. *)
Definition commandName (cfg : CommandHandler.Config) (body : jsstring)
    : jsstring :=
  toLowerCase
    (hd [] (splitOn 32%N []
              (trim (drop (length (CommandHandler.prefix cfg)) body)))).

Definition recognized (cfg : CommandHandler.Config) (name : jsstring)
    : bool :=
  existsb (Js.eqb name) (CommandHandler.availableCommands cfg).


(** A string of ASCII units, and the lower case of an ASCII unit. *)
Definition ascii (s : jsstring) : Prop := Forall (fun c => (c < 128)%N) s.

Definition asciiLower (c : N) : N := if isUpper c then (c + 32)%N else c.

(** A message that is not a command: [processCommand] has nothing to
    say because commands are off, or the body is empty, does not start
    with the prefix, or names no command after it. *)
Definition plainMessage (cfg : CommandHandler.Config) (body : jsstring)
    : bool :=
  negb (CommandHandler.enabled cfg)
  || negb (Helpers.isCommand body (CommandHandler.prefix cfg))
  || bool_decide (commandName cfg body = []).

(** A message that makes [processCommand] run the handler [h]. *)
Definition invokes (cfg : CommandHandler.Config)
    (h : CommandHandler.Handler) (body : jsstring) : bool :=
  CommandHandler.enabled cfg
  && Helpers.isCommand body (CommandHandler.prefix cfg)
  && negb (bool_decide (commandName cfg body = []))
  && recognized cfg (commandName cfg body)
  && bool_decide (CommandHandler.commands (commandName cfg body) = Some h).

(** The per-contact preference, once it exists. *)
Definition responsesAre (b : bool) (us : CommandHandler.Settings)
    (contactId : jsstring) : Prop :=
  exists s, us !! contactId = Some s
            /\ CommandHandler.responsesEnabled s = b.


(** The memory after the inbound message has entered it. *)
Definition afterInbound (cfg : MessageHandler.Config)
    (env : MessageHandler.Env) (message : MessageHandler.Message)
    (st : MessageHandler.State) : Memory :=
  addMessage (MessageHandler.memoryCfg cfg)
    (MessageHandler.onInbound (MessageHandler.clock env))
    (Helpers.generateConversationId (from (MessageHandler.content message)))
    (MessageHandler.content message) (MessageHandler.memory st).

(** The context and the name handed to the generation capability. *)
Definition generationContext (cfg : MessageHandler.Config)
    (env : MessageHandler.Env) (message : MessageHandler.Message)
    (st : MessageHandler.State) : Context :=
  (getConversationContext (MessageHandler.memoryCfg cfg)
     (Helpers.generateConversationId (from (MessageHandler.content message)))
     None (afterInbound cfg env message st)).1.

Definition generationName (env : MessageHandler.Env) : jsstring :=
  default (js "User") (MessageHandler.contactInfo env).

(** The contact's preference allows replies and the frequency check
    lets this one through. *)
Definition mayReply (cfg : MessageHandler.Config)
    (env : MessageHandler.Env) (message : MessageHandler.Message)
    (st : MessageHandler.State) : bool :=
  let from := from (MessageHandler.content message) in
  (CommandHandler.isUserResponsesEnabled (MessageHandler.commandCfg cfg)
     from (MessageHandler.userSettings st)).1
  && bool_decide
       (fst <$> MessageHandler.checkResponseFrequency
                  (MessageHandler.responseFrequencyLimit cfg)
                  (MessageHandler.onFrequency (MessageHandler.clock env))
                  from (MessageHandler.cooldownMap st)
        = Some true).


(** The settings of the README's [.env] example and the six commands. *)
Definition exampleCommands : CommandHandler.Config :=
  {| CommandHandler.prefix := js "/";
     CommandHandler.enabled := true;
     CommandHandler.availableCommands :=
       map js ["help"; "status"; "stop"; "start"; "info";
               "personalities"]%string;
     CommandHandler.personality := js "custom";
     CommandHandler.maxResponseLength := 100;
     CommandHandler.responseDelay := 0;
     CommandHandler.autoResponsesEnabled := true;
     CommandHandler.personalityLoader := None |}.

Definition exampleConfig : MessageHandler.Config :=
  {| MessageHandler.commandCfg := exampleCommands;
     MessageHandler.memoryCfg := readmeConfig;
     MessageHandler.ignoredContacts := ∅;
     MessageHandler.ignoreGroups := true;
     MessageHandler.responseFrequencyLimit := 10;
     MessageHandler.sendMessageCallback := true |}.

Definition exampleContact : jsstring := js "4915100000@c.us".

Definition exampleMessage (k : nat) (text : jsstring)
    : MessageHandler.Message :=
  {| MessageHandler.content :=
       {| id := js "m" ++ showNum (Z.of_nat k);
          from := exampleContact;
          body := text;
          timestamp := 1700000000 + 10 * Z.of_nat k;
          type := js "chat" |};
     MessageHandler.to := js "4915199999@c.us";
     MessageHandler.fromMe := false |}.

(** Readings ten seconds apart, message after message. *)
Definition exampleEnv (k : nat) (gen : ResponseHandler.Generator)
    : MessageHandler.Env :=
  let t := 1700000000000 + 10000 * Z.of_nat k in
  {| MessageHandler.clock :=
       {| MessageHandler.onFilter := t;
          MessageHandler.onInbound := t + 1;
          MessageHandler.onFrequency := t + 2;
          MessageHandler.onReply := t + 900;
          MessageHandler.onDone := t + 950 |};
     MessageHandler.random := k;
     MessageHandler.geminiAI := gen;
     MessageHandler.contactInfo := Some (js "Ada") |}.

Definition initialState : MessageHandler.State :=
  {| MessageHandler.memory := ConversationMemory.empty;
     MessageHandler.cooldownMap := ∅;
     MessageHandler.userSettings := ∅ |}.

Definition failingGenerator : ResponseHandler.Generator :=
  fun _ _ _ => ResponseHandler.Thrown.

Definition echoGenerator : ResponseHandler.Generator :=
  fun message _ _ => ResponseHandler.Returned (js "You said: " ++ message).

(** *** Runs over several conversations *)

(** [addMessage] called once per element of [inputs], each with its
    conversation id and its reading of the clock. *)
Definition appendAll (cfg : ConversationMemory.Config)
    (inputs : list (jsstring * Z * MessageData)) (st : Memory) : Memory :=
  fold_left (fun s i => addMessage cfg i.1.2 i.1.1 i.2 s) inputs st.

(** The largest number of messages a conversation retains. *)
Definition retainedBound (cfg : ConversationMemory.Config) : Z :=
  Z.max (maxContextMessages cfg) (summarizationThreshold cfg - 1).

(** Every conversation of the memory is within the bound. *)
Definition bounded (cfg : ConversationMemory.Config) (st : Memory) : Prop :=
  forall cid, Z.of_nat (length (retained st cid)) <= retainedBound cfg.

(** A conversation too old for a clean-up at [now]. *)
Definition isOld (now maxAge : Z) (c : Conversation) : bool :=
  maxAge <? now - updatedAt c.

(** *** The memory under all its operations *)

Inductive MemoryOp :=
| Append (now : Z) (conversationId : jsstring) (message : MessageData)
| Read (conversationId : jsstring) (maxMessages : option Z)
| Delete (conversationId : jsstring)
| Cleanup (now maxAge : Z).

Definition runOp (cfg : ConversationMemory.Config) (op : MemoryOp)
    (st : Memory) : Memory :=
  match op with
  | Append now conversationId message =>
      addMessage cfg now conversationId message st
  | Read conversationId maxMessages =>
      (getConversationContext cfg conversationId maxMessages st).2
  | Delete conversationId => deleteConversation conversationId st
  | Cleanup now maxAge => cleanupOldConversations now maxAge st
  end.

Definition runOps (cfg : ConversationMemory.Config) (ops : list MemoryOp)
    (st : Memory) : Memory :=
  fold_left (fun s op => runOp cfg op s) ops st.

(** Every conversation is stored under its own id, and every summary
    under the id of a conversation that is in the memory. *)
Definition consistent (st : Memory) : Prop :=
  (forall cid c, conversations st !! cid = Some c -> conv_id c = cid)
  /\ (forall cid s, summaries st !! cid = Some s ->
         conversationId s = cid /\ is_Some (conversations st !! cid)).

(** The readings of the clock at which a frequency check answered true. *)
Definition acceptedAt (times : list Z) (answers : list bool) : list Z :=
  map fst (List.filter snd (combine times answers)).

(** The timestamps within the window that ends at [t]:
    [t - windowMs < ts <= t]. *)
Definition withinWindow (t : Z) (ts : list Z) : list Z :=
  List.filter (fun x => (t - MessageHandler.windowMs <? x) && (x <=? t)) ts.

End Spec.

Import ConversationMemory Spec.

(** * Properties *)

(** ** The model at work *)

Example slice_examples :
  slice [1; 2; 3; 4; 5] (-2) None = [4; 5]
  /\ slice [1; 2; 3; 4; 5] 0 (Some (-2)) = [1; 2; 3]
  /\ slice [1; 2; 3] (-5) None = [1; 2; 3]
  /\ slice [1; 2; 3] 0 (Some (-5)) = []
  /\ slice [1; 2; 3] (-0) None = [1; 2; 3].
Proof. repeat split; reflexivity. Qed.

Example split_examples :
  splitWs false [] (js " a  b ") = [[]; js "a"; js "b"; []]
  /\ splitOn 32%N [] (js "stop  now") = [js "stop"; []; js "now"]
  /\ trim (js "  hi there " ++ [9%N; 160%N]) = js "hi there".
Proof. repeat split; reflexivity. Qed.

Example parseCommand_examples :
  Helpers.parseCommand (js "/  Stop now") (js "/")
  = {| Helpers.name := Some (js "stop"); Helpers.args := [js "now"] |}
  /\ Helpers.parseCommand (js "/") (js "/")
     = {| Helpers.name := Some []; Helpers.args := [] |}
  /\ Helpers.parseCommand (js "hello") (js "/")
     = {| Helpers.name := None; Helpers.args := [] |}
  /\ Helpers.generateConversationId (js "49-151-00000@c.us")
     = js "49_151_00000".
Proof. repeat split; reflexivity. Qed.

Example stripMarkup_examples :
  ResponseHandler.stripMarkup
    (js "a ```code``` b `x` **bold** and *it* ## Head `lone")
  = js "a  b  bold and it Head `lone"
  /\ ResponseHandler.stripMarkup (js "######## x ***a*** **** `` ``````q")
     = js "##x a ****  q"
  /\ ResponseHandler.stripMarkup (js "**a*b** *c**d*") = js "*ab* c*d"
  /\ ResponseHandler.stripMarkup (js "****a****") = js "*a*".
Proof. repeat split; vm_compute; reflexivity. Qed.

Example extractKeyTopics_examples :
  extractKeyTopics
    [ storedText "Hello 2024 hello, world! the 100 cat's";
      storedText " 2024 zebra  " ]
  = Some (map js ["2024"; "hello"; "100"; "world"; "cats"; "zebra"]%string)
  /\ extractKeyTopics [storedText "__proto__ foo"] = Some [js "foo"]
  /\ extractKeyTopics [storedText "a constructor"] = None.
Proof. repeat split; vm_compute; reflexivity. Qed.

(** ** Arrays *)

Section Slice.

Context {A : Type}.
Implicit Types l : list A.

Lemma relIndex_range len k : 0 <= len -> 0 <= relIndex len k <= len.
Proof. unfold relIndex. destruct (k <? 0) eqn:E; lia. Qed.

Lemma slice_prefix l e :
  slice l 0 (Some e) = take (Z.to_nat (relIndex (Z.of_nat (length l)) e)) l.
Proof.
  unfold slice. replace (relIndex _ 0) with 0.
  - simpl. rewrite drop_0. f_equal. lia.
  - unfold relIndex. simpl. lia.
Qed.

Lemma slice_suffix l e :
  slice l e None = drop (Z.to_nat (relIndex (Z.of_nat (length l)) e)) l.
Proof.
  unfold slice. apply take_ge. rewrite length_drop.
  pose proof (relIndex_range (Z.of_nat (length l)) e). lia.
Qed.

(** [l.slice(0, e)] and [l.slice(e)] cut [l] in two. *)
Lemma slice_split l e : slice l 0 (Some e) ++ slice l e None = l.
Proof. rewrite slice_prefix, slice_suffix. apply take_drop. Qed.

Lemma slice_split_length l e :
  (length (slice l 0 (Some e)) + length (slice l e None) = length l)%nat.
Proof. rewrite <- length_app, slice_split. reflexivity. Qed.

(** With a positive [n], [l.slice(-n)] is the last [n] elements. *)
Lemma slice_last l n : 0 < n -> slice l (- n) None = lastN (Z.to_nat n) l.
Proof.
  intros Hn. rewrite slice_suffix. unfold lastN, relIndex.
  destruct (- n <? 0) eqn:E; [|lia]. f_equal. lia.
Qed.

Lemma length_lastN l n : length (lastN n l) = Nat.min n (length l).
Proof. unfold lastN. rewrite length_drop. lia. Qed.

Lemma lastN_app_last l x n : (0 < n)%nat -> last (lastN n (l ++ [x])) = Some x.
Proof.
  intros Hn. unfold lastN. rewrite length_app. simpl.
  rewrite drop_app_le by lia. apply last_snoc.
Qed.

End Slice.

(** ** Conversation memory *)

Section Memory.

Variable cfg : ConversationMemory.Config.
Variable cid : jsstring.

Local Abbreviation T := (summarizationThreshold cfg).
Local Abbreviation M := (maxContextMessages cfg).
Local Abbreviation pushed := (Spec.pushed cid).
Local Abbreviation progress := (Spec.progress cfg cid).

Lemma addMessage_retained now m st :
  retained (addMessage cfg now cid m st) cid =
  if T <=? Z.of_nat (length (pushed now m st))
  then slice (pushed now m st) (- M) None
  else pushed now m st.
Proof.
  unfold addMessage, pushed, retained, summarizeConversation. simpl.
  destruct (conversations st !! cid) as [c|] eqn:Hc; simpl;
    (destruct (T <=? _) eqn:HT; simpl;
     [ rewrite lookup_insert_eq; simpl;
       destruct (_ <? T) eqn:HT'; [lia|]; simpl;
       rewrite lookup_insert_eq; reflexivity
     | rewrite lookup_insert_eq; reflexivity ]).
Qed.

Lemma addMessage_summary now m st :
  summaries (addMessage cfg now cid m st) !! cid =
  if T <=? Z.of_nat (length (pushed now m st))
  then Some {| conversationId := cid;
               messageCount :=
                 Z.of_nat (length (slice (pushed now m st) 0 (Some (- M))));
               timeRange_start :=
                 (fun x => timestamp (data x))
                   <$> head (slice (pushed now m st) 0 (Some (- M)));
               timeRange_end :=
                 (fun x => timestamp (data x))
                   <$> last (slice (pushed now m st) 0 (Some (- M)));
               keyTopics :=
                 extractKeyTopics (slice (pushed now m st) 0 (Some (- M)));
               summary_createdAt := now |}
  else summaries st !! cid.
Proof.
  unfold addMessage, pushed, retained, summarizeConversation. simpl.
  destruct (conversations st !! cid) as [c|] eqn:Hc; simpl;
    (destruct (T <=? _) eqn:HT; simpl;
     [ rewrite lookup_insert_eq; simpl;
       destruct (_ <? T) eqn:HT'; [lia|]; simpl;
       rewrite lookup_insert_eq; reflexivity
     | reflexivity ]).
Qed.

Lemma addMessage_present now m st :
  is_Some (conversations (addMessage cfg now cid m st)
             !! cid).
Proof.
  unfold addMessage, summarizeConversation. simpl.
  destruct (T <=? _); simpl.
  - rewrite lookup_insert_eq. simpl. destruct (_ <? T); simpl;
      rewrite lookup_insert_eq; eauto.
  - rewrite lookup_insert_eq; eauto.
Qed.

Lemma reachesThreshold_pushed now m st :
  reachesThreshold cfg cid st
  = (T <=? Z.of_nat (length (pushed now m st))).
Proof.
  unfold reachesThreshold, pushed. rewrite length_app. simpl.
  f_equal. lia.
Qed.

(** A summarizing append evicts exactly the messages its summary counts. *)
Lemma evictedBy_summarizing now m st :
  reachesThreshold cfg cid st = true ->
  exists s,
    summaries (addMessage cfg now cid m st) !! cid
      = Some s
    /\ messageCount s = evictedBy cfg now cid m st.
Proof.
  intros H. rewrite (reachesThreshold_pushed now m) in H.
  eexists. split.
  - rewrite addMessage_summary, H. reflexivity.
  - simpl. unfold evictedBy. rewrite addMessage_retained, H.
    pose proof (slice_split_length (pushed now m st) (- M)) as Hs.
    unfold pushed in *. rewrite length_app in *. simpl in *. lia.
Qed.

Lemma progress_step n st last now m :
  1 <= M ->
  progress n st last ->
  progress (S n) (addMessage cfg now cid m st)
    (if reachesThreshold cfg cid st
     then Some (evictedBy cfg now cid m st) else last).
Proof.
  intros HM (Hlen & _ & Hlast). split; [|split].
  - rewrite addMessage_retained.
    destruct (T <=? _) eqn:HT.
    + rewrite slice_last by lia. rewrite length_lastN. lia.
    + lia.
  - right. apply addMessage_present.
  - destruct (reachesThreshold cfg cid st) eqn:HR.
    + apply evictedBy_summarizing, HR.
    + rewrite (reachesThreshold_pushed now m) in HR.
      destruct last as [k|].
      * rewrite addMessage_summary, HR. exact Hlast.
      * destruct Hlast as [Hn _]. rewrite addMessage_retained, HR.
        apply Z.leb_gt in HR. unfold Spec.pushed in *. rewrite length_app in *. simpl in *.
        split; [lia | left; lia].
Qed.

Lemma progress_run inputs : forall n st last,
  1 <= M ->
  progress n st last ->
  progress (n + length inputs)
    (addMessages cfg cid inputs st)
    (lastEviction cfg cid inputs st last).
Proof.
  induction inputs as [|i inputs IH]; intros n st last HM H; simpl.
  - rewrite Nat.add_0_r. exact H.
  - replace (n + S (length inputs))%nat with (S n + length inputs)%nat by lia.
    apply IH; [exact HM|]. apply progress_step; assumption.
Qed.

End Memory.

(** *** Reading the context *)

(** Claim C10.  For a conversation id that is not in the in-memory cache,
    [getConversationContext] returns an empty message list, a [null]
    summary and no [totalMessages] field, and it leaves the memory as it
    was: no conversation is created. *)
Theorem C10_context_of_unknown_conversation
    (cfg : ConversationMemory.Config) (cid : jsstring)
    (maxMessages : option Z) (st : Memory) :
  conversations st !! cid = None ->
  getConversationContext cfg cid maxMessages st
  = ({| ctx_messages := []; ctx_summary := SummaryNull;
        totalMessages := None |}, st).
Proof.
  intros Habsent. unfold getConversationContext. rewrite Habsent. reflexivity.
Qed.

Lemma C10_witness :
  getConversationContext readmeConfig (js "4915100000") (Some 5) empty
  = ({| ctx_messages := []; ctx_summary := SummaryNull;
        totalMessages := None |}, empty).
Proof.
  apply (C10_context_of_unknown_conversation readmeConfig (js "4915100000")
           (Some 5) empty).
  reflexivity.
Defined.

(** Reading never writes. *)
Lemma getConversationContext_state cfg cid maxMessages st :
  (getConversationContext cfg cid maxMessages st).2 = st.
Proof.
  unfold getConversationContext.
  destruct (conversations st !! cid); reflexivity.
Qed.

(** Claim C7.  Two calls of [getConversationContext] for the same
    conversation, one right after the other, return the same context (same
    messages in the same order, same summary, same [totalMessages]), and the
    memory after either call is the memory before the first. *)
Theorem C7_context_is_idempotent
    (cfg : ConversationMemory.Config) (cid : jsstring)
    (maxMessages : option Z) (st : Memory) :
  let first := getConversationContext cfg cid maxMessages st in
  let second := getConversationContext cfg cid maxMessages first.2 in
  first.1 = second.1 /\ first.2 = st /\ second.2 = st.
Proof.
  simpl. rewrite !getConversationContext_state. auto.
Qed.

(** Claim C1, as the code has it.  For a conversation present in memory
    and a positive effective limit ([maxMessages], or the configured
    [maxContextMessages] when [maxMessages] is [null] or 0),
    [getConversationContext] returns the last [limit] retained messages,
    the current summary if there is one, and [totalMessages] equal to the
    number of retained messages; the memory is unchanged.  Messages that
    were compacted into the summary are not counted. *)
Theorem C1_context_of_known_conversation
    (cfg : ConversationMemory.Config) (cid : jsstring)
    (maxMessages : option Z) (st : Memory) :
  is_Some (conversations st !! cid) ->
  0 < effectiveLimit cfg maxMessages ->
  getConversationContext cfg cid maxMessages st
  = ({| ctx_messages :=
          lastN (Z.to_nat (effectiveLimit cfg maxMessages)) (retained st cid);
        ctx_summary := currentSummary st cid;
        totalMessages := Some (Z.of_nat (length (retained st cid))) |}, st).
Proof.
  intros [c Hc] Hlimit. unfold getConversationContext, retained, currentSummary.
  rewrite Hc. f_equal. f_equal.
  assert (E : (match maxMessages with
               | Some n => if n =? 0 then maxContextMessages cfg else n
               | None => maxContextMessages cfg
               end) = effectiveLimit cfg maxMessages).
  { unfold effectiveLimit. destruct maxMessages as [[| |]|]; reflexivity. }
  rewrite E. apply slice_last, Hlimit.
Qed.

Lemma C1_witness :
  let st := addMessages readmeConfig (js "4915100000") (testRun 20) empty in
  getConversationContext readmeConfig (js "4915100000") (Some 3) st
  = ({| ctx_messages := lastN 3 (retained st (js "4915100000"));
        ctx_summary := currentSummary st (js "4915100000");
        totalMessages :=
          Some (Z.of_nat (length (retained st (js "4915100000")))) |}, st).
Proof.
  intros st.
  apply (C1_context_of_known_conversation readmeConfig (js "4915100000")
           (Some 3) st).
  - vm_compute. eexists. reflexivity.
  - reflexivity.
Defined.

(** Claim C1 fails as stated: after the 20 appends that the documented
    configuration summarizes, ten messages are retained, ten are counted
    by the summary, and [totalMessages] is 10, not the 20 messages of the
    conversation's history. *)
Lemma C1_counterexample :
  let cid := js "4915100000" in
  let st := addMessages readmeConfig cid (testRun 20) empty in
  let ctx := (getConversationContext readmeConfig cid None st).1 in
  (messageCount <$> summaries st !! cid) = Some 10
  /\ totalMessages ctx = Some 10
  /\ totalMessages ctx <> Some (Z.of_nat (length (testRun 20))).
Proof.
  vm_compute. repeat split; congruence.
Qed.

(** *** Appending *)

(** Claim C2, as the code has it.  Let at least [summarizationThreshold]
    messages (and at least one) be appended to a conversation that was not
    in memory, with [maxContextMessages >= 1].  After the last append the
    retained list is no longer than the larger of [maxContextMessages] and
    [summarizationThreshold - 1]; it is no longer than [maxContextMessages]
    if that append reached the threshold; and the conversation has a
    summary, whose [messageCount] is the number of messages evicted by the
    most recent append that reached the threshold. *)
Theorem C2_retained_after_threshold
    (cfg : ConversationMemory.Config) (cid : jsstring)
    (inputs : list (Z * MessageData)) (st : Memory) :
  1 <= maxContextMessages cfg ->
  conversations st !! cid = None ->
  inputs <> [] ->
  summarizationThreshold cfg <= Z.of_nat (length inputs) ->
  let st' := addMessages cfg cid inputs st in
  Z.of_nat (length (retained st' cid))
    <= Z.max (maxContextMessages cfg) (summarizationThreshold cfg - 1)
  /\ (forall before i,
        inputs = before ++ [i] ->
        reachesThreshold cfg cid (addMessages cfg cid before st) = true ->
        Z.of_nat (length (retained st' cid)) <= maxContextMessages cfg)
  /\ exists s,
       summaries st' !! cid = Some s
       /\ lastEviction cfg cid inputs st None = Some (messageCount s).
Proof.
  intros HM Habsent Hne HN st'.
  assert (H0 : progress cfg cid 0 st None).
  { unfold progress, retained. rewrite Habsent. simpl.
    repeat split; auto; lia. }
  pose proof (progress_run cfg cid inputs 0 st None HM H0) as (Hlen & _ & Hlast).
  split; [exact Hlen|]. split.
  - intros before i -> Hreach. subst st'. unfold addMessages.
    rewrite fold_left_app. simpl. fold (addMessages cfg cid before st).
    rewrite addMessage_retained.
    rewrite (reachesThreshold_pushed cfg cid i.1 i.2) in Hreach.
    rewrite Hreach, slice_last by lia. rewrite length_lastN. lia.
  - destruct (lastEviction cfg cid inputs st None) as [k|].
    + destruct Hlast as (s & Hs & Hk). exists s. subst k. auto.
    + destruct Hlast as (_ & [Hlt | Hz]).
      * simpl in Hlt. lia.
      * destruct inputs; [congruence | discriminate Hz].
Qed.

Lemma C2_witness :
  let cid := js "4915100000" in
  let st' := addMessages readmeConfig cid (testRun 25) empty in
  Z.of_nat (length (retained st' cid)) <= Z.max 10 (20 - 1)
  /\ (forall before i,
        testRun 25 = before ++ [i] ->
        reachesThreshold readmeConfig cid
          (addMessages readmeConfig cid before empty) = true ->
        Z.of_nat (length (retained st' cid)) <= 10)
  /\ exists s,
       summaries st' !! cid = Some s
       /\ lastEviction readmeConfig cid (testRun 25) empty None
          = Some (messageCount s).
Proof.
  apply (C2_retained_after_threshold readmeConfig (js "4915100000")
           (testRun 25) empty).
  - vm_compute. congruence.
  - reflexivity.
  - discriminate.
  - vm_compute. congruence.
Defined.

(** Claim C2 fails as stated.  With the documented configuration (keep 10,
    summarize at 20) the 21st append leaves 11 retained messages, more than
    [maxContextMessages]; and after the 30th append the summary counts the
    10 messages of the latest compaction while 20 messages have left the
    retained list. *)
Lemma C2_counterexample :
  let cid := js "4915100000" in
  let st21 := addMessages readmeConfig cid (testRun 21) empty in
  let st30 := addMessages readmeConfig cid (testRun 30) empty in
  ~ (Z.of_nat (length (retained st21 cid)) <= maxContextMessages readmeConfig)
  /\ (messageCount <$> summaries st30 !! cid) = Some 10
  /\ (30 - length (retained st30 cid))%nat = 20%nat.
Proof.
  vm_compute. repeat split; congruence.
Qed.

(** ** Response frequency *)

Section Frequency.

Import MessageHandler.

Variable contactId : jsstring.
Implicit Types cooldownMap : gmap jsstring Helpers.CooldownEntry.

(** One check, in terms of the recorded timestamps. *)
Lemma checkResponseFrequency_recorded limit now cooldownMap ts :
  recorded cooldownMap contactId = Some ts ->
  let b := Z.of_nat (length (recent now ts)) <? limit in
  exists cooldownMap',
    checkResponseFrequency limit now contactId cooldownMap
      = Some (b, cooldownMap')
    /\ recorded cooldownMap' contactId
       = Some (if b then recent now ts ++ [now] else ts)
    /\ forall k, k <> frequencyKey contactId ->
                 cooldownMap' !! k = cooldownMap !! k.
Proof.
  intros Hrec. cbv zeta.
  unfold recorded, checkResponseFrequency, recent, frequencyKey in *.
  destruct (cooldownMap !! (js "frequency_" ++ contactId))
    as [[t|l]|] eqn:Hk; inversion Hrec; subst; clear Hrec.
  - rewrite Hk.
    destruct (Z.leb_spec limit (Z.of_nat (length
               (List.filter (fun t => now - windowMs <? t) ts))));
      destruct (Z.ltb_spec (Z.of_nat (length
               (List.filter (fun t => now - windowMs <? t) ts))) limit);
      try lia; eexists; (split; [reflexivity|]).
    + rewrite Hk. auto.
    + rewrite lookup_insert_eq. split; [reflexivity|].
      intros k Hne. apply lookup_insert_ne. congruence.
  - rewrite lookup_insert_eq. cbn [List.filter length]. change (Z.of_nat 0) with 0.
    destruct (Z.leb_spec limit 0); destruct (Z.ltb_spec 0 limit);
      try lia; eexists; (split; [reflexivity|]);
      rewrite lookup_insert_eq; (split; [reflexivity|]);
      intros k Hne; rewrite !lookup_insert_ne by congruence;
      reflexivity.
Qed.

Lemma recent_keep now t ts :
  now - windowMs < t -> recent now (t :: ts) = t :: recent now ts.
Proof.
  intros H. unfold recent. simpl.
  destruct (Z.ltb_spec (now - windowMs) t); [reflexivity | lia].
Qed.

Lemma recent_drop now t ts :
  t <= now - windowMs -> recent now (t :: ts) = recent now ts.
Proof.
  intros H. unfold recent. simpl.
  destruct (Z.ltb_spec (now - windowMs) t); [lia | reflexivity].
Qed.

Lemma length_recent now ts : (length (recent now ts) <= length ts)%nat.
Proof. apply List.filter_length_le. Qed.

(** The scenario of the design document: three calls pass, a fourth
    within the same minute is refused, and once the first of them is a
    minute old a call passes again. *)
Lemma frequency_scenario cooldownMap t1 t2 t3 t4 t5 :
  recorded cooldownMap contactId = Some [] ->
  t1 <= t2 -> t2 <= t3 -> t3 <= t4 -> t4 - t1 < windowMs ->
  t4 <= t5 -> windowMs <= t5 - t1 ->
  frequencyRun 3 contactId [t1; t2; t3; t4; t5] cooldownMap
  = [true; true; true; false; true].
Proof.
  intros H0 H12 H23 H34 Hin H45 Hout.
  assert (E2 : recent t2 [t1] = [t1])
    by (rewrite recent_keep by lia; reflexivity).
  assert (E3 : recent t3 [t1; t2] = [t1; t2])
    by (rewrite !recent_keep by lia; reflexivity).
  assert (E4 : recent t4 [t1; t2; t3] = [t1; t2; t3])
    by (rewrite !recent_keep by lia; reflexivity).
  assert (E5 : recent t5 [t1; t2; t3] = recent t5 [t2; t3])
    by (apply recent_drop; lia).
  pose proof (length_recent t5 [t2; t3]) as Hle. cbn [length] in Hle.
  unfold frequencyRun.
  destruct (checkResponseFrequency_recorded 3 t1 _ _ H0)
    as (m1 & -> & H1 & _). simpl in H1.
  destruct (checkResponseFrequency_recorded 3 t2 _ _ H1)
    as (m2 & -> & H2 & _). rewrite E2 in H2 |- *. simpl in H2.
  destruct (checkResponseFrequency_recorded 3 t3 _ _ H2)
    as (m3 & -> & H3 & _). rewrite E3 in H3 |- *. simpl in H3.
  destruct (checkResponseFrequency_recorded 3 t4 _ _ H3)
    as (m4 & -> & H4 & _). rewrite E4 in H4 |- *. simpl in H4.
  destruct (checkResponseFrequency_recorded 3 t5 _ _ H4)
    as (m5 & -> & _). rewrite E5.
  destruct (Z.ltb_spec (Z.of_nat (length (recent t5 [t2; t3]))) 3);
    [reflexivity | lia].
Qed.

End Frequency.

(** Claim C3, as the code has it.  For every contact, the frequency check
    counts the recorded timestamps that are younger than the window
    ([now - windowMs < ts], the interval open at its lower end); if that
    count is below the limit it records [now] after them and returns true,
    otherwise it returns false and the recorded timestamps stay as they
    were; no other key of the map changes.  With limit 3 and the 60000 ms
    window, a 4th call within the minute of the 1st returns false, and a
    call made once the 1st is a minute old returns true again. *)
Theorem C3_frequency_window (contactId : jsstring) :
  (forall limit now cooldownMap ts,
      recorded cooldownMap contactId = Some ts ->
      let b := Z.of_nat (length (recent now ts)) <? limit in
      exists cooldownMap',
        MessageHandler.checkResponseFrequency limit now contactId cooldownMap
          = Some (b, cooldownMap')
        /\ recorded cooldownMap' contactId
           = Some (if b then recent now ts ++ [now] else ts)
        /\ forall k, k <> frequencyKey contactId ->
                     cooldownMap' !! k = cooldownMap !! k)
  /\ (forall cooldownMap t1 t2 t3 t4 t5,
        recorded cooldownMap contactId = Some [] ->
        t1 <= t2 -> t2 <= t3 -> t3 <= t4 -> t4 - t1 < 60000 ->
        t4 <= t5 -> 60000 <= t5 - t1 ->
        frequencyRun 3 contactId [t1; t2; t3; t4; t5] cooldownMap
        = [true; true; true; false; true]).
Proof.
  split.
  - intros limit now cooldownMap ts.
    apply checkResponseFrequency_recorded.
  - intros cooldownMap t1 t2 t3 t4 t5.
    apply frequency_scenario.
Qed.

Lemma C3_witness :
  let c := js "4915100000@c.us" in
  let t := 1700000000000 in
  frequencyRun 3 c [t; t + 1000; t + 2000; t + 59999; t + 60000] ∅
  = [true; true; true; false; true].
Proof.
  intros c t.
  apply (proj2 (C3_frequency_window c) ∅ t (t + 1000) (t + 2000)
           (t + 59999) (t + 60000)); subst t; try lia.
  reflexivity.
Defined.

(** Claim C3 fails as stated.  With limit 1, a first call at time [t]
    records [t]; at [t + 60000] that timestamp lies in the closed interval
    from [now - windowMs] to [now], so the count of the claim is 1, not
    below the limit, and the claim has the call return false: it returns
    true. *)
Lemma C3_counterexample :
  let c := js "4915100000@c.us" in
  let t := 1700000000000 in
  exists m1,
    MessageHandler.checkResponseFrequency 1 t c ∅ = Some (true, m1)
    /\ recorded m1 c = Some [t]
    /\ length (withinClosedWindow (t + 60000) [t]) = 1%nat
    /\ (fst <$> MessageHandler.checkResponseFrequency 1 (t + 60000) c m1)
       = Some true.
Proof.
  eexists. split; [reflexivity|]. vm_compute. auto.
Qed.

(** ** Commands *)

Section Commands.

Import CommandHandler.

Variable cfg : CommandHandler.Config.
Implicit Types us : Settings.
Implicit Types from body : jsstring.

Lemma parseCommand_name body :
  Helpers.isCommand body (prefix cfg) = true ->
  Helpers.name (Helpers.parseCommand body (prefix cfg))
  = Some (commandName cfg body).
Proof.
  intros H. unfold Helpers.parseCommand. rewrite H. reflexivity.
Qed.

Lemma parseCommand_none body :
  Helpers.isCommand body (prefix cfg) = false ->
  Helpers.name (Helpers.parseCommand body (prefix cfg)) = None.
Proof.
  intros H. unfold Helpers.parseCommand. rewrite H. reflexivity.
Qed.

Lemma isCommand_nonempty body :
  Helpers.isCommand body (prefix cfg) = true -> body <> [].
Proof. destruct body; [discriminate | congruence]. Qed.

(** A message that is not a command gets no reply and changes nothing. *)
Lemma processCommand_plain from body us :
  plainMessage cfg body = true ->
  processCommand cfg from body us = (None, us).
Proof.
  unfold plainMessage, processCommand. intros H.
  destruct (enabled cfg); [|reflexivity]. cbn [negb orb] in *.
  destruct (bool_decide (body = [])); [reflexivity|].
  destruct (Helpers.isCommand body (prefix cfg)) eqn:Hc; cbn [negb orb] in H.
  - rewrite parseCommand_name by exact Hc.
    apply bool_decide_eq_true in H. rewrite H. reflexivity.
  - rewrite parseCommand_none by exact Hc. reflexivity.
Qed.


(** A message that names an available, implemented command. *)
Lemma processCommand_invokes h from body us :
  invokes cfg h body = true ->
  processCommand cfg from body us
  = (Some (runHandler cfg h from us).1, (runHandler cfg h from us).2).
Proof.
  unfold invokes. intros H.
  apply andb_true_iff in H as [H Hh]. apply andb_true_iff in H as [H Hr].
  apply andb_true_iff in H as [H Hn]. apply andb_true_iff in H as [He Hc].
  apply bool_decide_eq_true in Hh. apply negb_true_iff in Hn.
  apply bool_decide_eq_false in Hn.
  unfold processCommand. rewrite He. cbn [negb orb].
  rewrite bool_decide_eq_false_2 by (apply isCommand_nonempty, Hc).
  rewrite parseCommand_name by exact Hc.
  destruct (commandName cfg body) as [|c r] eqn:En; [congruence|].
  unfold recognized in Hr. rewrite Hr, Hh. cbn [negb].
  destruct (runHandler cfg h from us). reflexivity.
Qed.


(** *** The per-contact preference *)


Lemma getUserSettings_other d c us :
  d <> c -> (getUserSettings cfg d us).2 !! c = us !! c.
Proof.
  intros H. unfold getUserSettings. destruct (us !! d); [reflexivity|].
  apply lookup_insert_ne, H.
Qed.

Lemma setUserSettings_same c b us :
  responsesAre b (setUserSettings cfg c b us) c.
Proof.
  unfold setUserSettings, responsesAre.
  destruct (getUserSettings cfg c us) as [s us1].
  eexists. rewrite lookup_insert_eq. split; reflexivity.
Qed.

Lemma setUserSettings_other d c b us :
  d <> c -> setUserSettings cfg d b us !! c = us !! c.
Proof.
  intros H. unfold setUserSettings.
  pose proof (getUserSettings_other d c us H) as E.
  destruct (getUserSettings cfg d us) as [s us1]. simpl in E.
  rewrite lookup_insert_ne by exact H. exact E.
Qed.


Lemma isUserResponsesEnabled_other d c us :
  d <> c -> (isUserResponsesEnabled cfg d us).2 !! c = us !! c.
Proof.
  intros H. unfold isUserResponsesEnabled.
  pose proof (getUserSettings_other d c us H) as E.
  destruct (getUserSettings cfg d us) as [s us1]. exact E.
Qed.

Lemma runHandler_other h d c us :
  d <> c -> (runHandler cfg h d us).2 !! c = us !! c.
Proof.
  intros H. destruct h; simpl; try reflexivity.
  - unfold handleStatus.
    pose proof (getUserSettings_other d c us H) as E.
    destruct (getUserSettings cfg d us). exact E.
  - apply setUserSettings_other, H.
  - apply setUserSettings_other, H.
  - unfold handleInfo.
    pose proof (getUserSettings_other d c us H) as E.
    destruct (getUserSettings cfg d us). exact E.
Qed.


Lemma runHandler_stop c us :
  responsesAre false (runHandler cfg Stop c us).2 c.
Proof. apply setUserSettings_same. Qed.

Lemma runHandler_start c us :
  responsesAre true (runHandler cfg Start c us).2 c.
Proof. apply setUserSettings_same. Qed.

(** What [processCommand] does to the preference of a contact [c]:
    nothing, unless the message is from [c] and runs [/stop] or
    [/start]. *)
Lemma processCommand_other d c body us :
  d <> c -> (processCommand cfg d body us).2 !! c = us !! c.
Proof.
  intros H. unfold processCommand.
  destruct (negb (enabled cfg) || bool_decide (body = [])); [reflexivity|].
  destruct (Helpers.name _) as [[|x r]|]; try reflexivity.
  destruct (negb _); [reflexivity|].
  destruct (commands (x :: r)) as [h|]; [|reflexivity].
  pose proof (runHandler_other h d c us H) as E.
  destruct (runHandler cfg h d us). exact E.
Qed.


End Commands.

(** On ASCII input, lower-casing replaces [A-Z] by [a-z], unit by unit. *)
Lemma toLowerCase_ascii (s : jsstring) :
  ascii s -> toLowerCase s = map asciiLower s.
Proof.
  unfold toLowerCase. induction 1 as [|c s Hc _ IH]; [reflexivity|].
  cbn [map concat]. rewrite IH. unfold lowerUnit, asciiLower.
  destruct (isUpper c); [reflexivity|].
  destruct (N.eqb_spec c 304); [lia|].
  destruct (N.eqb_spec c 8490); [lia|]. reflexivity.
Qed.




(** ** Fallback texts *)

Lemma getFallbackResponse_in rnd :
  ResponseHandler.getFallbackResponse rnd ∈ ResponseHandler.fallbacks.
Proof.
  unfold ResponseHandler.getFallbackResponse.
  destruct (lookup_lt_is_Some_2 ResponseHandler.fallbacks
              (rnd mod length ResponseHandler.fallbacks)%nat) as [x Hx].
  - apply Nat.mod_upper_bound. discriminate.
  - rewrite Hx. simpl. apply list_elem_of_lookup. eauto.
Qed.

Lemma fallbacks_long :
  Forall (fun s => (3 <= length s)%nat) ResponseHandler.fallbacks.
Proof. repeat constructor; vm_compute; lia. Qed.

Lemma getFallbackResponse_long rnd :
  (3 <= length (ResponseHandler.getFallbackResponse rnd))%nat.
Proof.
  pose proof fallbacks_long as H. rewrite Forall_forall in H.
  apply H, getFallbackResponse_in.
Qed.

Lemma cleanResponse_long maxLen rnd response :
  (3 <= length (ResponseHandler.cleanResponse maxLen rnd response))%nat.
Proof.
  unfold ResponseHandler.cleanResponse.
  destruct response; [apply getFallbackResponse_long|].
  match goal with
  | |- context [(length ?x <? 3)%nat] =>
      destruct (Nat.ltb_spec (length x) 3)
  end; [apply getFallbackResponse_long | assumption].
Qed.

Lemma generateResponse_long gen maxLen rnd message context contactName :
  (3 <= length (ResponseHandler.generateResponse gen maxLen rnd message
                  context contactName))%nat.
Proof.
  unfold ResponseHandler.generateResponse.
  destruct (gen message context contactName).
  - apply cleanResponse_long.
  - apply getFallbackResponse_long.
Qed.

(** ** The pipeline *)

Section Pipeline.

Import MessageHandler.

Variable cfg : MessageHandler.Config.
Implicit Types st : State.
Implicit Types env : Env.
Implicit Types message : Message.

Local Abbreviation ccfg := (commandCfg cfg).
Local Abbreviation sender := (fun message => from (content message)).
Local Abbreviation text := (fun message => body (content message)).

Lemma handleMessage_rejected env message st :
  passesFilters cfg env message st = false ->
  handleMessage cfg env message st = (st, []).
Proof.
  unfold passesFilters, handleMessage. intros H.
  repeat match goal with
         | |- (if negb ?b then _ else _) = _ =>
             destruct b; cbn [negb andb] in *; [discriminate H | reflexivity]
         | |- (if ?b then _ else _) = _ =>
             destruct b; [reflexivity | cbn [negb andb] in H]
         end.
Qed.

Lemma handleMessage_passed env message st :
  passesFilters cfg env message st = true ->
  handleMessage cfg env message st = dispatch cfg env message st.
Proof.
  unfold passesFilters, handleMessage. intros H.
  repeat match goal with
         | |- (if negb ?b then _ else _) = _ =>
             destruct b; cbn [negb andb] in *; [reflexivity | discriminate H]
         | |- (if ?b then _ else _) = _ =>
             destruct b; cbn [negb andb] in H; [discriminate H |]
         end.
Qed.

(** The reply step always calls the generation capability once and then
    the transport with a text that is not empty. *)
Lemma reply_calls env message mem1 cd1 us2 :
  let context :=
    (getConversationContext (memoryCfg cfg)
       (Helpers.generateConversationId (sender message)) None mem1).1 in
  let response :=
    ResponseHandler.generateResponse (geminiAI env)
      (CommandHandler.maxResponseLength ccfg) (random env)
      (text message) context (generationName env) in
  reply cfg env message mem1 cd1 us2
  = ({| memory :=
          addMessage (memoryCfg cfg) (onReply (clock env))
            (Helpers.generateConversationId (sender message))
            (botMessage (onReply (clock env)) response) mem1;
        cooldownMap :=
          Helpers.updateCooldown cd1
            (Helpers.getCooldownKey (sender message)) (onDone (clock env));
        userSettings := us2 |},
     Generate (text message) context (generationName env)
     :: sendResponse cfg (sender message) response).
Proof.
  intros context response. unfold reply, generateAIResponse.
  pose proof (getConversationContext_state (memoryCfg cfg)
                (Helpers.generateConversationId (sender message)) None mem1)
    as Hst.
  subst response context. unfold generationName.
  destruct (getConversationContext _ _ None mem1) as [ctx mem1'].
  simpl in Hst. subst mem1'. cbn [fst].
  pose proof (generateResponse_long (geminiAI env)
                (CommandHandler.maxResponseLength ccfg) (random env)
                (text message) ctx (default (js "User") (contactInfo env)))
    as Hlong.
  destruct (ResponseHandler.generateResponse _ _ _ _ _ _) as [|x r];
    [simpl in Hlong; lia | reflexivity].
Qed.


(** A plain message that may be answered. *)
Lemma dispatch_plain_reply env message st :
  plainMessage ccfg (text message) = true ->
  mayReply cfg env message st = true ->
  exists cd1 us2,
    dispatch cfg env message st
    = reply cfg env message (afterInbound cfg env message st) cd1 us2.
Proof.
  intros Hp Hm. unfold mayReply in Hm.
  apply andb_true_iff in Hm as [Hon Hf].
  apply bool_decide_eq_true in Hf. unfold dispatch.
  rewrite (processCommand_plain ccfg _ _ _ Hp).
  destruct (CommandHandler.isUserResponsesEnabled ccfg _ _) as [on us2].
  simpl in Hon. subst on. cbn [negb].
  destruct (checkResponseFrequency _ _ _ _) as [[[|] cd1]|];
    try discriminate Hf.
  exists cd1, us2. reflexivity.
Qed.

(** A message that runs a command handler is answered with the
    handler's text when that is not empty, and nothing is generated. *)
Lemma dispatch_invokes h env message st :
  invokes ccfg h (text message) = true ->
  exists out,
    dispatch cfg env message st
    = ({| memory := afterInbound cfg env message st;
          cooldownMap :=
            match (CommandHandler.runHandler ccfg h (sender message)
                     (userSettings st)).1 with
            | [] => cooldownMap st
            | _ :: _ =>
                Helpers.updateCooldown (cooldownMap st)
                  (Helpers.getCooldownKey (sender message))
                  (onDone (clock env))
            end;
          userSettings :=
            (CommandHandler.runHandler ccfg h (sender message)
               (userSettings st)).2 |}, out)
    \/ (CommandHandler.runHandler ccfg h (sender message)
          (userSettings st)).1 = [].
Proof.
  intros Hi. unfold dispatch.
  rewrite (processCommand_invokes ccfg h _ _ _ Hi).
  destruct (CommandHandler.runHandler ccfg h _ _) as [[|x r] us1].
  - exists []. right. reflexivity.
  - eexists. left. reflexivity.
Qed.

End Pipeline.

Section PipelineState.

Import MessageHandler.

Variable cfg : MessageHandler.Config.
Implicit Types st : State.

Local Abbreviation ccfg := (commandCfg cfg).

(** With [maxContextMessages >= 0] the message just appended is the last
    one retained, summarized or not. *)
Lemma addMessage_last mcfg now cid m mem :
  0 <= maxContextMessages mcfg ->
  last (retained (addMessage mcfg now cid m mem) cid)
  = Some {| data := m; addedAt := now |}.
Proof.
  intros HM. rewrite addMessage_retained. unfold pushed.
  destruct (_ <=? _).
  - destruct (Z.eq_dec (maxContextMessages mcfg) 0) as [E|E].
    + rewrite E, slice_suffix. simpl. unfold relIndex. simpl.
      rewrite Z.min_l by lia. simpl. apply last_snoc.
    + rewrite slice_last by lia. apply lastN_app_last. lia.
  - apply last_snoc.
Qed.

(** The settings a dispatched message leaves are those of
    [processCommand], possibly read once more. *)
Lemma dispatch_settings env message st :
  let from := from (content message) in
  let us1 :=
    (CommandHandler.processCommand ccfg from (body (content message))
       (userSettings st)).2 in
  userSettings (dispatch cfg env message st).1 = us1
  \/ userSettings (dispatch cfg env message st).1
     = (CommandHandler.isUserResponsesEnabled ccfg from us1).2.
Proof.
  cbv zeta. unfold dispatch.
  destruct (CommandHandler.processCommand _ _ _ _) as [[[|x r]|] us1];
    cbn [snd]; try (left; reflexivity);
    (destruct (CommandHandler.isUserResponsesEnabled _ _ _) as [on us2];
     right; destruct on; cbn [negb]; [|reflexivity];
     destruct (checkResponseFrequency _ _ _ _) as [[[|] cd1]|];
     try reflexivity; rewrite reply_calls; reflexivity).
Qed.





End PipelineState.

(** Claim C4.  Let a message pass the filters, be no command, and be
    allowed a reply (preference on, frequency check passed), with the
    transport installed.  If the generation capability throws, the handler
    calls it once and then sends exactly one text to the contact, a member
    of the fixed list of fallback texts; the same text is appended to the
    conversation memory as a message from "bot" (with a non-negative
    [maxContextMessages] it is the last retained message).  Nothing else
    reaches the contact. *)
Theorem C4_generation_failure
    (cfg : MessageHandler.Config) (env : MessageHandler.Env)
    (message : MessageHandler.Message) (st : MessageHandler.State) :
  let contact := from (MessageHandler.content message) in
  let text := body (MessageHandler.content message) in
  let cid := Helpers.generateConversationId contact in
  let now := MessageHandler.onReply (MessageHandler.clock env) in
  passesFilters cfg env message st = true ->
  plainMessage (MessageHandler.commandCfg cfg) text = true ->
  mayReply cfg env message st = true ->
  MessageHandler.sendMessageCallback cfg = true ->
  MessageHandler.geminiAI env text (generationContext cfg env message st)
    (generationName env) = ResponseHandler.Thrown ->
  let fallback := ResponseHandler.getFallbackResponse (MessageHandler.random env) in
  let result := MessageHandler.handleMessage cfg env message st in
  fallback ∈ ResponseHandler.fallbacks
  /\ result.2
     = [ MessageHandler.Generate text (generationContext cfg env message st)
           (generationName env);
         MessageHandler.Send contact fallback ]
  /\ MessageHandler.memory result.1
     = addMessage (MessageHandler.memoryCfg cfg) now cid
         (MessageHandler.botMessage now fallback)
         (afterInbound cfg env message st)
  /\ from (MessageHandler.botMessage now fallback) = js "bot"
  /\ body (MessageHandler.botMessage now fallback) = fallback
  /\ (0 <= maxContextMessages (MessageHandler.memoryCfg cfg) ->
      last (retained (MessageHandler.memory result.1) cid)
      = Some {| data := MessageHandler.botMessage now fallback;
                addedAt := now |}).
Proof.
  intros contact text cid now Hp Hplain Hmay Hsend Hthrown fallback result.
  assert (Hres : result
                 = ({| MessageHandler.memory :=
                         addMessage (MessageHandler.memoryCfg cfg) now cid
                           (MessageHandler.botMessage now fallback)
                           (afterInbound cfg env message st);
                       MessageHandler.cooldownMap :=
                         MessageHandler.cooldownMap result.1;
                       MessageHandler.userSettings :=
                         MessageHandler.userSettings result.1 |},
                    [ MessageHandler.Generate text
                        (generationContext cfg env message st)
                        (generationName env);
                      MessageHandler.Send contact fallback ])).
  { subst result. rewrite handleMessage_passed by exact Hp.
    destruct (dispatch_plain_reply cfg env message st Hplain Hmay)
      as (cd1 & us2 & ->).
    rewrite reply_calls. unfold ResponseHandler.generateResponse.
    fold (generationContext cfg env message st). fold text.
    rewrite Hthrown. unfold MessageHandler.sendResponse. rewrite Hsend.
    reflexivity. }
  split; [apply getFallbackResponse_in|].
  rewrite Hres. cbn [fst snd MessageHandler.memory].
  repeat split. intros HM. apply addMessage_last, HM.
Qed.

Lemma C4_witness :
  let env := exampleEnv 1 failingGenerator in
  let message := exampleMessage 1 (js "hello, are you there?") in
  let fallback := ResponseHandler.getFallbackResponse 1 in
  let result :=
    MessageHandler.handleMessage exampleConfig env message initialState in
  fallback ∈ ResponseHandler.fallbacks
  /\ result.2
     = [ MessageHandler.Generate (js "hello, are you there?")
           (generationContext exampleConfig env message initialState)
           (js "Ada");
         MessageHandler.Send exampleContact fallback ]
  /\ MessageHandler.memory result.1
     = addMessage readmeConfig 1700000010900 (js "4915100000")
         (MessageHandler.botMessage 1700000010900 fallback)
         (afterInbound exampleConfig env message initialState)
  /\ from (MessageHandler.botMessage 1700000010900 fallback) = js "bot"
  /\ body (MessageHandler.botMessage 1700000010900 fallback) = fallback
  /\ (0 <= 10 ->
      last (retained (MessageHandler.memory result.1) (js "4915100000"))
      = Some {| data := MessageHandler.botMessage 1700000010900 fallback;
                addedAt := 1700000010900 |}).
Proof.
  apply (C4_generation_failure exampleConfig (exampleEnv 1 failingGenerator)
           (exampleMessage 1 (js "hello, are you there?")) initialState);
    reflexivity.
Defined.




(** ** Key topics *)

Section Sorting.

(** [sortDesc] is a stable sort by descending count. *)

Lemma insertDesc_perm x l : insertDesc x l ≡ₚ x :: l.
Proof.
  induction l as [|y l IH]; simpl; [reflexivity|].
  destruct (x.2 <? y.2)%N; [|reflexivity].
  rewrite IH. apply perm_swap.
Qed.

Lemma sortDesc_perm l : sortDesc l ≡ₚ l.
Proof.
  induction l as [|x l IH]; simpl; [reflexivity|].
  unfold sortDesc in *. simpl. rewrite insertDesc_perm, IH. reflexivity.
Qed.

Lemma insertDesc_sorted x l :
  StronglySorted descending l -> StronglySorted descending (insertDesc x l).
Proof.
  induction 1 as [|y l Hs IH Hall]; simpl.
  - repeat constructor.
  - destruct (N.ltb_spec x.2 y.2).
    + constructor; [exact IH|].
      rewrite insertDesc_perm. constructor; [unfold descending; lia|].
      exact Hall.
    + constructor; [constructor; assumption|].
      constructor; [unfold descending; lia|].
      eapply Forall_impl; [exact Hall|].
      unfold descending. intros z Hz. lia.
Qed.

Lemma sortDesc_sorted l : StronglySorted descending (sortDesc l).
Proof.
  induction l as [|x l IH]; [constructor|].
  apply insertDesc_sorted, IH.
Qed.

Lemma insertDesc_stable n x l :
  StronglySorted descending l ->
  List.filter (fun e => (e.2 =? n)%N) (insertDesc x l)
  = List.filter (fun e => (e.2 =? n)%N) (x :: l).
Proof.
  induction 1 as [|y l Hs IH Hall]; [reflexivity|].
  cbn [insertDesc]. destruct (N.ltb_spec x.2 y.2) as [Hlt|Hge]; [|reflexivity].
  cbn [List.filter] in *. rewrite IH.
  destruct (N.eqb_spec x.2 n) as [Ex|Ex];
    destruct (N.eqb_spec y.2 n) as [Ey|Ey]; try reflexivity.
  lia.
Qed.

(** Entries of equal count keep the order they had. *)
Lemma sortDesc_stable n l :
  List.filter (fun e => (e.2 =? n)%N) (sortDesc l)
  = List.filter (fun e => (e.2 =? n)%N) l.
Proof.
  induction l as [|x l IH]; [reflexivity|].
  change (sortDesc (x :: l)) with (insertDesc x (sortDesc l)).
  rewrite insertDesc_stable by apply sortDesc_sorted.
  cbn [List.filter]. rewrite IH. reflexivity.
Qed.

End Sorting.

Section Enumeration.

Context {V W : Type} (g : V -> W).

Local Abbreviation onValue := (mapValue g).
Local Abbreviation onIndexed := (mapIndexed g).

Lemma insertIndex_map x l :
  insertIndex (onIndexed x) (map onIndexed l)
  = map onIndexed (insertIndex x l).
Proof.
  induction l as [|y l IH]; [reflexivity|]. simpl.
  destruct (x.1 <=? y.1)%N; [reflexivity|]. simpl. rewrite IH. reflexivity.
Qed.

(** [Object.entries] looks at the keys only. *)
Lemma objectEntries_map (obj : JsObject V) :
  objectEntries (map onValue obj) = map onValue (objectEntries obj).
Proof.
  unfold objectEntries. rewrite map_app. f_equal.
  - assert (E : omap (fun e : jsstring * W =>
                        (fun i => (i, e)) <$> arrayIndex e.1)
                  (map onValue obj)
                = map onIndexed
                    (omap (fun e : jsstring * V =>
                             (fun i => (i, e)) <$> arrayIndex e.1) obj)).
    { induction obj as [|e obj IH]; [reflexivity|]. csimpl.
      destruct (arrayIndex e.1); csimpl; rewrite IH; reflexivity. }
    rewrite E. clear E.
    generalize (omap (fun e : jsstring * V =>
                        (fun i => (i, e)) <$> arrayIndex e.1) obj).
    intros l.
    assert (F : foldr insertIndex [] (map onIndexed l)
                = map onIndexed (foldr insertIndex [] l)).
    { induction l as [|x l IH]; [reflexivity|]. simpl.
      rewrite IH. apply insertIndex_map. }
    rewrite F, !map_map. reflexivity.
  - induction obj as [|e obj IH]; [reflexivity|]. simpl.
    destruct (bool_decide (arrayIndex e.1 = None)); simpl; rewrite IH;
      reflexivity.
Qed.

End Enumeration.

(** Without numeral keys the enumeration order is the creation order. *)
Lemma objectEntries_no_numerals {V} (obj : JsObject V) :
  Forall (fun e => arrayIndex e.1 = None) obj -> objectEntries obj = obj.
Proof.
  intros H. unfold objectEntries.
  assert (E : omap (fun e : jsstring * V =>
                      (fun i => (i, e)) <$> arrayIndex e.1) obj = []).
  { induction H as [|e obj He Hall IH]; [reflexivity|]. csimpl.
    rewrite He. csimpl. exact IH. }
  rewrite E. simpl. clear E.
  induction H as [|e obj He Hall IH]; [reflexivity|]. simpl.
  rewrite bool_decide_eq_true_2 by exact He. f_equal. exact IH.
Qed.

Section Counting.

Implicit Types l toks : list jsstring.
Implicit Types w v : jsstring.

Lemma eqb_eq w v : Js.eqb w v = true <-> w = v.
Proof. unfold Js.eqb. apply bool_decide_eq_true. Qed.

Lemma eqb_refl w : Js.eqb w w = true.
Proof. apply eqb_eq. reflexivity. Qed.

Lemma eqb_neq w v : Js.eqb w v = false <-> w <> v.
Proof. unfold Js.eqb. apply bool_decide_eq_false. Qed.

Lemma eqb_sym w v : Js.eqb w v = Js.eqb v w.
Proof.
  destruct (Js.eqb v w) eqn:E.
  - apply eqb_eq. apply eqb_eq in E. congruence.
  - apply eqb_neq. apply eqb_neq in E. congruence.
Qed.

(** *** First occurrences *)

Lemma elem_of_firstOccurrences w l : w ∈ firstOccurrences l <-> w ∈ l.
Proof.
  induction l as [|x l IH]; simpl; [reflexivity|].
  rewrite !elem_of_cons, list_elem_of_In, List.filter_In,
    <- list_elem_of_In, IH, negb_true_iff, eqb_neq.
  destruct (decide (w = x)); tauto.
Qed.

Lemma NoDup_firstOccurrences l : NoDup (firstOccurrences l).
Proof.
  induction l as [|x l IH]; simpl; constructor.
  - rewrite list_elem_of_In, List.filter_In, negb_true_iff, eqb_neq. tauto.
  - apply NoDup_ListNoDup, List.NoDup_filter, NoDup_ListNoDup, IH.
Qed.

Lemma firstOccurrences_snoc l w :
  firstOccurrences (l ++ [w])
  = if bool_decide (w ∈ l) then firstOccurrences l
    else firstOccurrences l ++ [w].
Proof.
  induction l as [|x l IH]; [reflexivity|]. simpl. rewrite IH.
  destruct (decide (w = x)) as [->|Hne].
  - rewrite (bool_decide_eq_true_2 (x ∈ x :: l)) by (left).
    destruct (bool_decide (x ∈ l)); [reflexivity|].
    rewrite List.filter_app. simpl. rewrite eqb_refl. simpl.
    rewrite app_nil_r. reflexivity.
  - destruct (bool_decide (w ∈ l)) eqn:E.
    + apply bool_decide_eq_true in E.
      rewrite bool_decide_eq_true_2 by (right; exact E). reflexivity.
    + apply bool_decide_eq_false in E.
      rewrite bool_decide_eq_false_2
        by (rewrite elem_of_cons; tauto).
      rewrite List.filter_app. simpl.
      replace (Js.eqb w x) with false by (symmetry; apply eqb_neq, Hne).
      reflexivity.
Qed.

Lemma occurrences_snoc v l w :
  occurrences v (l ++ [w])
  = (occurrences v l + if Js.eqb v w then 1 else 0)%N.
Proof.
  unfold occurrences. rewrite List.filter_app, length_app. simpl.
  destruct (Js.eqb v w); simpl; lia.
Qed.

Lemma occurrences_absent w l : w ∉ l -> occurrences w l = 0%N.
Proof.
  intros H. unfold occurrences.
  induction l as [|x l IH]; [reflexivity|]. simpl.
  rewrite not_elem_of_cons in H. destruct H as [Hne Hl].
  replace (Js.eqb w x) with false by (symmetry; apply eqb_neq, Hne).
  apply IH, Hl.
Qed.

(** *** The counting object *)

(** Properties with keys [ks] and numeric values given by [f]. *)
Local Abbreviation tabulate f ks :=
  (map (fun k : jsstring => (k, CNum (f k))) ks).

Lemma numericObject_tabulate (f : jsstring -> N) ks :
  numericObject (map (fun k => (k, f k)) ks) = tabulate f ks.
Proof. unfold numericObject. rewrite map_map. reflexivity. Qed.

Lemma getOwn_tabulate (f : jsstring -> N) w ks :
  getOwn w (tabulate f ks)
  = if bool_decide (w ∈ ks) then Some (CNum (f w)) else None.
Proof.
  induction ks as [|k ks IH]; [reflexivity|]. simpl.
  destruct (Js.eqb k w) eqn:E.
  - apply eqb_eq in E. subst k.
    rewrite bool_decide_eq_true_2 by left. reflexivity.
  - apply eqb_neq in E. rewrite IH.
    destruct (bool_decide (w ∈ ks)) eqn:E'.
    + apply bool_decide_eq_true in E'.
      rewrite bool_decide_eq_true_2 by (right; exact E'). reflexivity.
    + apply bool_decide_eq_false in E'.
      rewrite bool_decide_eq_false_2; [reflexivity|].
      rewrite elem_of_cons. intros [->|]; tauto.
Qed.

Lemma setOwn_absent (f : jsstring -> N) w n ks :
  w ∉ ks ->
  setOwn w (CNum n) (tabulate f ks) = tabulate f ks ++ [(w, CNum n)].
Proof.
  induction ks as [|k ks IH]; intros H; [reflexivity|]. simpl.
  rewrite not_elem_of_cons in H. destruct H as [Hne Hks].
  replace (Js.eqb k w) with false by (symmetry; apply eqb_neq; congruence).
  rewrite IH by exact Hks. reflexivity.
Qed.

Lemma setOwn_present (f f' : jsstring -> N) w ks :
  NoDup ks -> w ∈ ks ->
  (forall k, k <> w -> f' k = f k) ->
  setOwn w (CNum (f' w)) (tabulate f ks) = tabulate f' ks.
Proof.
  intros Hnd Hin Hf. induction Hnd as [|k ks Hk Hnd IH]; simpl.
  - inversion Hin.
  - destruct (Js.eqb k w) eqn:E.
    + apply eqb_eq in E. subst k. f_equal.
      clear IH Hin. induction ks as [|k ks IH]; [reflexivity|]. simpl.
      rewrite not_elem_of_cons in Hk. destruct Hk as [Hne Hk].
      inversion Hnd; subst.
      rewrite (Hf k) by congruence. f_equal. apply IH; assumption.
    + apply eqb_neq in E.
      rewrite (Hf k) by exact E. f_equal. apply IH.
      rewrite elem_of_cons in Hin. destruct Hin as [->|]; tauto.
Qed.

(** Counting token after token builds the table of frequencies, as long
    as [constructor] is not among the tokens. *)
Lemma fold_bump_frequencies toks :
  js "constructor" ∉ counted toks ->
  fold_left bump toks [] = numericObject (frequencies (counted toks)).
Proof.
  induction toks as [|w toks IH] using rev_ind; intros Hc; [reflexivity|].
  unfold counted in *. rewrite List.filter_app in *. rewrite fold_left_app.
  cbn [fold_left List.filter] in *.
  rewrite not_elem_of_app in Hc. destruct Hc as [Hc Hw].
  rewrite IH by exact Hc. clear IH.
  set (l := List.filter _ toks) in *.
  unfold bump, frequencies. rewrite !numericObject_tabulate.
  rewrite getOwn_tabulate.
  destruct (Js.eqb w (js "__proto__")) eqn:Ep; cbn [negb] in *.
  - (* [__proto__]: never in the object, and ignored *)
    rewrite app_nil_r.
    rewrite bool_decide_eq_false_2; [reflexivity|].
    rewrite elem_of_firstOccurrences. subst l.
    rewrite list_elem_of_In, List.filter_In, Ep. simpl. intros [_ ?].
    discriminate.
  - assert (Hcons : Js.eqb w (js "constructor") = false).
    { apply eqb_neq. intros ->. apply Hw. left. }
    rewrite Hcons, firstOccurrences_snoc.
    destruct (bool_decide (w ∈ firstOccurrences l)) eqn:Ein.
    + apply bool_decide_eq_true in Ein.
      rewrite bool_decide_eq_true_2
        by (apply elem_of_firstOccurrences, Ein).
      replace (occurrences w l + 1)%N with (occurrences w (l ++ [w]))
        by (rewrite occurrences_snoc, eqb_refl; reflexivity).
      apply (setOwn_present (fun k => occurrences k l)
               (fun k => occurrences k (l ++ [w])));
        [apply NoDup_firstOccurrences | exact Ein |].
      intros k Hk. rewrite occurrences_snoc.
      replace (Js.eqb k w) with false by (symmetry; apply eqb_neq, Hk).
      lia.
    + apply bool_decide_eq_false in Ein.
      rewrite bool_decide_eq_false_2
        by (rewrite <- elem_of_firstOccurrences; exact Ein).
      rewrite setOwn_absent by exact Ein.
      rewrite map_app. simpl.
      rewrite occurrences_snoc, eqb_refl.
      rewrite occurrences_absent
        by (rewrite <- elem_of_firstOccurrences; exact Ein).
      f_equal. apply map_ext_in. intros k Hk.
      rewrite occurrences_snoc.
      replace (Js.eqb k w) with false; [do 2 f_equal; lia|].
      symmetry. apply eqb_neq. intros ->. apply Ein.
      apply list_elem_of_In, Hk.
Qed.

Lemma countWords_tokens msgs :
  countWords (map (fun m => body (data m)) msgs)
  = fold_left bump (tokens msgs) [].
Proof.
  unfold countWords, tokens. generalize (@nil (jsstring * CountVal)).
  induction msgs as [|m msgs IH]; intros obj; [reflexivity|]. simpl.
  rewrite fold_left_app, IH. f_equal.
  destruct (body (data m)); reflexivity.
Qed.

Lemma mapM_numericEntry (es : list (jsstring * N)) :
  mapM numericEntry (numericObject es) = Some es.
Proof.
  induction es as [|[w n] es IH]; [reflexivity|]. unfold numericObject in *.
  simpl. rewrite IH. reflexivity.
Qed.

(** [extractKeyTopics], in terms of the frequencies of the tokens. *)
Lemma extractKeyTopics_enumeration msgs :
  js "constructor" ∉ counted (tokens msgs) ->
  extractKeyTopics msgs
  = Some (topicsByEnumeration (counted (tokens msgs))).
Proof.
  intros Hc. unfold extractKeyTopics, topicsByEnumeration.
  rewrite countWords_tokens, fold_bump_frequencies by exact Hc.
  unfold numericObject. rewrite objectEntries_map.
  fold (numericObject (objectEntries (frequencies (counted (tokens msgs))))).
  rewrite mapM_numericEntry. reflexivity.
Qed.

Lemma frequencies_keys l : map fst (frequencies l) = firstOccurrences l.
Proof.
  unfold frequencies. rewrite map_map. simpl. apply map_id.
Qed.

Lemma topics_agree l :
  Forall (fun w => arrayIndex w = None) l ->
  topicsByEnumeration l = topicsByFirstOccurrence l.
Proof.
  intros H. unfold topicsByEnumeration, topicsByFirstOccurrence.
  rewrite objectEntries_no_numerals; [reflexivity|].
  unfold frequencies. rewrite Forall_map. simpl.
  rewrite Forall_forall in *. intros w Hw. apply H.
  apply elem_of_firstOccurrences, Hw.
Qed.

Lemma topicsByEnumeration_length l :
  (length (topicsByEnumeration l) <= 10)%nat.
Proof.
  unfold topicsByEnumeration. rewrite length_map, length_take. lia.
Qed.

End Counting.

Section Tokens.

Lemma lowerUnit_units c :
  Forall (fun u => isWord u || isSpace u = true -> tokenUnit u || isSpace u = true)
    (lowerUnit c).
Proof.
  unfold lowerUnit. destruct (isUpper c) eqn:Hu.
  - repeat constructor. intros _. unfold isUpper in Hu.
    apply andb_true_iff in Hu as [H1 H2].
    apply N.leb_le in H1. apply N.leb_le in H2.
    unfold tokenUnit, isWord, isLower, isUpper.
    replace (97 <=? c + 32)%N with true by (symmetry; apply N.leb_le; lia).
    replace (c + 32 <=? 122)%N with true by (symmetry; apply N.leb_le; lia).
    replace (c + 32 <=? 90)%N with false by (symmetry; apply N.leb_gt; lia).
    rewrite andb_false_r. simpl. rewrite !orb_true_r. reflexivity.
  - destruct (c =? 304)%N; [repeat constructor; vm_compute; auto|].
    destruct (c =? 8490)%N; [repeat constructor; vm_compute; auto|].
    repeat constructor. unfold tokenUnit. rewrite Hu.
    rewrite andb_true_r. auto.
Qed.

Lemma splitWs_units (P : N -> Prop) s : forall inws cur,
  Forall P cur ->
  Forall (fun c => isSpace c = false -> P c) s ->
  Forall (Forall P) (splitWs inws cur s).
Proof.
  induction s as [|c s IH]; intros inws cur Hcur Hs; simpl.
  - repeat constructor. exact Hcur.
  - inversion Hs as [|? ? Hc Hs']; subst.
    destruct (isSpace c) eqn:E.
    + destruct inws.
      * apply IH; assumption.
      * constructor; [exact Hcur|]. apply IH; [constructor | assumption].
    + apply IH; [|assumption]. apply Forall_app. split; [exact Hcur|].
      repeat constructor. apply Hc. reflexivity.
Qed.

(** Every token is longer than two units, is no stop word, and consists
    of lower-case letters, digits and underscores. *)
Lemma words_tokens b :
  Forall (fun w => (2 < length w)%nat /\ isStopWord w = false
                   /\ Forall (fun c => tokenUnit c = true) w)
    (words b).
Proof.
  unfold words. apply Forall_forall. intros w Hw.
  apply list_elem_of_In, List.filter_In in Hw. destruct Hw as [Hin Hw].
  apply andb_true_iff in Hw as [Hlen Hstop].
  apply Nat.ltb_lt in Hlen. apply negb_true_iff in Hstop.
  split; [exact Hlen|]. split; [exact Hstop|]. clear Hlen Hstop.
  revert w Hin. apply List.Forall_forall.
  apply splitWs_units; [constructor|].
  apply List.Forall_forall. intros c Hc.
  apply List.filter_In in Hc. destruct Hc as [Hc Hkeep].
  unfold toLowerCase in Hc. apply List.in_concat in Hc.
  destruct Hc as (us & Hus & Hc). apply List.in_map_iff in Hus.
  destruct Hus as (c0 & <- & _).
  pose proof (lowerUnit_units c0) as Hl. rewrite Forall_forall in Hl.
  specialize (Hl c (proj2 (list_elem_of_In _ _) Hc) Hkeep).
  intros Hns. rewrite Hns, orb_false_r in Hl. exact Hl.
Qed.

Lemma tokens_units msgs :
  Forall (fun w => (2 < length w)%nat /\ isStopWord w = false
                   /\ Forall (fun c => tokenUnit c = true) w)
    (tokens msgs).
Proof.
  unfold tokens. induction msgs as [|m msgs IH]; [constructor|]. simpl.
  apply Forall_app. split; [apply words_tokens | exact IH].
Qed.

End Tokens.

(** Claim C8, as the code has it.  When an append reaches the threshold,
    the summary it stores has its [keyTopics] computed from the summarized
    messages only (the older part [slice(0, -maxContextMessages)] of the
    list): their bodies are lower-cased, stripped of every unit that is
    neither a word character nor white space, split at white space, and
    the stop words and the tokens of at most two units dropped; the
    tokens are counted, and the topics are the 10 most frequent ones (so
    at most 10), ties in the enumeration order of the counting object:
    decimal numerals first in ascending order, then first-occurrence
    order.  Without numeral tokens, ties are in first-occurrence order.
    (The token [__proto__] is never counted, and the statement leaves out
    messages with the token [constructor].) *)
Theorem C8_key_topics
    (cfg : ConversationMemory.Config) (cid : jsstring) (now : Z)
    (m : MessageData) (st : Memory) :
  let older := slice (pushed cid now m st) 0 (Some (- maxContextMessages cfg)) in
  let toks := counted (tokens older) in
  reachesThreshold cfg cid st = true ->
  js "constructor" ∉ toks ->
  exists s,
    summaries (addMessage cfg now cid m st) !! cid = Some s
    /\ keyTopics s = extractKeyTopics older
    /\ keyTopics s = Some (topicsByEnumeration toks)
    /\ (length (topicsByEnumeration toks) <= 10)%nat
    /\ (Forall (fun w => arrayIndex w = None) toks ->
        keyTopics s = Some (topicsByFirstOccurrence toks))
    /\ Forall (fun w => (2 < length w)%nat /\ isStopWord w = false
                        /\ Forall (fun c => tokenUnit c = true) w) toks.
Proof.
  intros older toks Hreach Hc.
  rewrite (reachesThreshold_pushed cfg cid now m) in Hreach.
  eexists. split; [rewrite addMessage_summary, Hreach; reflexivity|].
  cbn [keyTopics]. fold older.
  pose proof (extractKeyTopics_enumeration older Hc) as E. fold toks in E.
  split; [reflexivity|]. split; [exact E|].
  split; [apply topicsByEnumeration_length|]. split.
  - intros Hn. rewrite E, topics_agree by exact Hn. reflexivity.
  - subst toks. unfold counted.
    pose proof (tokens_units older) as H. rewrite Forall_forall in *.
    intros w Hw. apply H.
    apply list_elem_of_In, List.filter_In in Hw. apply list_elem_of_In, Hw.
Qed.

Lemma C8_witness :
  let cid := js "4915100000" in
  let st :=
    addMessage smallConfig 1700000000000 cid
      (data (storedText "Project kickoff 2024: budget and Budget review"))
      empty in
  let older := [storedText "Project kickoff 2024: budget and Budget review"] in
  let toks := map js ["project"; "kickoff"; "2024"; "budget"; "budget";
                      "review"]%string in
  exists s,
    summaries (addMessage smallConfig 1700000060000 cid
                 (data (storedText "thanks")) st) !! cid = Some s
    /\ keyTopics s = extractKeyTopics older
    /\ keyTopics s = Some (topicsByEnumeration toks)
    /\ (length (topicsByEnumeration toks) <= 10)%nat
    /\ (Forall (fun w => arrayIndex w = None) toks ->
        keyTopics s = Some (topicsByFirstOccurrence toks))
    /\ Forall (fun w => (2 < length w)%nat /\ isStopWord w = false
                        /\ Forall (fun c => tokenUnit c = true) w) toks.
Proof.
  intros cid st older toks.
  apply (C8_key_topics smallConfig cid 1700000060000
           (data (storedText "thanks")) st).
  - reflexivity.
  - apply (proj1 (bool_decide_eq_false _)). vm_compute. reflexivity.
Defined.

(** Claim C8 fails as stated.  The summarized message "see you at 2024
    hello" has the tokens [see], [2024], [hello], once each; in
    first-occurrence order the topics would be [see; 2024; hello], but the
    summary lists the numeral first. *)
Lemma C8_counterexample :
  let cid := js "4915100000" in
  let st :=
    addMessages smallConfig cid
      [ (1700000000000, data (storedText "see you at 2024 hello"));
        (1700000060000, data (storedText "bye")) ] empty in
  let older := [storedText "see you at 2024 hello"] in
  tokens older = map js ["see"; "2024"; "hello"]%string
  /\ topicsByFirstOccurrence (counted (tokens older))
     = map js ["see"; "2024"; "hello"]%string
  /\ (keyTopics <$> summaries st !! cid)
     = Some (Some (map js ["2024"; "see"; "hello"]%string))
  /\ (keyTopics <$> summaries st !! cid)
     <> Some (Some (topicsByFirstOccurrence (counted (tokens older)))).
Proof.
  vm_compute. repeat split; congruence.
Qed.

(** ** Post-processing of a generated text *)

Section Replace.

Import ResponseHandler.

(** A replacement only deletes. *)
Lemma replaceAll_sublist (m : Matcher) s : forall st,
  replaceAll m st s `sublist_of` s.
Proof.
  induction s as [|c s IH]; intros st; [reflexivity|]. cbn [replaceAll].
  match goal with
  | |- (match ?x with _ => _ end) `sublist_of` _ =>
      destruct x as [[[|a] [|b]] [|d]]
  end;
    first [ apply sublist_skip; constructor; apply IH
          | apply sublist_cons, IH
          | apply sublist_skip, IH
          | constructor; apply IH ].
Qed.

Lemma replaceAll_length (m : Matcher) s st :
  (length (replaceAll m st s) <= length s)%nat.
Proof. apply sublist_length, replaceAll_sublist. Qed.

Lemma backticks_sublist s t : s `sublist_of` t -> (backticks s <= backticks t)%nat.
Proof.
  unfold backticks. induction 1 as [|x s t H IH|x s t H IH]; simpl.
  - lia.
  - destruct (x =? backtick)%N; simpl; lia.
  - destruct (x =? backtick)%N; simpl; lia.
Qed.

(** While a deletion is under way the scan just moves on. *)
Lemma replaceAll_deleting (m : Matcher) a : forall s,
  replaceAll m (a, O, O) s = replaceAll m idle (drop a s).
Proof.
  induction a as [|a IH]; intros s; [rewrite drop_0; reflexivity|].
  destruct s as [|c s]; [reflexivity|]. cbn [replaceAll drop]. apply IH.
Qed.

Lemma indexOf_none_backticks s :
  indexOf [backtick] s = None -> backticks s = O.
Proof.
  unfold backticks. induction s as [|c s IH]; [reflexivity|].
  cbn [indexOf startsWith List.filter].
  rewrite N.eqb_sym. destruct (c =? backtick)%N; cbn [andb].
  - destruct s; discriminate.
  - destruct (indexOf [backtick] s); [discriminate|]. intros _.
    apply IH. reflexivity.
Qed.

Lemma replaceAll_idle_cons (m : Matcher) c s :
  replaceAll m idle (c :: s)
  = match m (c :: s) with
    | Some (S a, b, d) => replaceAll m (a, b, d) s
    | Some (O, S b, d) => c :: replaceAll m (O, b, d) s
    | Some (O, O, S d) => replaceAll m (O, O, d) s
    | Some (O, O, O) | None => c :: replaceAll m idle s
    end.
Proof.
  cbn [replaceAll]. unfold idle.
  destruct (m (c :: s)) as [[[[|a] [|b]] [|d]]|]; reflexivity.
Qed.

(** After the inline-code pass at most one back-tick is left. *)
Lemma inlineCode_backticks n : forall s,
  (length s <= n)%nat ->
  (backticks (replaceAll inlineCode idle s) <= 1)%nat.
Proof.
  induction n as [|n IH]; intros s Hn.
  - destruct s; [unfold backticks; simpl; lia | simpl in Hn; lia].
  - destruct s as [|c s]; [unfold backticks; simpl; lia|].
    simpl in Hn. rewrite replaceAll_idle_cons. unfold inlineCode.
    destruct (c =? backtick)%N eqn:Ec.
    + destruct (indexOf [backtick] s) as [k|] eqn:Ek.
      * change ((fun k0 : nat => (1 + k0 + 1, 0, 0)%nat) <$> Some k)
          with (Some (S (k + 1), O, O)).
        cbv iota beta. rewrite replaceAll_deleting. apply IH.
        rewrite length_drop. lia.
      * change ((fun k0 : nat => (1 + k0 + 1, 0, 0)%nat) <$> None)
          with (@None (nat * nat * nat)).
        cbv iota beta. unfold backticks. cbn [List.filter]. rewrite Ec.
        cbn [length].
        pose proof (backticks_sublist _ _
                      (replaceAll_sublist inlineCode s idle)) as H.
        rewrite (indexOf_none_backticks s Ek) in H.
        unfold backticks, inlineCode in H. lia.
    + unfold backticks. cbn [List.filter]. rewrite Ec.
      apply (IH s). lia.
Qed.

Lemma stripMarkup_sublist s : stripMarkup s `sublist_of` s.
Proof.
  unfold stripMarkup.
  repeat (etrans; [apply replaceAll_sublist|]). reflexivity.
Qed.

(** Code blocks and inline code are gone: at most one back-tick is left. *)
Lemma stripMarkup_backticks s : (backticks (stripMarkup s) <= 1)%nat.
Proof.
  unfold stripMarkup.
  etrans;
    [ apply backticks_sublist
    | apply (inlineCode_backticks _ (replaceAll codeBlock idle s)
               (Nat.le_refl _)) ].
  do 3 (etrans; [apply replaceAll_sublist|]). reflexivity.
Qed.

Lemma withEllipsis_length maxLen s :
  3 <= maxLen -> Z.of_nat (length (withEllipsis maxLen s)) <= maxLen.
Proof.
  intros H. unfold withEllipsis.
  destruct (Z.leb_spec (Z.of_nat (length s)) maxLen); [assumption|].
  rewrite length_app, length_take. simpl. lia.
Qed.

(** The truncation of the code is the truncation of the document. *)
Lemma truncation_withEllipsis maxLen s :
  (if maxLen <? Z.of_nat (length s)
   then substring0 s (maxLen - 3) ++ js "..." else s)
  = withEllipsis maxLen s.
Proof.
  unfold withEllipsis, substring0.
  destruct (Z.ltb_spec maxLen (Z.of_nat (length s)));
    destruct (Z.leb_spec (Z.of_nat (length s)) maxLen); try lia;
    [|reflexivity].
  f_equal. f_equal. lia.
Qed.

Lemma cleanResponse_withEllipsis maxLen rnd raw :
  cleanResponse maxLen rnd raw
  = if bool_decide (raw = [])
       || (length (withEllipsis maxLen (stripMarkup (trim raw))) <? 3)%nat
    then getFallbackResponse rnd
    else withEllipsis maxLen (stripMarkup (trim raw)).
Proof.
  unfold cleanResponse. destruct raw as [|c raw]; [reflexivity|].
  rewrite truncation_withEllipsis.
  rewrite bool_decide_eq_false_2 by discriminate. reflexivity.
Qed.

End Replace.

(** Claim C6, as the code has it.  For every raw generation result,
    post-processing trims it, strips markup in one pass per kind (code
    blocks, inline code, bold, italics, headers: units are only deleted,
    and at most one back-tick is left), and cuts a stripped text longer
    than [maxResponseLength] to its first [maxResponseLength - 3] units
    followed by "..."; so for [maxResponseLength >= 3] a text that is not
    a fallback never exceeds [maxResponseLength].  A raw result that is
    empty, or shorter than 3 units after these steps, is replaced by one of
    the fixed fallback texts, which is not shortened.  The generation
    engine's own cut obeys the same bound. *)
Theorem C6_post_processing (maxLen : Z) (rnd : nat) (raw : jsstring) :
  let stripped := ResponseHandler.stripMarkup (trim raw) in
  let shown := withEllipsis maxLen stripped in
  let out := ResponseHandler.cleanResponse maxLen rnd raw in
  out = (if bool_decide (raw = []) || (length shown <? 3)%nat
         then ResponseHandler.getFallbackResponse rnd else shown)
  /\ ResponseHandler.getFallbackResponse rnd ∈ ResponseHandler.fallbacks
  /\ stripped `sublist_of` trim raw
  /\ (backticks stripped <= 1)%nat
  /\ (3 <= maxLen -> Z.of_nat (length shown) <= maxLen)
  /\ (3 <= maxLen -> out ∉ ResponseHandler.fallbacks ->
      Z.of_nat (length out) <= maxLen)
  /\ (3 <= maxLen ->
      Z.of_nat (length (GeminiAI.finalResponse maxLen raw)) <= maxLen).
Proof.
  intros stripped shown out.
  assert (Hout : out = (if bool_decide (raw = []) || (length shown <? 3)%nat
                        then ResponseHandler.getFallbackResponse rnd
                        else shown))
    by apply cleanResponse_withEllipsis.
  split; [exact Hout|]. split; [apply getFallbackResponse_in|].
  split; [apply stripMarkup_sublist|].
  split; [apply stripMarkup_backticks|].
  split; [apply withEllipsis_length|]. split.
  - intros Hmax Hnot. rewrite Hout in *.
    destruct (bool_decide (raw = []) || (length shown <? 3)%nat).
    + exfalso. apply Hnot, getFallbackResponse_in.
    + apply withEllipsis_length, Hmax.
  - intros Hmax. unfold GeminiAI.finalResponse.
    rewrite truncation_withEllipsis. apply withEllipsis_length, Hmax.
Qed.

(** Claim C6 fails as stated.  With the maximum of 100 units of the
    README's example, the too-short result "ok" is replaced by a fallback
    text of 103 units, and that is the text the pipeline hands to send. *)
Lemma C6_counterexample :
  let gen : ResponseHandler.Generator :=
    fun _ _ _ => ResponseHandler.Returned (js "ok") in
  let out := ResponseHandler.cleanResponse 100 1 (js "ok") in
  length out = 103%nat
  /\ ~ (Z.of_nat (length out)
        <= CommandHandler.maxResponseLength exampleCommands)
  /\ (MessageHandler.handleMessage exampleConfig (exampleEnv 1 gen)
        (exampleMessage 1 (js "hello")) initialState).2
     = [ MessageHandler.Generate (js "hello")
           (generationContext exampleConfig (exampleEnv 1 gen)
              (exampleMessage 1 (js "hello")) initialState) (js "Ada");
         MessageHandler.Send exampleContact out ].
Proof.
  vm_compute. repeat split; congruence.
Qed.

Lemma C6_witness :
  let raw := js "  Here is **bold** text, `code` and a long tail of words  " in
  let out := ResponseHandler.cleanResponse 20 0 raw in
  out = js "Here is bold text..." /\ Z.of_nat (length out) <= 20.
Proof.
  intros raw out.
  destruct (C6_post_processing 20 0 raw) as (Hout & _ & _ & _ & _ & Hbound & _).
  split.
  - subst out. rewrite Hout. vm_compute. reflexivity.
  - apply Hbound; [lia|].
    apply (proj1 (bool_decide_eq_false _)). vm_compute. reflexivity.
Defined.

(** ** A failure inside [GeminiAI]

    [GeminiAI.generateResponse] catches the failures of the API itself and
    returns one of its own four texts, which then passes through
    [cleanResponse] like any generated text.  The texts are free of
    markup, so they come out as they are when [maxResponseLength] is at
    least 103, the length of the longest; below that they are cut. *)

Lemma gemini_fallbacks_plain :
  Forall (fun s => ResponseHandler.stripMarkup (trim s) = s
                   /\ s ∈ ResponseHandler.fallbacks
                   /\ (3 <= length s <= 103)%nat)
    GeminiAI.fallbacks.
Proof.
  repeat constructor; try (vm_compute; reflexivity); try (vm_compute; lia);
    apply (proj1 (bool_decide_eq_true _)); vm_compute; reflexivity.
Qed.

Lemma gemini_getFallbackResponse_in rnd :
  GeminiAI.getFallbackResponse rnd ∈ GeminiAI.fallbacks.
Proof.
  unfold GeminiAI.getFallbackResponse.
  destruct (lookup_lt_is_Some_2 GeminiAI.fallbacks
              (rnd mod length GeminiAI.fallbacks)%nat) as [x Hx].
  - apply Nat.mod_upper_bound. discriminate.
  - rewrite Hx. simpl. apply list_elem_of_lookup. eauto.
Qed.

Lemma gemini_failure_post_processed (maxLen : Z) (rnd rnd' : nat) :
  103 <= maxLen ->
  let text := GeminiAI.generateResponse GeminiAI.Failed maxLen rnd' in
  ResponseHandler.cleanResponse maxLen rnd text = text
  /\ text ∈ ResponseHandler.fallbacks.
Proof.
  intros Hmax text. subst text. cbn [GeminiAI.generateResponse].
  pose proof gemini_fallbacks_plain as H. rewrite Forall_forall in H.
  destruct (H _ (gemini_getFallbackResponse_in rnd')) as (Hplain & Hin & Hlen).
  split; [|exact Hin].
  rewrite cleanResponse_withEllipsis, Hplain. unfold withEllipsis.
  destruct (GeminiAI.getFallbackResponse rnd') as [|c s] eqn:E;
    [simpl in Hlen; lia|].
  rewrite bool_decide_eq_false_2 by discriminate.
  destruct (Z.leb_spec (Z.of_nat (length (c :: s))) maxLen); [|lia].
  destruct (Nat.ltb_spec (length (c :: s)) 3); [lia | reflexivity].
Qed.

Lemma gemini_failure_cut :
  let text := GeminiAI.generateResponse GeminiAI.Failed 100 1 in
  length text = 103%nat
  /\ ResponseHandler.cleanResponse 100 0 text = take 97 text ++ js "..."
  /\ ResponseHandler.cleanResponse 100 0 text ∉ ResponseHandler.fallbacks.
Proof.
  repeat split; try (vm_compute; reflexivity).
  apply (proj1 (bool_decide_eq_false _)). vm_compute. reflexivity.
Qed.

(** * Further properties of the code *)

(** ** Conversation memory: appending, compaction, clean-up *)

(** Property X1.  Appending keeps the order and loses nothing: the list
    right after the push is the evicted messages followed by the retained
    ones. Without compaction nothing is evicted and the summary stays; with
    it, the new summary counts the evicted messages and spans the timestamps
    of the first and the last of them. *)
Theorem addMessage_partitions_the_history
    (cfg : ConversationMemory.Config) (cid : jsstring) (now : Z)
    (m : MessageData) (st : Memory) :
  let st' := addMessage cfg now cid m st in
  exists older,
    pushed cid now m st = older ++ retained st' cid
    /\ (reachesThreshold cfg cid st = false ->
        older = [] /\ summaries st' !! cid = summaries st !! cid)
    /\ (reachesThreshold cfg cid st = true ->
        exists s,
          summaries st' !! cid = Some s
          /\ conversationId s = cid
          /\ messageCount s = Z.of_nat (length older)
          /\ timeRange_start s = (fun x => timestamp (data x)) <$> head older
          /\ timeRange_end s = (fun x => timestamp (data x)) <$> last older).
Proof.
  intros st'. subst st'.
  rewrite (reachesThreshold_pushed cfg cid now m).
  destruct (summarizationThreshold cfg <=? Z.of_nat (length (pushed cid now m st)))
    eqn:HT.
  - exists (slice (pushed cid now m st) 0 (Some (- maxContextMessages cfg))).
    rewrite addMessage_retained, HT. split; [|split].
    + symmetry. apply slice_split.
    + discriminate.
    + intros _. eexists. rewrite addMessage_summary, HT.
      split; [reflexivity|]. repeat split.
  - exists []. rewrite addMessage_retained, HT. split; [|split].
    + reflexivity.
    + intros _. split; [reflexivity|]. rewrite addMessage_summary, HT.
      reflexivity.
    + discriminate.
Qed.

Section MemoryIsolation.

Variable cfg : ConversationMemory.Config.

Lemma summarizeConversation_other now cid cid' st :
  cid' <> cid ->
  conversations (summarizeConversation cfg now cid st) !! cid'
    = conversations st !! cid'
  /\ summaries (summarizeConversation cfg now cid st) !! cid'
     = summaries st !! cid'.
Proof.
  intros Hne. unfold summarizeConversation.
  destruct (conversations st !! cid); [|auto].
  destruct (_ <? _); [auto|]. simpl.
  rewrite !lookup_insert_ne by congruence. auto.
Qed.

Lemma addMessage_other now cid cid' m st :
  cid' <> cid ->
  conversations (addMessage cfg now cid m st) !! cid'
    = conversations st !! cid'
  /\ summaries (addMessage cfg now cid m st) !! cid' = summaries st !! cid'.
Proof.
  intros Hne. unfold addMessage.
  destruct (_ <=? _).
  - match goal with
    | |- context [summarizeConversation cfg now cid ?s] =>
        destruct (summarizeConversation_other now cid cid' s Hne) as [H1 H2]
    end.
    rewrite H1, H2. simpl. rewrite lookup_insert_ne by congruence. auto.
  - simpl. rewrite lookup_insert_ne by congruence. auto.
Qed.

(** Reading a conversation that is there. *)
Lemma getConversationContext_present cid maxMessages st :
  is_Some (conversations st !! cid) ->
  0 < effectiveLimit cfg maxMessages ->
  (getConversationContext cfg cid maxMessages st).1
  = {| ctx_messages :=
         lastN (Z.to_nat (effectiveLimit cfg maxMessages)) (retained st cid);
       ctx_summary := currentSummary st cid;
       totalMessages := Some (Z.of_nat (length (retained st cid))) |}.
Proof.
  intros [c Hc] Hlimit.
  unfold getConversationContext, retained, currentSummary. rewrite Hc.
  cbn [fst]. f_equal.
  replace (match maxMessages with
           | Some n => if n =? 0 then maxContextMessages cfg else n
           | None => maxContextMessages cfg
           end) with (effectiveLimit cfg maxMessages)
    by (unfold effectiveLimit; destruct maxMessages as [[| |]|]; reflexivity).
  apply slice_last, Hlimit.
Qed.

(** The record of the conversation after an append. *)
Lemma addMessage_record now cid m st :
  exists c,
    conversations (addMessage cfg now cid m st) !! cid = Some c
    /\ conv_id c = default cid (conv_id <$> conversations st !! cid)
    /\ createdAt c = default now (createdAt <$> conversations st !! cid)
    /\ updatedAt c = now.
Proof.
  unfold addMessage, summarizeConversation. simpl.
  destruct (_ <=? _); simpl.
  - rewrite lookup_insert_eq. simpl. destruct (_ <? _); simpl;
      rewrite lookup_insert_eq; eexists; (split; [reflexivity|]);
      destruct (conversations st !! cid); simpl; auto.
  - rewrite lookup_insert_eq. eexists. split; [reflexivity|].
    destruct (conversations st !! cid); simpl; auto.
Qed.

End MemoryIsolation.

(** Property X2.  An append touches one conversation: every other
    conversation and every other summary is as it was. *)
Theorem addMessage_leaves_other_conversations
    (cfg : ConversationMemory.Config) (cid cid' : jsstring) (now : Z)
    (m : MessageData) (st : Memory) :
  cid' <> cid ->
  conversations (addMessage cfg now cid m st) !! cid'
    = conversations st !! cid'
  /\ summaries (addMessage cfg now cid m st) !! cid' = summaries st !! cid'
  /\ retained (addMessage cfg now cid m st) cid' = retained st cid'.
Proof.
  intros Hne. destruct (addMessage_other cfg now cid cid' m st Hne) as [H1 H2].
  repeat split; [exact H1 | exact H2 |]. unfold retained. rewrite H1.
  reflexivity.
Qed.

Lemma addMessage_leaves_other_conversations_witness :
  let st := addMessages readmeConfig (js "4915100000") (testRun 20) empty in
  let st' :=
    addMessage readmeConfig 1700000090000 (js "4915111111")
      (testMessage 1).2 st in
  conversations st' !! js "4915100000" = conversations st !! js "4915100000"
  /\ summaries st' !! js "4915100000" = summaries st !! js "4915100000"
  /\ retained st' (js "4915100000") = retained st (js "4915100000").
Proof.
  intros st st'.
  apply (addMessage_leaves_other_conversations readmeConfig
           (js "4915111111") (js "4915100000") 1700000090000
           (testMessage 1).2 st).
  vm_compute. discriminate.
Defined.

(** Property X3.  What was appended can be read back: with
    [maxContextMessages >= 0] and a positive effective limit, the context
    read right after an append ends with the appended message; the
    conversation then bears the append's time as [updatedAt] and keeps the
    [createdAt] it had (the append's time if it is new). *)
Theorem context_after_append
    (cfg : ConversationMemory.Config) (cid : jsstring) (now : Z)
    (m : MessageData) (maxMessages : option Z) (st : Memory) :
  0 <= maxContextMessages cfg ->
  0 < effectiveLimit cfg maxMessages ->
  let st' := addMessage cfg now cid m st in
  let ctx := (getConversationContext cfg cid maxMessages st').1 in
  last (ctx_messages ctx) = Some {| data := m; addedAt := now |}
  /\ (exists n, totalMessages ctx = Some n /\ 1 <= n)
  /\ exists c,
       conversations st' !! cid = Some c
       /\ updatedAt c = now
       /\ createdAt c = default now (createdAt <$> conversations st !! cid).
Proof.
  intros HM Hlimit st' ctx.
  destruct (addMessage_record cfg now cid m st) as (c & Hc & _ & Hcr & Hup).
  fold st' in Hc.
  pose proof (addMessage_last cfg now cid m st HM) as Hlast. fold st' in Hlast.
  subst ctx. rewrite getConversationContext_present by eauto.
  cbn [ctx_messages totalMessages].
  destruct (retained st' cid) as [|x l] eqn:E using rev_ind;
    [discriminate Hlast|]. clear IHl.
  rewrite last_snoc in Hlast. split; [|split].
  - rewrite <- Hlast. apply lastN_app_last. lia.
  - eexists. split; [reflexivity|]. rewrite length_app. simpl. lia.
  - exists c. auto.
Qed.

Lemma context_after_append_witness :
  let st := addMessages readmeConfig (js "4915100000") (testRun 19) empty in
  let st' :=
    addMessage readmeConfig 1700000090000 (js "4915100000")
      (testMessage 20).2 st in
  let ctx := (getConversationContext readmeConfig (js "4915100000") None st').1 in
  last (ctx_messages ctx)
  = Some {| data := (testMessage 20).2; addedAt := 1700000090000 |}
  /\ (exists n, totalMessages ctx = Some n /\ 1 <= n)
  /\ exists c,
       conversations st' !! js "4915100000" = Some c
       /\ updatedAt c = 1700000090000
       /\ createdAt c
          = default 1700000090000
              (createdAt <$> conversations st !! js "4915100000").
Proof.
  intros st.
  apply (context_after_append readmeConfig (js "4915100000") 1700000090000
           (testMessage 20).2 None st); vm_compute; congruence.
Defined.

Section MemoryBound.

Variable cfg : ConversationMemory.Config.
Hypothesis positive : 1 <= maxContextMessages cfg.

Local Abbreviation bounded := (Spec.bounded cfg).

Lemma addMessage_bounded now cid m st :
  bounded st -> bounded (addMessage cfg now cid m st).
Proof.
  intros H cid'. destruct (decide (cid' = cid)) as [->|Hne].
  - rewrite addMessage_retained. unfold retainedBound.
    destruct (Z.leb_spec (summarizationThreshold cfg)
                (Z.of_nat (length (pushed cid now m st)))).
    + rewrite slice_last by lia. rewrite length_lastN. lia.
    + lia.
  - unfold retained. rewrite (proj1 (addMessage_other cfg now cid cid' m st Hne)).
    apply H.
Qed.

Lemma appendAll_bounded inputs : forall st,
  bounded st -> bounded (appendAll cfg inputs st).
Proof.
  induction inputs as [|i inputs IH]; intros st H; [exact H|].
  apply IH, addMessage_bounded, H.
Qed.

Lemma empty_bounded : bounded empty.
Proof.
  intros cid. unfold retained, retainedBound. simpl.
  rewrite lookup_empty. simpl. lia.
Qed.

Lemma sum_lengths_bound (B : Z) (l : list Conversation) : forall a,
  Forall (fun c => Z.of_nat (length (messages c)) <= B) l ->
  fold_left (fun sum conv => sum + Z.of_nat (length (messages conv))) l a
  <= a + Z.of_nat (length l) * B.
Proof.
  induction l as [|c l IH]; intros a H; simpl; [lia|].
  inversion H as [|? ? Hc Hl]; subst.
  specialize (IH (a + Z.of_nat (length (messages c))) Hl). lia.
Qed.

Lemma getStats_bounded st :
  bounded st ->
  stats_totalMessages (getStats st)
  <= totalConversations (getStats st) * retainedBound cfg.
Proof.
  intros H. unfold getStats. cbn [stats_totalMessages totalConversations].
  etrans; [apply (sum_lengths_bound (retainedBound cfg))|].
  - apply Forall_forall. intros c Hc.
    apply list_elem_of_fmap in Hc. destruct Hc as ([cid c'] & -> & Hin).
    apply elem_of_map_to_list in Hin. specialize (H cid).
    unfold retained in H. rewrite Hin in H. exact H.
  - rewrite length_map, length_map_to_list. lia.
Qed.

End MemoryBound.

(** Property X4.  The memory stays bounded: with [maxContextMessages >= 1],
    whatever messages are appended to whatever conversations, starting from
    the empty memory, no conversation ever retains more than
    [max(maxContextMessages, summarizationThreshold - 1)] messages, and
    [getStats] reports at most that many messages per conversation. *)
Theorem memory_stays_bounded
    (cfg : ConversationMemory.Config)
    (inputs : list (jsstring * Z * MessageData)) :
  1 <= maxContextMessages cfg ->
  let st := appendAll cfg inputs empty in
  (forall cid, Z.of_nat (length (retained st cid)) <= retainedBound cfg)
  /\ stats_totalMessages (getStats st)
     <= totalConversations (getStats st) * retainedBound cfg.
Proof.
  intros HM st.
  assert (H : bounded cfg st)
    by (apply appendAll_bounded; [exact HM | apply empty_bounded; exact HM]).
  split; [exact H | apply getStats_bounded, H].
Qed.

Lemma memory_stays_bounded_witness :
  let st :=
    appendAll readmeConfig
      (map (fun k => (if Nat.even k then js "4915100000" else js "4915111111",
                      (testMessage k).1, (testMessage k).2)) (seq 1 50))
      empty in
  (forall cid, Z.of_nat (length (retained st cid)) <= retainedBound readmeConfig)
  /\ stats_totalMessages (getStats st)
     <= totalConversations (getStats st) * retainedBound readmeConfig.
Proof.
  apply (memory_stays_bounded readmeConfig). vm_compute. congruence.
Defined.

Section Cleanup.

Implicit Types st : Memory.

Lemma deleteAll_lookup (ids : list jsstring) : forall st cid,
  let st' := fold_left (fun s i => deleteConversation i s) ids st in
  conversations st' !! cid
  = (if bool_decide (cid ∈ ids) then None else conversations st !! cid)
  /\ summaries st' !! cid
     = (if bool_decide (cid ∈ ids) then None else summaries st !! cid).
Proof.
  induction ids as [|i ids IH]; intros st cid; cbn [fold_left].
  - rewrite bool_decide_eq_false_2 by apply not_elem_of_nil. auto.
  - destruct (IH (deleteConversation i st) cid) as [H1 H2].
    rewrite H1, H2. unfold deleteConversation. cbn [conversations summaries].
    destruct (decide (cid = i)) as [->|Hne].
    + rewrite (bool_decide_eq_true_2 (i ∈ i :: ids)) by left.
      rewrite !lookup_delete_eq. destruct (bool_decide (i ∈ ids)); auto.
    + rewrite !lookup_delete_ne by congruence.
      destruct (bool_decide (cid ∈ ids)) eqn:E.
      * apply bool_decide_eq_true in E.
        rewrite bool_decide_eq_true_2 by (right; exact E). auto.
      * apply bool_decide_eq_false in E.
        rewrite bool_decide_eq_false_2; [auto|].
        rewrite elem_of_cons. tauto.
Qed.

Lemma toDelete_spec now maxAge st cid :
  cid ∈ map fst
          (List.filter (fun e => maxAge <? now - updatedAt e.2)
             (map_to_list (conversations st)))
  <-> exists c, conversations st !! cid = Some c /\ isOld now maxAge c = true.
Proof.
  rewrite list_elem_of_fmap. split.
  - intros ([i c] & -> & Hin). apply list_elem_of_In, List.filter_In in Hin.
    destruct Hin as [Hin Hold]. apply list_elem_of_In, elem_of_map_to_list in Hin.
    exists c. auto.
  - intros (c & Hc & Hold). exists (cid, c). split; [reflexivity|].
    apply list_elem_of_In, List.filter_In. split; [|exact Hold].
    apply list_elem_of_In, elem_of_map_to_list, Hc.
Qed.

Lemma cleanupOldConversations_lookup now maxAge st cid :
  let st' := cleanupOldConversations now maxAge st in
  match conversations st !! cid with
  | Some c =>
      if isOld now maxAge c
      then conversations st' !! cid = None /\ summaries st' !! cid = None
      else conversations st' !! cid = Some c
           /\ summaries st' !! cid = summaries st !! cid
  | None =>
      conversations st' !! cid = None
      /\ summaries st' !! cid = summaries st !! cid
  end.
Proof.
  intros st'. subst st'. unfold cleanupOldConversations.
  match goal with
  | |- context [fold_left _ ?ids st] =>
      destruct (deleteAll_lookup ids st cid) as [H1 H2];
      pose proof (toDelete_spec now maxAge st cid) as Hspec
  end.
  cbv zeta in H1, H2. rewrite H1, H2. clear H1 H2.
  destruct (conversations st !! cid) as [c|] eqn:Hc.
  - destruct (isOld now maxAge c) eqn:Hold.
    + rewrite bool_decide_eq_true_2 by (apply Hspec; eauto). auto.
    + rewrite bool_decide_eq_false_2; [auto|].
      rewrite Hspec. intros (c' & Hc' & Hold'). congruence.
  - rewrite bool_decide_eq_false_2; [auto|].
    rewrite Hspec. intros (c' & Hc' & _). congruence.
Qed.

End Cleanup.

(** Property X5.  The clean-up of old conversations deletes exactly the
    conversations with [now - updatedAt > maxAge], together with their
    summaries; every other conversation and every other summary is kept as
    it is (also a summary without a conversation). *)
Theorem cleanupOldConversations_removes_the_old
    (now maxAge : Z) (st : Memory) (cid : jsstring) :
  let st' := cleanupOldConversations now maxAge st in
  match conversations st !! cid with
  | Some c =>
      if maxAge <? now - updatedAt c
      then conversations st' !! cid = None /\ summaries st' !! cid = None
      else conversations st' !! cid = Some c
           /\ summaries st' !! cid = summaries st !! cid
  | None =>
      conversations st' !! cid = None
      /\ summaries st' !! cid = summaries st !! cid
  end.
Proof. apply cleanupOldConversations_lookup. Qed.

(** Property X6.  A conversation survives every clean-up that comes no later
    than [maxAge] after its last append, and so does its summary. *)
Theorem appended_conversation_survives_cleanup
    (cfg : ConversationMemory.Config) (cid : jsstring) (now later maxAge : Z)
    (m : MessageData) (st : Memory) :
  later - now <= maxAge ->
  let st1 := addMessage cfg now cid m st in
  let st2 := cleanupOldConversations later maxAge st1 in
  conversations st2 !! cid = conversations st1 !! cid
  /\ summaries st2 !! cid = summaries st1 !! cid
  /\ retained st2 cid = retained st1 cid.
Proof.
  intros Hage st1 st2.
  destruct (addMessage_record cfg now cid m st) as (c & Hc & _ & _ & Hup).
  fold st1 in Hc.
  pose proof (cleanupOldConversations_lookup later maxAge st1 cid) as H.
  cbv zeta in H. fold st2 in H. rewrite Hc in H. unfold isOld in H.
  rewrite Hup in H.
  destruct (Z.ltb_spec maxAge (later - now)); [lia|].
  destruct H as [H1 H2]. unfold retained. rewrite H1, H2, Hc. auto.
Qed.

Lemma appended_conversation_survives_cleanup_witness :
  let st := addMessages readmeConfig (js "4915100000") (testRun 19) empty in
  let st1 :=
    addMessage readmeConfig 1700000090000 (js "4915100000")
      (testMessage 20).2 st in
  let st2 := cleanupOldConversations 1700003690000 2592000000 st1 in
  conversations st2 !! js "4915100000" = conversations st1 !! js "4915100000"
  /\ summaries st2 !! js "4915100000" = summaries st1 !! js "4915100000"
  /\ retained st2 (js "4915100000") = retained st1 (js "4915100000").
Proof.
  intros st.
  apply (appended_conversation_survives_cleanup readmeConfig
           (js "4915100000") 1700000090000 1700003690000 2592000000
           (testMessage 20).2 st).
  lia.
Defined.

(** ** Helpers: identifiers, commands, truncation *)

Section Identifiers.

Import Helpers.

Lemma startsWith_app (p r : jsstring) : startsWith (p ++ r) p = true.
Proof.
  induction p as [|a p IH]; [destruct r; reflexivity|].
  cbn [app startsWith]. rewrite N.eqb_refl. exact IH.
Qed.

Lemma startsWith_head (a c : N) (p s : jsstring) :
  c <> a -> startsWith (c :: s) (a :: p) = false.
Proof.
  intros H. cbn [startsWith].
  destruct (N.eqb_spec a c); [congruence | reflexivity].
Qed.

Lemma removeFirst_suffix (a : N) (p n : jsstring) :
  Forall (fun c => c <> a) n -> removeFirst (n ++ a :: p) (a :: p) = n.
Proof.
  induction 1 as [|c n Hc _ IH].
  - cbn [app removeFirst].
    pose proof (startsWith_app (a :: p) []) as H. rewrite app_nil_r in H.
    rewrite H. apply drop_all.
  - cbn [app removeFirst]. rewrite startsWith_head by exact Hc.
    rewrite IH. reflexivity.
Qed.

Lemma removeFirst_absent (a : N) (p n : jsstring) :
  Forall (fun c => c <> a) n -> removeFirst n (a :: p) = n.
Proof.
  induction 1 as [|c n Hc _ IH]; [reflexivity|].
  cbn [removeFirst]. rewrite startsWith_head by exact Hc.
  rewrite IH. reflexivity.
Qed.

Lemma includes_app (p n s : jsstring) :
  Forall (fun c => hd_error p <> Some c) n ->
  includes (n ++ s) p = includes s p.
Proof.
  induction 1 as [|c n Hc _ IH]; [reflexivity|].
  destruct p as [|a p]; [destruct s; reflexivity|].
  cbn [app includes]. rewrite startsWith_head; [exact IH|].
  cbn in Hc. congruence.
Qed.

Lemma alnum_not_at (n : jsstring) :
  Forall (fun c => isAlnum c = true) n -> Forall (fun c => c <> 64%N) n.
Proof.
  intros H. eapply Forall_impl; [exact H|].
  intros c Hc ->. vm_compute in Hc. discriminate.
Qed.

Lemma sanitize_alnum (n : jsstring) :
  Forall (fun c => isAlnum c = true) n ->
  map (fun c => if isAlnum c then c else 95%N) n = n.
Proof.
  induction 1 as [|c n Hc _ IH]; [reflexivity|].
  cbn [map]. rewrite Hc, IH. reflexivity.
Qed.

Lemma length_removeFirst (s p : jsstring) :
  (length (removeFirst s p) <= length s)%nat.
Proof.
  induction s as [|c s IH]; cbn [removeFirst].
  - destruct (startsWith [] p); [rewrite length_drop|]; simpl; lia.
  - destruct (startsWith (c :: s) p).
    + rewrite length_drop. lia.
    + cbn [length]. lia.
Qed.

Lemma splitOn_nosep (sep : N) (w : jsstring) : forall cur s,
  Forall (fun c => c <> sep) w ->
  splitOn sep cur (w ++ s) = splitOn sep (cur ++ w) s.
Proof.
  induction w as [|c w IH]; intros cur s Hw.
  - rewrite app_nil_r. reflexivity.
  - inversion Hw as [|? ? Hc Hw']; subst. cbn [app splitOn].
    destruct (N.eqb_spec c sep); [contradiction|].
    rewrite IH by exact Hw'. rewrite <- app_assoc. reflexivity.
Qed.

Lemma splitOn_pieces (sep : N) (pieces : list jsstring) : forall cur,
  Forall (Forall (fun c => c <> sep)) pieces ->
  splitOn sep cur (concat (map (cons sep) pieces)) = cur :: pieces.
Proof.
  induction pieces as [|a pieces IH]; intros cur H; [reflexivity|].
  inversion H as [|? ? Ha H']; subst.
  cbn [map concat app splitOn]. rewrite N.eqb_refl.
  rewrite splitOn_nosep by exact Ha. rewrite IH by exact H'. reflexivity.
Qed.

Lemma noSpace_noBlank (w : jsstring) :
  Forall (fun c => isSpace c = false) w -> Forall (fun c => c <> 32%N) w.
Proof.
  intros H. eapply Forall_impl; [exact H|].
  intros c Hc ->. vm_compute in Hc. discriminate.
Qed.

Lemma dropWhile_head {A} (p : A -> bool) (a : A) (l : list A) :
  p a = false -> dropWhile p (a :: l) = a :: l.
Proof. intros H. cbn [dropWhile]. rewrite H. reflexivity. Qed.

Lemma trim_ends (a b : N) (s : jsstring) :
  hd_error s = Some a -> last s = Some b ->
  isSpace a = false -> isSpace b = false -> trim s = s.
Proof.
  intros Hhd Hlast Ha Hb. unfold trim.
  destruct s as [|a' r]; [discriminate|]. injection Hhd as ->.
  rewrite dropWhile_head by exact Ha.
  apply last_Some in Hlast. destruct Hlast as [t ->].
  rewrite rev_app_distr. cbn [rev app].
  rewrite dropWhile_head by exact Hb.
  cbn [rev]. rewrite rev_involutive. reflexivity.
Qed.

End Identifiers.

(** Property X7.  A conversation id is a safe file name: it holds only
    letters, digits and underscores, whatever the contact id, and is never
    longer than the contact id. *)
Theorem generateConversationId_is_a_file_name (contactId : jsstring) :
  Forall (fun c => isWord c = true) (Helpers.generateConversationId contactId)
  /\ (length (Helpers.generateConversationId contactId)
      <= length contactId)%nat.
Proof.
  unfold Helpers.generateConversationId. split.
  - apply Forall_forall. intros c Hc. apply list_elem_of_In, in_map_iff in Hc.
    destruct Hc as (x & <- & _). unfold isWord.
    destruct (isAlnum x) eqn:E.
    + unfold isAlnum in E. rewrite E. reflexivity.
    + rewrite orb_true_r. reflexivity.
  - rewrite length_map. apply length_removeFirst.
Qed.

(** Property X8.  The id of a direct chat is the number itself: for a number
    made of letters and digits, [number@c.us] gets the id [number], so two
    direct chats share a conversation only if their numbers are equal. *)
Theorem generateConversationId_of_direct_chat (number other : jsstring) :
  Forall (fun c => isAlnum c = true) number ->
  Forall (fun c => isAlnum c = true) other ->
  Helpers.generateConversationId (number ++ js "@c.us") = number
  /\ (Helpers.generateConversationId (number ++ js "@c.us")
      = Helpers.generateConversationId (other ++ js "@c.us")
      -> number = other).
Proof.
  intros Hn Ho.
  assert (E : forall n, Forall (fun c => isAlnum c = true) n ->
                Helpers.generateConversationId (n ++ js "@c.us") = n).
  { intros n H. unfold Helpers.generateConversationId.
    change (js "@c.us") with (64%N :: js "c.us").
    rewrite removeFirst_suffix by (apply alnum_not_at, H).
    apply sanitize_alnum, H. }
  rewrite !E by assumption. auto.
Qed.

Lemma generateConversationId_of_direct_chat_witness :
  Helpers.generateConversationId (js "4915100000" ++ js "@c.us")
  = js "4915100000"
  /\ (Helpers.generateConversationId (js "4915100000" ++ js "@c.us")
      = Helpers.generateConversationId (js "4915111111" ++ js "@c.us")
      -> js "4915100000" = js "4915111111").
Proof.
  apply (generateConversationId_of_direct_chat
           (js "4915100000") (js "4915111111"));
    vm_compute; repeat constructor.
Defined.

Section Addresses.

Import Helpers.

Lemma removeFirst_app (a : N) (p n s : jsstring) :
  Forall (fun c => c <> a) n ->
  removeFirst (n ++ s) (a :: p) = n ++ removeFirst s (a :: p).
Proof.
  induction 1 as [|c n Hc _ IH]; [reflexivity|].
  cbn [app removeFirst]. rewrite startsWith_head by exact Hc.
  rewrite IH. reflexivity.
Qed.

End Addresses.

(** Property X9.  WhatsApp ids and numbers: for a number without [@], the
    direct-chat id [number@c.us] and the group id [number@g.us] both give
    the number back, the direct-chat id is recognised as the bot's own when
    the number is the bot's, and only the group id counts as a group. *)
Theorem whatsapp_ids_round_trip (number : jsstring) :
  Forall (fun c => c <> 64%N) number ->
  Helpers.extractPhoneNumber (number ++ js "@c.us") = number
  /\ Helpers.extractPhoneNumber (number ++ js "@g.us") = number
  /\ Helpers.isFromBot (number ++ js "@c.us") number = true
  /\ Helpers.isGroupMessage (number ++ js "@g.us") = true
  /\ Helpers.isGroupMessage (number ++ js "@c.us") = false.
Proof.
  intros H. unfold Helpers.extractPhoneNumber, Helpers.isFromBot,
    Helpers.isGroupMessage.
  change (js "@c.us") with (64%N :: js "c.us").
  change (js "@g.us") with (64%N :: js "g.us").
  assert (H' : Forall (fun c => hd_error (64%N :: js "g.us") <> Some c) number).
  { eapply Forall_impl; [exact H|]. intros c Hc E. apply Hc.
    cbn in E. congruence. }
  repeat split.
  - rewrite removeFirst_suffix by exact H. apply removeFirst_absent, H.
  - rewrite removeFirst_app by exact H.
    change (removeFirst (64%N :: js "g.us") (64%N :: js "c.us"))
      with (64%N :: js "g.us").
    apply removeFirst_suffix, H.
  - apply bool_decide_eq_true_2. reflexivity.
  - rewrite includes_app by exact H'. reflexivity.
  - rewrite includes_app by exact H'. reflexivity.
Qed.

Lemma whatsapp_ids_round_trip_witness :
  Helpers.extractPhoneNumber (js "4915100000" ++ js "@c.us") = js "4915100000"
  /\ Helpers.extractPhoneNumber (js "4915100000" ++ js "@g.us")
     = js "4915100000"
  /\ Helpers.isFromBot (js "4915100000" ++ js "@c.us") (js "4915100000") = true
  /\ Helpers.isGroupMessage (js "4915100000" ++ js "@g.us") = true
  /\ Helpers.isGroupMessage (js "4915100000" ++ js "@c.us") = false.
Proof.
  apply (whatsapp_ids_round_trip (js "4915100000")).
  vm_compute. repeat constructor; discriminate.
Defined.

(** Property X10.  Parsing gives back what a command was built from: the
    prefix, a name of ASCII units without white space, and arguments
    without white space, each after one blank, parse to the name with
    [A-Z] replaced by [a-z] and the same arguments.  An argument may be
    empty (two blanks in a row), except the last one. *)
Theorem parseCommand_round_trip
    (prefix name : jsstring) (args : list jsstring) :
  name <> [] ->
  ascii name ->
  Forall (fun c => isSpace c = false) name ->
  Forall (Forall (fun c => isSpace c = false)) args ->
  last args <> Some [] ->
  Helpers.parseCommand
    (prefix ++ name ++ concat (map (cons 32%N) args)) prefix
  = {| Helpers.name := Some (map asciiLower name); Helpers.args := args |}.
Proof.
  intros Hne Hascii Hname Hargs Hlast.
  rewrite <- (toLowerCase_ascii name Hascii). unfold Helpers.parseCommand.
  set (rest := name ++ concat (map (cons 32%N) args)).
  assert (Hcmd : Helpers.isCommand (prefix ++ rest) prefix = true).
  { unfold Helpers.isCommand. destruct (prefix ++ rest) eqn:E.
    - apply app_eq_nil in E. destruct E as [_ E]. unfold rest in E.
      apply app_eq_nil in E. destruct E. contradiction.
    - rewrite <- E. apply startsWith_app. }
  rewrite Hcmd. cbn [negb]. unfold substringFrom.
  rewrite drop_app_length.
  assert (Htrim : trim rest = rest).
  { destruct name as [|a name']; [contradiction|].
    inversion Hname as [|? ? Ha Hname']; subst.
    assert (is_Some (last rest)) as [b Hb]
      by (apply last_is_Some; unfold rest; discriminate).
    apply (trim_ends a b); [reflexivity | exact Hb | exact Ha |].
    unfold rest in Hb. clear Hcmd rest.
    destruct args as [|x args _] using rev_ind.
    - cbn [map concat] in Hb. rewrite app_nil_r in Hb.
      rewrite Forall_forall in Hname.
      apply Hname. apply last_Some in Hb. destruct Hb as [t Hb].
      rewrite Hb. apply elem_of_app. right. left.
    - rewrite map_app, concat_app in Hb. cbn [map concat] in Hb.
      rewrite app_nil_r in Hb.
      rewrite last_snoc in Hlast.
      apply Forall_app in Hargs. destruct Hargs as [_ Hx].
      inversion Hx as [|? ? Hx' _]; subst.
      destruct x as [|x0 x' _] using rev_ind; [congruence|].
      rewrite Forall_forall in Hx'. apply Hx'.
      rewrite !app_assoc in Hb.
      change (32%N :: (x' ++ [x0])) with ((32%N :: x') ++ [x0]) in Hb.
      rewrite !app_assoc in Hb. rewrite last_snoc in Hb.
      injection Hb as <-. apply elem_of_app. right. left. }
  rewrite Htrim. unfold rest.
  rewrite splitOn_nosep by (apply noSpace_noBlank, Hname).
  rewrite splitOn_pieces.
  - reflexivity.
  - eapply Forall_impl; [exact Hargs|]. intros a. apply noSpace_noBlank.
Qed.

Lemma parseCommand_round_trip_witness :
  Helpers.parseCommand
    (js "/" ++ js "Stop" ++ concat (map (cons 32%N) [[]; js "now"]))
    (js "/")
  = {| Helpers.name := Some (map asciiLower (js "Stop"));
       Helpers.args := [[]; js "now"] |}.
Proof.
  apply (parseCommand_round_trip (js "/") (js "Stop") [[]; js "now"]).
  - discriminate.
  - vm_compute. repeat constructor.
  - vm_compute. repeat constructor.
  - vm_compute. repeat constructor.
  - discriminate.
Defined.

(** Property X11.  [truncateText] with a limit of at least 3: the result
    never exceeds the limit; a text within the limit comes back as it is; a
    longer one is its first [maxLength - 3] units and "...", exactly
    [maxLength] long; and truncating twice is truncating once. *)
Theorem truncateText_within_limit (text : jsstring) (maxLength : Z) :
  3 <= maxLength ->
  Z.of_nat (length (Helpers.truncateText text maxLength)) <= maxLength
  /\ (if Z.of_nat (length text) <=? maxLength
      then Helpers.truncateText text maxLength = text
      else Helpers.truncateText text maxLength
           = take (Z.to_nat (maxLength - 3)) text ++ js "..."
           /\ Z.of_nat (length (Helpers.truncateText text maxLength))
              = maxLength)
  /\ Helpers.truncateText (Helpers.truncateText text maxLength) maxLength
     = Helpers.truncateText text maxLength.
Proof.
  intros Hmax.
  assert (Hfit : forall t, Z.of_nat (length t) <= maxLength ->
                   Helpers.truncateText t maxLength = t).
  { intros t Ht. unfold Helpers.truncateText. destruct t; [reflexivity|].
    destruct (Z.leb_spec (Z.of_nat (length (n :: t))) maxLength);
      [reflexivity | lia]. }
  assert (Hcut : maxLength < Z.of_nat (length text) ->
            Helpers.truncateText text maxLength
            = take (Z.to_nat (maxLength - 3)) text ++ js "..."
            /\ Z.of_nat (length (Helpers.truncateText text maxLength))
               = maxLength).
  { intros Hlong. unfold Helpers.truncateText, substring0.
    destruct text as [|c text]; [simpl in Hlong; lia|].
    destruct (Z.leb_spec (Z.of_nat (length (c :: text))) maxLength); [lia|].
    replace (Z.to_nat (Z.min (Z.max (maxLength - 3) 0)
                         (Z.of_nat (length (c :: text)))))
      with (Z.to_nat (maxLength - 3)) by lia.
    split; [reflexivity|].
    rewrite length_app, length_take.
    change (length (js "...")) with 3%nat. lia. }
  assert (Hlen : Z.of_nat (length (Helpers.truncateText text maxLength))
                 <= maxLength).
  { destruct (Z.le_gt_cases (Z.of_nat (length text)) maxLength) as [H|H].
    - rewrite Hfit by exact H. exact H.
    - destruct (Hcut H) as [_ ->]. lia. }
  split; [exact Hlen|]. split.
  - destruct (Z.leb_spec (Z.of_nat (length text)) maxLength); auto.
  - apply Hfit, Hlen.
Qed.

Lemma truncateText_within_limit_witness :
  Z.of_nat (length (Helpers.truncateText (js "conversation") 8)) <= 8
  /\ (if Z.of_nat (length (js "conversation")) <=? 8
      then Helpers.truncateText (js "conversation") 8 = js "conversation"
      else Helpers.truncateText (js "conversation") 8
           = take (Z.to_nat (8 - 3)) (js "conversation") ++ js "..."
           /\ Z.of_nat (length (Helpers.truncateText (js "conversation") 8))
              = 8)
  /\ Helpers.truncateText (Helpers.truncateText (js "conversation") 8) 8
     = Helpers.truncateText (js "conversation") 8.
Proof. apply (truncateText_within_limit (js "conversation") 8). lia. Defined.

(** Property X12.  Below 3 the limit is not kept: a non-empty text longer
    than a limit under 3 comes back as "...", three units whatever the
    limit; and the empty text comes back empty under every limit, also a
    negative one. *)
Theorem truncateText_small_limit (text : jsstring) (maxLength : Z) :
  maxLength < 3 ->
  Helpers.truncateText text maxLength
  = if bool_decide (text = []) || (Z.of_nat (length text) <=? maxLength)
    then text else js "...".
Proof.
  intros Hmax. unfold Helpers.truncateText, substring0.
  destruct text as [|c text]; [reflexivity|].
  rewrite bool_decide_eq_false_2 by discriminate. cbn [orb].
  destruct (Z.leb_spec (Z.of_nat (length (c :: text))) maxLength);
    [reflexivity|].
  replace (Z.to_nat (Z.min (Z.max (maxLength - 3) 0)
                       (Z.of_nat (length (c :: text)))))
    with 0%nat by lia.
  reflexivity.
Qed.

Lemma truncateText_small_limit_witness :
  Helpers.truncateText (js "conversation") 2
  = if bool_decide (js "conversation" = [])
       || (Z.of_nat (length (js "conversation")) <=? 2)
    then js "conversation" else js "...".
Proof. apply (truncateText_small_limit (js "conversation") 2). lia. Defined.

(** ** Response frequency: the limit over a run of checks *)

Section FrequencyLimit.

Import MessageHandler.

Variable contactId : jsstring.
Variable limit : Z.

Lemma recent_app now l1 l2 :
  recent now (l1 ++ l2) = recent now l1 ++ recent now l2.
Proof. unfold recent. apply List.filter_app. Qed.

Lemma recent_recent now later l :
  now <= later -> recent later (recent now l) = recent later l.
Proof.
  intros H. unfold recent. induction l as [|x l IH]; [reflexivity|].
  cbn [List.filter].
  destruct (Z.ltb_spec (now - windowMs) x) as [Hx|Hx].
  - cbn [List.filter]. rewrite IH. reflexivity.
  - destruct (Z.ltb_spec (later - windowMs) x); [lia | exact IH].
Qed.

Lemma withinWindow_app t l1 l2 :
  withinWindow t (l1 ++ l2) = withinWindow t l1 ++ withinWindow t l2.
Proof. unfold withinWindow. apply List.filter_app. Qed.

Lemma withinWindow_recent now t l :
  now <= t -> (length (withinWindow t l) <= length (recent now l))%nat.
Proof.
  intros H. unfold withinWindow, recent.
  induction l as [|x l IH]; [reflexivity|]. cbn [List.filter].
  destruct (Z.ltb_spec (t - windowMs) x) as [Hx|Hx]; cbn [andb].
  - destruct (Z.ltb_spec (now - windowMs) x); [|lia].
    destruct (x <=? t); cbn [length]; lia.
  - destruct (now - windowMs <? x); cbn [length]; lia.
Qed.

(** The invariant of a run: from the current reading on, the stored
    timestamps [stored] and all the accepted ones [history] have the same
    recent part, and no window holds more than [limit] accepted ones. *)
Lemma frequencyRun_invariant times : forall cooldownMap stored history lower,
  recorded cooldownMap contactId = Some stored ->
  (forall x, lower <= x -> recent x stored = recent x history) ->
  (forall t, Z.of_nat (length (withinWindow t history)) <= Z.max 0 limit) ->
  Forall (Z.le lower) times ->
  StronglySorted Z.le times ->
  length (frequencyRun limit contactId times cooldownMap) = length times
  /\ forall t,
       Z.of_nat (length (withinWindow t
                   (history ++ acceptedAt times
                      (frequencyRun limit contactId times cooldownMap))))
       <= Z.max 0 limit.
Proof.
  induction times as [|now times IH];
    intros cooldownMap stored history lower Hrec Hsame Hwin Hlow Hsorted.
  - split; [reflexivity|]. intros t. cbn [frequencyRun].
    unfold acceptedAt. cbn [combine List.filter map].
    rewrite app_nil_r. apply Hwin.
  - inversion Hlow as [|? ? Hnow Hlow']; subst.
    inversion Hsorted as [|? ? Hsorted' Hrest]; subst.
    destruct (checkResponseFrequency_recorded contactId limit now
                cooldownMap stored Hrec) as (m' & Hcheck & Hrec' & _).
    cbv zeta in Hcheck, Hrec'. cbn [frequencyRun]. rewrite Hcheck.
    destruct (Z.ltb_spec (Z.of_nat (length (recent now stored))) limit)
      as [Hbelow|Hfull].
    + (* accepted *)
      destruct (IH m' (recent now stored ++ [now]) (history ++ [now]) now)
        as [Hlen Hbound]; try assumption.
      * intros x Hx. rewrite !recent_app, recent_recent by exact Hx.
        rewrite Hsame by lia. reflexivity.
      * intros t. destruct (Z.lt_ge_cases t now) as [Hbefore|Hafter].
        -- rewrite withinWindow_app.
           replace (withinWindow t [now]) with (@nil Z).
           ++ rewrite app_nil_r. apply Hwin.
           ++ unfold withinWindow. cbn [List.filter].
              destruct (Z.leb_spec now t); [lia|].
              rewrite andb_false_r. reflexivity.
        -- pose proof (withinWindow_recent now t (history ++ [now]) Hafter)
             as Hle.
           rewrite recent_app, <- Hsame in Hle by lia.
           rewrite length_app in Hle.
           pose proof (length_recent now [now]) as H1.
           cbn [length] in H1. lia.
      * split; [cbn [length]; rewrite Hlen; reflexivity|].
        intros t. specialize (Hbound t).
        unfold acceptedAt in *. cbn [combine List.filter snd map fst].
        rewrite <- app_assoc in Hbound. exact Hbound.
    + (* refused *)
      destruct (IH m' stored history now) as [Hlen Hbound]; try assumption.
      * intros x Hx. apply Hsame. lia.
      * split; [cbn [length]; rewrite Hlen; reflexivity|].
        intros t. specialize (Hbound t).
        unfold acceptedAt in *. cbn [combine List.filter snd]. exact Hbound.
Qed.

End FrequencyLimit.

(** Property X13.  The frequency limit holds over any run of checks: for a
    contact with nothing recorded and readings of the clock that never go
    back, no check throws, and every window of 60000 ms ([t - 60000 < ts <=
    t], for every [t]) holds at most [limit] readings at which the check
    answered true (none at all for a limit of 0 or below). *)
Theorem frequency_limit_over_a_run
    (contactId : jsstring) (limit : Z) (times : list Z)
    (cooldownMap : gmap jsstring Helpers.CooldownEntry) (t : Z) :
  recorded cooldownMap contactId = Some [] ->
  StronglySorted Z.le times ->
  length (frequencyRun limit contactId times cooldownMap) = length times
  /\ Z.of_nat (length (withinWindow t
                 (acceptedAt times
                    (frequencyRun limit contactId times cooldownMap))))
     <= Z.max 0 limit.
Proof.
  intros Hrec Hsorted.
  destruct (frequencyRun_invariant contactId limit times cooldownMap [] []
              (hd 0 times)) as [Hlen Hbound].
  - exact Hrec.
  - reflexivity.
  - intros x. cbn. lia.
  - destruct Hsorted as [|x l Hs Hall]; [constructor|].
    constructor; [cbn; lia | exact Hall].
  - exact Hsorted.
  - split; [exact Hlen | apply (Hbound t)].
Qed.

Lemma frequency_limit_over_a_run_witness :
  let times := [1000; 2000; 3000; 4000; 61500; 62500; 63500; 64500] in
  length (frequencyRun 3 (js "4915100000@c.us") times ∅) = length times
  /\ Z.of_nat (length (withinWindow 62500
                 (acceptedAt times
                    (frequencyRun 3 (js "4915100000@c.us") times ∅))))
     <= Z.max 0 3.
Proof.
  apply (frequency_limit_over_a_run (js "4915100000@c.us") 3
           [1000; 2000; 3000; 4000; 61500; 62500; 63500; 64500] ∅ 62500).
  - reflexivity.
  - repeat constructor; lia.
Defined.

(** ** Clean-up of the cooldown map *)

Section CooldownCleanup.

Import MessageHandler.

Implicit Types cooldownMap : gmap jsstring Helpers.CooldownEntry.

Lemma cleanupCooldowns_lookup cooldownMap now maxAge key :
  Helpers.cleanupCooldowns cooldownMap now maxAge !! key
  = match cooldownMap !! key with
    | Some e => if Helpers.isStale now maxAge e then None else Some e
    | None => None
    end.
Proof.
  unfold Helpers.cleanupCooldowns. rewrite map_lookup_filter.
  destruct (cooldownMap !! key) as [e|]; [|reflexivity]. cbn.
  destruct (Helpers.isStale now maxAge e) eqn:E.
  - rewrite option_guard_False; [reflexivity | cbn; congruence].
  - rewrite option_guard_True; [reflexivity | cbn; congruence].
Qed.

Lemma stale_recent now maxAge later l :
  windowMs <= maxAge -> now <= later ->
  Helpers.isStale now maxAge (Helpers.Timestamps l) = true ->
  recent later l = [].
Proof.
  intros Hage Hlater. unfold Helpers.isStale.
  destruct l as [|t [|t' l]]; cbn [Helpers.entryNumber];
    [reflexivity | | discriminate].
  intros H. apply Z.ltb_lt in H. apply recent_drop. lia.
Qed.

(** One check on two maps whose records for the contact have the same
    recent part gives the same answer and leaves such maps again. *)
Lemma checkResponseFrequency_similar contactId limit now later
    cooldownMap cooldownMap' ts ts' :
  now <= later ->
  recorded cooldownMap contactId = Some ts ->
  recorded cooldownMap' contactId = Some ts' ->
  (forall x, now <= x -> recent x ts = recent x ts') ->
  exists b m m' us us',
    checkResponseFrequency limit later contactId cooldownMap = Some (b, m)
    /\ checkResponseFrequency limit later contactId cooldownMap'
       = Some (b, m')
    /\ recorded m contactId = Some us
    /\ recorded m' contactId = Some us'
    /\ forall x, now <= x -> recent x us = recent x us'.
Proof.
  intros Hlater Hrec Hrec' Hsame.
  destruct (checkResponseFrequency_recorded contactId limit later
              cooldownMap ts Hrec) as (m & Hc & Hr & _).
  destruct (checkResponseFrequency_recorded contactId limit later
              cooldownMap' ts' Hrec') as (m' & Hc' & Hr' & _).
  cbv zeta in *. rewrite <- (Hsame later Hlater) in Hc', Hr'.
  destruct (Z.of_nat (length (recent later ts)) <? limit).
  - exists true, m, m', (recent later ts ++ [later]),
      (recent later ts ++ [later]). auto.
  - exists false, m, m', ts, ts'. auto.
Qed.

Lemma frequencyRun_similar contactId limit now times :
  forall cooldownMap cooldownMap' ts ts',
  Forall (Z.le now) times ->
  recorded cooldownMap contactId = Some ts ->
  recorded cooldownMap' contactId = Some ts' ->
  (forall x, now <= x -> recent x ts = recent x ts') ->
  frequencyRun limit contactId times cooldownMap'
  = frequencyRun limit contactId times cooldownMap.
Proof.
  induction times as [|later times IH];
    intros cooldownMap cooldownMap' ts ts' Hall Hrec Hrec' Hsame;
    [reflexivity|].
  inversion Hall as [|? ? Hlater Hall']; subst.
  destruct (checkResponseFrequency_similar contactId limit now later
              cooldownMap cooldownMap' ts ts' Hlater Hrec Hrec' Hsame)
    as (b & m & m' & us & us' & Hc & Hc' & Hr & Hr' & Hs).
  cbn [frequencyRun]. rewrite Hc, Hc'. f_equal.
  apply (IH m m' us us'); assumption.
Qed.

End CooldownCleanup.

(** Property X14.  The clean-up of the cooldown map does not show: for a
    maximum age of at least the cooldown and the 60000 ms window, and
    readings of the clock no earlier than the clean-up, the cooldown test
    answers the same with and without the clean-up, and so does every run of
    frequency checks of a contact whose record is an array or missing. *)
Theorem cleanupCooldowns_does_not_show
    (cooldownMap : gmap jsstring Helpers.CooldownEntry)
    (now maxAge cooldownMs later limit : Z) (key contactId : jsstring)
    (times : list Z) (ts : list Z) :
  cooldownMs <= maxAge ->
  MessageHandler.windowMs <= maxAge ->
  now <= later ->
  Forall (Z.le now) times ->
  recorded cooldownMap contactId = Some ts ->
  Helpers.isCooldownExpired
    (Helpers.cleanupCooldowns cooldownMap now maxAge) key cooldownMs later
  = Helpers.isCooldownExpired cooldownMap key cooldownMs later
  /\ frequencyRun limit contactId times
       (Helpers.cleanupCooldowns cooldownMap now maxAge)
     = frequencyRun limit contactId times cooldownMap.
Proof.
  intros Hcd Hwin Hlater Hall Hrec. split.
  - unfold Helpers.isCooldownExpired. rewrite cleanupCooldowns_lookup.
    destruct (cooldownMap !! key) as [e|]; [|reflexivity].
    destruct (Helpers.isStale now maxAge e) eqn:E; [|reflexivity].
    unfold Helpers.isStale in E.
    destruct e as [t|[|t [|t' l]]]; cbn [Helpers.entryNumber] in E;
      try discriminate E; apply Z.ltb_lt in E; symmetry.
    + destruct (t =? 0); [reflexivity|]. apply Z.leb_le. lia.
    + apply Z.leb_le. lia.
    + apply Z.leb_le. lia.
  - unfold recorded in Hrec.
    destruct (cooldownMap !! frequencyKey contactId) as [e|] eqn:Hk.
    + destruct e as [t|l]; [discriminate|]. injection Hrec as ->.
      destruct (Helpers.isStale now maxAge (Helpers.Timestamps ts)) eqn:E.
      * apply (frequencyRun_similar contactId limit now times
                 cooldownMap _ ts []); try assumption.
        -- unfold recorded. rewrite Hk. reflexivity.
        -- unfold recorded. rewrite cleanupCooldowns_lookup, Hk, E.
           reflexivity.
        -- intros x Hx.
           rewrite (stale_recent now maxAge x ts) by assumption.
           reflexivity.
      * apply (frequencyRun_similar contactId limit now times
                 cooldownMap _ ts ts); try assumption.
        -- unfold recorded. rewrite Hk. reflexivity.
        -- unfold recorded. rewrite cleanupCooldowns_lookup, Hk, E.
           reflexivity.
        -- reflexivity.
    + injection Hrec as <-.
      apply (frequencyRun_similar contactId limit now times
               cooldownMap _ [] []); try assumption.
      * unfold recorded. rewrite Hk. reflexivity.
      * unfold recorded. rewrite cleanupCooldowns_lookup, Hk. reflexivity.
      * reflexivity.
Qed.

Lemma cleanupCooldowns_does_not_show_witness :
  let cooldownMap : gmap jsstring Helpers.CooldownEntry :=
    <[js "cooldown_4915100000@c.us" := Helpers.LastResponse 1000]>
      (<[js "frequency_4915100000@c.us" := Helpers.Timestamps [1000]]> ∅) in
  Helpers.isCooldownExpired
    (Helpers.cleanupCooldowns cooldownMap 90000000 86400000)
    (js "cooldown_4915100000@c.us") 1000 90000500
  = Helpers.isCooldownExpired cooldownMap
      (js "cooldown_4915100000@c.us") 1000 90000500
  /\ frequencyRun 3 (js "4915100000@c.us") [90000500; 90001000]
       (Helpers.cleanupCooldowns cooldownMap 90000000 86400000)
     = frequencyRun 3 (js "4915100000@c.us") [90000500; 90001000]
         cooldownMap.
Proof.
  intros cooldownMap.
  apply (cleanupCooldowns_does_not_show cooldownMap 90000000 86400000 1000
           90000500 3 (js "cooldown_4915100000@c.us")
           (js "4915100000@c.us") [90000500; 90001000] [1000]).
  - lia.
  - vm_compute. discriminate.
  - lia.
  - repeat constructor; lia.
  - vm_compute. reflexivity.
Defined.

(** ** User settings: what the clean-up can remove, and the counts *)

Section SettingsCleanup.

Import CommandHandler.

Variable cfg : CommandHandler.Config.
Implicit Types us : Settings.

(** No entry has a time of last command. *)
Local Abbreviation untimed :=
  (fun us => forall c s, us !! c = Some s -> lastCommand s = None).

Lemma getUserSettings_untimed d us :
  untimed us ->
  lastCommand (getUserSettings cfg d us).1 = None
  /\ untimed (getUserSettings cfg d us).2.
Proof.
  intros H. unfold getUserSettings.
  destruct (us !! d) as [s|] eqn:E; cbn [fst snd].
  - split; [exact (H d s E) | exact H].
  - split; [reflexivity|]. intros c s Hs.
    destruct (decide (d = c)) as [->|Hne].
    + rewrite lookup_insert_eq in Hs. injection Hs as <-. reflexivity.
    + rewrite lookup_insert_ne in Hs by exact Hne. exact (H c s Hs).
Qed.

Lemma setUserSettings_untimed d b us :
  untimed us -> untimed (setUserSettings cfg d b us).
Proof.
  intros H. unfold setUserSettings.
  destruct (getUserSettings_untimed d us H) as [H1 H2].
  destruct (getUserSettings cfg d us) as [s us1]. cbn [fst snd] in *.
  intros c s' Hs.
  destruct (decide (d = c)) as [->|Hne].
  - rewrite lookup_insert_eq in Hs. injection Hs as <-. exact H1.
  - rewrite lookup_insert_ne in Hs by exact Hne. exact (H2 c s' Hs).
Qed.

Lemma runHandler_untimed h d us :
  untimed us -> untimed (runHandler cfg h d us).2.
Proof.
  intros H.
  destruct h; cbn [runHandler snd]; try exact H;
    unfold handleStatus, handleStop, handleStart, handleInfo;
    try (pose proof (getUserSettings_untimed d us H) as [_ H2];
         destruct (getUserSettings cfg d us) as [s us1]; exact H2);
    apply setUserSettings_untimed, H.
Qed.

Lemma processCommand_untimed d body us :
  untimed us -> untimed (processCommand cfg d body us).2.
Proof.
  intros H. unfold processCommand.
  destruct (negb (enabled cfg) || bool_decide (body = [])); [exact H|].
  destruct (Helpers.name _) as [[|x name]|]; try exact H.
  destruct (negb _); [exact H|].
  destruct (commands (x :: name)) as [h|]; [|exact H].
  pose proof (runHandler_untimed h d us H) as H2.
  destruct (runHandler cfg h d us) as [t us1]. exact H2.
Qed.

Lemma isUserResponsesEnabled_untimed d us :
  untimed us -> untimed (isUserResponsesEnabled cfg d us).2.
Proof.
  intros H. unfold isUserResponsesEnabled.
  destruct (getUserSettings_untimed d us H) as [_ H2].
  destruct (getUserSettings cfg d us) as [s us1]. exact H2.
Qed.

Lemma cleanupOldSettings_untimed now maxAge us :
  untimed us -> cleanupOldSettings now maxAge us = us.
Proof.
  intros H. unfold cleanupOldSettings. apply map_filter_id.
  intros c s Hs. cbn. unfold isOldSetting. rewrite (H c s Hs). reflexivity.
Qed.

End SettingsCleanup.

Section HandlerSettings.

Import MessageHandler.

Variable cfg : MessageHandler.Config.

Local Abbreviation untimed :=
  (fun us : CommandHandler.Settings =>
     forall c s, us !! c = Some s -> CommandHandler.lastCommand s = None).

Lemma handleMessage_untimed env message st :
  untimed (userSettings st) ->
  untimed (userSettings (handleMessage cfg env message st).1).
Proof.
  intros H.
  destruct (passesFilters cfg env message st) eqn:Hp.
  2:{ rewrite handleMessage_rejected by exact Hp. exact H. }
  rewrite handleMessage_passed by exact Hp.
  pose proof (processCommand_untimed (commandCfg cfg)
                (from (content message)) (body (content message))
                (userSettings st) H) as H1.
  destruct (dispatch_settings cfg env message st) as [-> | ->];
    [exact H1|].
  apply isUserResponsesEnabled_untimed, H1.
Qed.

Lemma handleMessages_untimed events : forall st,
  untimed (userSettings st) ->
  untimed (userSettings (handleMessages cfg events st).1).
Proof.
  induction events as [|[env message] events IH]; intros st H; [exact H|].
  cbn [handleMessages].
  pose proof (handleMessage_untimed env message st H) as H1.
  destruct (handleMessage cfg env message st) as [st1 out1].
  specialize (IH st1 H1).
  destruct (handleMessages cfg events st1) as [st2 out2]. exact IH.
Qed.

End HandlerSettings.

(** Property X16.  The clean-up of the user settings removes nothing: no
    command and no message ever records a time of last command, so after any
    sequence of handled messages, from settings without such a time (the
    empty ones at start-up), [cleanupOldSettings] leaves the settings as
    they are, whatever the clock and the maximum age; a preference set with
    the stop command is never lost. *)
Theorem cleanupOldSettings_removes_nothing
    (cfg : MessageHandler.Config)
    (events : list (MessageHandler.Env * MessageHandler.Message))
    (st : MessageHandler.State) (now maxAge : Z) :
  (forall c s, MessageHandler.userSettings st !! c = Some s ->
               CommandHandler.lastCommand s = None) ->
  let us :=
    MessageHandler.userSettings
      (MessageHandler.handleMessages cfg events st).1 in
  CommandHandler.cleanupOldSettings now maxAge us = us
  /\ MessageHandler.userSettings
       (MessageHandler.cleanup now now now
          (MessageHandler.handleMessages cfg events st).1) = us.
Proof.
  intros H us.
  assert (E : CommandHandler.cleanupOldSettings now maxAge us = us)
    by (apply cleanupOldSettings_untimed, handleMessages_untimed, H).
  split; [exact E|].
  cbn [MessageHandler.cleanup MessageHandler.userSettings].
  apply cleanupOldSettings_untimed, handleMessages_untimed, H.
Qed.

(** Property X17.  The counts of [getStats]: the enabled and the disabled
    users are the entries with the preference on and off, and together all
    users. *)
Theorem getStats_counts_users
    (cfg : CommandHandler.Config) (us : CommandHandler.Settings) :
  let stats := CommandHandler.getStats cfg us in
  let all := map snd (map_to_list us) in
  CommandHandler.totalUsers stats = Z.of_nat (length all)
  /\ CommandHandler.enabledUsers stats
     = Z.of_nat (length (List.filter CommandHandler.responsesEnabled all))
  /\ CommandHandler.disabledUsers stats
     = Z.of_nat (length (List.filter
                           (fun s => negb (CommandHandler.responsesEnabled s))
                           all))
  /\ 0 <= CommandHandler.disabledUsers stats
     <= CommandHandler.totalUsers stats.
Proof.
  cbv zeta. unfold CommandHandler.getStats.
  cbn [CommandHandler.totalUsers CommandHandler.enabledUsers
       CommandHandler.disabledUsers].
  set (all := map snd (map_to_list us)).
  assert (Hsize : size us = length all)
    by (unfold all; rewrite length_map, length_map_to_list; reflexivity).
  assert (Hsplit : forall l : list CommandHandler.UserSettings,
            (length (List.filter CommandHandler.responsesEnabled l)
             + length (List.filter
                         (fun s => negb (CommandHandler.responsesEnabled s)) l)
             = length l)%nat).
  { induction l as [|s l IH]; [reflexivity|]. cbn [List.filter].
    destruct (CommandHandler.responsesEnabled s); cbn [negb length]; lia. }
  specialize (Hsplit all). rewrite Hsize. repeat split; lia.
Qed.

Lemma cleanupOldSettings_removes_nothing_witness :
  let events :=
    [ (exampleEnv 1 echoGenerator, exampleMessage 1 (js "/stop"));
      (exampleEnv 2 echoGenerator, exampleMessage 2 (js "hello?")) ] in
  let us :=
    MessageHandler.userSettings
      (MessageHandler.handleMessages exampleConfig events initialState).1 in
  CommandHandler.cleanupOldSettings 1800000000000 604800000 us = us
  /\ MessageHandler.userSettings
       (MessageHandler.cleanup 1800000000000 1800000000000 1800000000000
          (MessageHandler.handleMessages exampleConfig events initialState).1)
     = us.
Proof.
  intros events.
  apply (cleanupOldSettings_removes_nothing exampleConfig events initialState
           1800000000000 604800000).
  intros c s H. cbn in H. rewrite lookup_empty in H. discriminate H.
Defined.

(** ** The handler: what one message can do *)

Lemma fallbacks_short :
  Forall (fun s => (length s <= 103)%nat) ResponseHandler.fallbacks.
Proof. repeat constructor; vm_compute; lia. Qed.

Lemma cleanResponse_bounded maxLen rnd response :
  Z.of_nat (length (ResponseHandler.cleanResponse maxLen rnd response))
  <= Z.max maxLen 103.
Proof.
  assert (Hfb : Z.of_nat (length (ResponseHandler.getFallbackResponse rnd))
                <= Z.max maxLen 103).
  { pose proof fallbacks_short as H. rewrite Forall_forall in H.
    specialize (H _ (getFallbackResponse_in rnd)). lia. }
  rewrite cleanResponse_withEllipsis.
  destruct (_ || _); [exact Hfb|].
  unfold withEllipsis.
  destruct (Z.leb_spec
              (Z.of_nat (length (ResponseHandler.stripMarkup (trim response))))
              maxLen); [lia|].
  rewrite length_app, length_take.
  change (length (js "...")) with 3%nat. lia.
Qed.

Lemma generateResponse_bounded gen maxLen rnd message context contactName :
  Z.of_nat (length (ResponseHandler.generateResponse gen maxLen rnd message
                      context contactName))
  <= Z.max maxLen 103.
Proof.
  unfold ResponseHandler.generateResponse.
  destruct (gen message context contactName).
  - apply cleanResponse_bounded.
  - pose proof fallbacks_short as H. rewrite Forall_forall in H.
    specialize (H _ (getFallbackResponse_in rnd)). lia.
Qed.

Section HandlerOutcome.

Import MessageHandler.

Variable cfg : MessageHandler.Config.
Implicit Types st : State.
Implicit Types env : Env.
Implicit Types message : Message.

Lemma checkResponseFrequency_frame (limit now : Z) (contactId : jsstring)
    (cooldownMap cooldownMap' : gmap jsstring Helpers.CooldownEntry)
    (b : bool) (k : jsstring) :
  checkResponseFrequency limit now contactId cooldownMap
  = Some (b, cooldownMap') ->
  k <> frequencyKey contactId ->
  cooldownMap' !! k = cooldownMap !! k.
Proof.
  unfold checkResponseFrequency, frequencyKey. intros H Hk.
  destruct (cooldownMap !! (js "frequency_" ++ contactId)) as [e|] eqn:E.
  - rewrite E in H. destruct e as [t|l]; [discriminate|].
    destruct (_ <=? _); injection H as <- <-; [reflexivity|].
    apply lookup_insert_ne. intros Heq. apply Hk. symmetry. exact Heq.
  - rewrite lookup_insert_eq in H.
    destruct (_ <=? _); injection H as <- <-;
      rewrite ?lookup_insert_ne
        by (intros Heq; apply Hk; symmetry; exact Heq);
      reflexivity.
Qed.

(** The three ways a message that passed the filters ends: a command
    reply, silence, or a generated reply. *)
Lemma dispatch_outcome env message st :
  let from := from (content message) in
  let cid := Helpers.generateConversationId from in
  let mem1 := afterInbound cfg env message st in
  exists us',
    (forall c, c <> from -> us' !! c = userSettings st !! c)
    /\ ((exists text,
           text <> []
           /\ dispatch cfg env message st
              = ({| memory := mem1;
                    cooldownMap :=
                      Helpers.updateCooldown (cooldownMap st)
                        (Helpers.getCooldownKey from) (onDone (clock env));
                    userSettings := us' |},
                 sendResponse cfg from text))
        \/ (exists cd,
              (forall k, k <> frequencyKey from ->
                         cd !! k = cooldownMap st !! k)
              /\ dispatch cfg env message st
                 = ({| memory := mem1; cooldownMap := cd;
                       userSettings := us' |}, []))
        \/ (exists cd context response,
              (forall k, k <> frequencyKey from ->
                         cd !! k = cooldownMap st !! k)
              /\ (3 <= length response)%nat
              /\ Z.of_nat (length response)
                 <= Z.max (CommandHandler.maxResponseLength (commandCfg cfg))
                      103
              /\ dispatch cfg env message st
                 = ({| memory :=
                         addMessage (memoryCfg cfg) (onReply (clock env)) cid
                           (botMessage (onReply (clock env)) response) mem1;
                       cooldownMap :=
                         Helpers.updateCooldown cd
                           (Helpers.getCooldownKey from)
                           (onDone (clock env));
                       userSettings := us' |},
                    Generate (body (content message)) context
                      (generationName env)
                    :: sendResponse cfg from response))).
Proof.
  cbv zeta. unfold dispatch, afterInbound.
  pose proof (fun c => processCommand_other (commandCfg cfg)
                         (from (content message)) c (body (content message))
                         (userSettings st)) as Hus1.
  destruct (CommandHandler.processCommand _ _ _ _) as [r us1].
  cbn [snd] in Hus1.
  assert (Hplain :
    forall us2 on,
      CommandHandler.isUserResponsesEnabled (commandCfg cfg)
        (from (content message)) us1 = (on, us2) ->
      forall c, c <> from (content message) ->
                us2 !! c = userSettings st !! c).
  { intros us2 on E c Hc.
    pose proof (isUserResponsesEnabled_other (commandCfg cfg)
                  (from (content message)) c us1) as H.
    rewrite E in H. cbn [snd] in H. rewrite H by congruence.
    apply Hus1. congruence. }
  assert (Hrest :
    exists us',
      (forall c, c <> from (content message) ->
                 us' !! c = userSettings st !! c)
      /\ ((exists cd,
             (forall k, k <> frequencyKey (from (content message)) ->
                        cd !! k = cooldownMap st !! k)
             /\ (let '(on, us2) :=
                   CommandHandler.isUserResponsesEnabled (commandCfg cfg)
                     (from (content message)) us1 in
                 if negb on
                 then ({| memory := afterInbound cfg env message st;
                          cooldownMap := cooldownMap st;
                          userSettings := us2 |}, [])
                 else
                   match checkResponseFrequency (responseFrequencyLimit cfg)
                           (onFrequency (clock env)) (from (content message))
                           (cooldownMap st) with
                   | None =>
                       ({| memory := afterInbound cfg env message st;
                           cooldownMap := cooldownMap st;
                           userSettings := us2 |}, [])
                   | Some (false, cd1) =>
                       ({| memory := afterInbound cfg env message st;
                           cooldownMap := cd1;
                           userSettings := us2 |}, [])
                   | Some (true, cd1) =>
                       reply cfg env message
                         (afterInbound cfg env message st) cd1 us2
                   end)
                = ({| memory := afterInbound cfg env message st;
                      cooldownMap := cd; userSettings := us' |}, []))
          \/ (exists cd context response,
                (forall k, k <> frequencyKey (from (content message)) ->
                           cd !! k = cooldownMap st !! k)
                /\ (3 <= length response)%nat
                /\ Z.of_nat (length response)
                   <= Z.max
                        (CommandHandler.maxResponseLength (commandCfg cfg))
                        103
                /\ (let '(on, us2) :=
                      CommandHandler.isUserResponsesEnabled (commandCfg cfg)
                        (from (content message)) us1 in
                    if negb on
                    then ({| memory := afterInbound cfg env message st;
                             cooldownMap := cooldownMap st;
                             userSettings := us2 |}, [])
                    else
                      match checkResponseFrequency
                              (responseFrequencyLimit cfg)
                              (onFrequency (clock env))
                              (from (content message)) (cooldownMap st) with
                      | None =>
                          ({| memory := afterInbound cfg env message st;
                              cooldownMap := cooldownMap st;
                              userSettings := us2 |}, [])
                      | Some (false, cd1) =>
                          ({| memory := afterInbound cfg env message st;
                              cooldownMap := cd1;
                              userSettings := us2 |}, [])
                      | Some (true, cd1) =>
                          reply cfg env message
                            (afterInbound cfg env message st) cd1 us2
                      end)
                   = ({| memory :=
                           addMessage (memoryCfg cfg) (onReply (clock env))
                             (Helpers.generateConversationId
                                (from (content message)))
                             (botMessage (onReply (clock env)) response)
                             (afterInbound cfg env message st);
                         cooldownMap :=
                           Helpers.updateCooldown cd
                             (Helpers.getCooldownKey (from (content message)))
                             (onDone (clock env));
                         userSettings := us' |},
                      Generate (body (content message)) context
                        (generationName env)
                      :: sendResponse cfg (from (content message))
                           response)))).
  { destruct (CommandHandler.isUserResponsesEnabled _ _ us1) as [on us2] eqn:E.
    exists us2. split; [exact (Hplain us2 on eq_refl)|].
    destruct on; cbn [negb].
    2:{ left. exists (cooldownMap st). auto. }
    destruct (checkResponseFrequency _ _ _ _) as [[[|] cd1]|] eqn:Ec.
    - right. rewrite reply_calls.
      eexists cd1, _, _. split; [|split; [|split; [|reflexivity]]].
      + intros k Hk. exact (checkResponseFrequency_frame _ _ _ _ _ _ k Ec Hk).
      + apply generateResponse_long.
      + apply generateResponse_bounded.
    - left. exists cd1. split; [|reflexivity].
      intros k Hk. exact (checkResponseFrequency_frame _ _ _ _ _ _ k Ec Hk).
    - left. exists (cooldownMap st). auto. }
  unfold afterInbound in Hrest.
  destruct r as [[|x r]|].
  - destruct Hrest as (us' & Hus' & Hcases). exists us'.
    split; [exact Hus'|]. right. exact Hcases.
  - exists us1. split; [intros c Hc; apply Hus1; congruence|].
    left. exists (x :: r). split; [discriminate | reflexivity].
  - destruct Hrest as (us' & Hus' & Hcases). exists us'.
    split; [exact Hus'|]. right. exact Hcases.
Qed.

End HandlerOutcome.

(** Property X18.  One message makes the handler send at most once, and only
    to the sender: its calls are none at all, or one text that is not empty
    sent to the sender (a command reply), or one call of the generation
    capability with the body of the message followed, when the transport is
    installed, by one text sent to the sender, which has at least 3 units
    and at most [max(maxResponseLength, 103)], 103 being the length of the
    longest fallback text. *)
Theorem handleMessage_sends_at_most_once
    (cfg : MessageHandler.Config) (env : MessageHandler.Env)
    (message : MessageHandler.Message) (st : MessageHandler.State) :
  let out := (MessageHandler.handleMessage cfg env message st).2 in
  let from := from (MessageHandler.content message) in
  out = []
  \/ (exists text, text <> [] /\ out = [MessageHandler.Send from text])
  \/ (exists context name text,
        (3 <= length text)%nat
        /\ Z.of_nat (length text)
           <= Z.max (CommandHandler.maxResponseLength
                       (MessageHandler.commandCfg cfg)) 103
        /\ out
           = MessageHandler.Generate
               (body (MessageHandler.content message)) context name
             :: (if MessageHandler.sendMessageCallback cfg
                 then [MessageHandler.Send from text] else [])).
Proof.
  cbv zeta.
  destruct (passesFilters cfg env message st) eqn:Hp.
  2:{ rewrite handleMessage_rejected by exact Hp. left. reflexivity. }
  rewrite handleMessage_passed by exact Hp.
  destruct (dispatch_outcome cfg env message st)
    as (us' & _ & [(text & Hne & ->) | [(cd & _ & ->)
                  | (cd & context & response & _ & Hlong & Hshort & ->)]]);
    cbn [snd].
  - unfold MessageHandler.sendResponse.
    destruct (MessageHandler.sendMessageCallback cfg);
      [right; left; exists text; auto | left; reflexivity].
  - left. reflexivity.
  - right. right. exists context, (generationName env), response.
    split; [exact Hlong | split; [exact Hshort | reflexivity]].
Qed.

Section HandlerCooldown.

Import MessageHandler.

Variable cfg : MessageHandler.Config.

(** A message that made the handler call out has set the cooldown. *)
Lemma handleMessage_sets_cooldown env message st :
  (handleMessage cfg env message st).2 <> [] ->
  cooldownMap (handleMessage cfg env message st).1
    !! Helpers.getCooldownKey (from (content message))
  = Some (Helpers.LastResponse (onDone (clock env))).
Proof.
  destruct (passesFilters cfg env message st) eqn:Hp.
  2:{ rewrite handleMessage_rejected by exact Hp. intros H. contradiction. }
  rewrite handleMessage_passed by exact Hp.
  destruct (dispatch_outcome cfg env message st)
    as (us' & _ & [(text & Hne & ->) | [(cd & _ & ->)
                  | (cd & context & response & _ & Hlong & Hshort & ->)]]);
    cbn [fst snd cooldownMap]; intros H;
    try contradiction; apply lookup_insert_eq.
Qed.

End HandlerCooldown.

(** Property X19.  Replies to one contact are at least a second apart: after
    a message that made the handler call out (a reply was sent or
    generated), a message from the same contact whose cooldown check comes
    less than 1000 ms after the cooldown was recorded is dropped; it changes
    nothing and calls nothing, whatever it says, a command included. *)
Theorem answered_contact_must_wait
    (cfg : MessageHandler.Config) (env env' : MessageHandler.Env)
    (message message' : MessageHandler.Message) (st : MessageHandler.State) :
  (MessageHandler.handleMessage cfg env message st).2 <> [] ->
  from (MessageHandler.content message')
  = from (MessageHandler.content message) ->
  MessageHandler.onDone (MessageHandler.clock env) <> 0 ->
  MessageHandler.onFilter (MessageHandler.clock env')
  - MessageHandler.onDone (MessageHandler.clock env) < 1000 ->
  MessageHandler.handleMessage cfg env' message'
    (MessageHandler.handleMessage cfg env message st).1
  = ((MessageHandler.handleMessage cfg env message st).1, []).
Proof.
  intros Hout Hfrom Hdone Hsoon.
  apply handleMessage_rejected. unfold passesFilters.
  rewrite Hfrom. unfold Helpers.isCooldownExpired.
  rewrite (handleMessage_sets_cooldown cfg env message st Hout).
  destruct (Z.eqb_spec (MessageHandler.onDone (MessageHandler.clock env)) 0);
    [contradiction|].
  destruct (Z.leb_spec 1000
              (MessageHandler.onFilter (MessageHandler.clock env')
               - MessageHandler.onDone (MessageHandler.clock env))); [lia|].
  apply andb_false_r.
Qed.

Lemma answered_contact_must_wait_witness :
  let env := exampleEnv 1 echoGenerator in
  let env' :=
    {| MessageHandler.clock :=
         {| MessageHandler.onFilter := 1700000011500;
            MessageHandler.onInbound := 1700000011501;
            MessageHandler.onFrequency := 1700000011502;
            MessageHandler.onReply := 1700000011600;
            MessageHandler.onDone := 1700000011700 |};
       MessageHandler.random := 2;
       MessageHandler.geminiAI := echoGenerator;
       MessageHandler.contactInfo := Some (js "Ada") |} in
  MessageHandler.handleMessage exampleConfig env'
    (exampleMessage 2 (js "/stop"))
    (MessageHandler.handleMessage exampleConfig env
       (exampleMessage 1 (js "hello")) initialState).1
  = ((MessageHandler.handleMessage exampleConfig env
        (exampleMessage 1 (js "hello")) initialState).1, []).
Proof.
  intros env env'.
  apply (answered_contact_must_wait exampleConfig env env'
           (exampleMessage 1 (js "hello")) (exampleMessage 2 (js "/stop"))
           initialState).
  - vm_compute. discriminate.
  - reflexivity.
  - vm_compute. discriminate.
  - vm_compute. reflexivity.
Defined.

(** Property X20.  One message touches only what belongs to its sender:
    every conversation and summary under another conversation id, every
    entry of the cooldown map other than the sender's cooldown and frequency
    keys, and the settings of every other contact are left as they were. *)
Theorem handleMessage_touches_only_the_sender
    (cfg : MessageHandler.Config) (env : MessageHandler.Env)
    (message : MessageHandler.Message) (st : MessageHandler.State)
    (cid key contact : jsstring) :
  let sender := from (MessageHandler.content message) in
  let st' := (MessageHandler.handleMessage cfg env message st).1 in
  cid <> Helpers.generateConversationId sender ->
  key <> Helpers.getCooldownKey sender ->
  key <> frequencyKey sender ->
  contact <> sender ->
  conversations (MessageHandler.memory st') !! cid
  = conversations (MessageHandler.memory st) !! cid
  /\ summaries (MessageHandler.memory st') !! cid
     = summaries (MessageHandler.memory st) !! cid
  /\ MessageHandler.cooldownMap st' !! key
     = MessageHandler.cooldownMap st !! key
  /\ MessageHandler.userSettings st' !! contact
     = MessageHandler.userSettings st !! contact.
Proof.
  cbv zeta. intros Hcid Hcool Hfreq Hcontact.
  destruct (passesFilters cfg env message st) eqn:Hp.
  2:{ rewrite handleMessage_rejected by exact Hp. auto. }
  rewrite handleMessage_passed by exact Hp.
  assert (Hin : conversations (afterInbound cfg env message st) !! cid
                = conversations (MessageHandler.memory st) !! cid
                /\ summaries (afterInbound cfg env message st) !! cid
                   = summaries (MessageHandler.memory st) !! cid).
  { unfold afterInbound. apply addMessage_other. congruence. }
  destruct Hin as [Hin1 Hin2].
  destruct (dispatch_outcome cfg env message st)
    as (us' & Hus & [(text & Hne & ->) | [(cd & Hcd & ->)
                    | (cd & context & response & Hcd & Hlong & Hshort & ->)]]);
    cbn [fst MessageHandler.memory MessageHandler.cooldownMap
         MessageHandler.userSettings].
  - repeat split; auto.
    unfold Helpers.updateCooldown. apply lookup_insert_ne. congruence.
  - repeat split; auto.
  - match goal with
    | |- context [addMessage ?c ?n ?i ?m ?s] =>
        destruct (addMessage_other c n i cid m s) as [H1 H2];
          [congruence|]
    end.
    rewrite H1, H2. repeat split; auto.
    unfold Helpers.updateCooldown. rewrite lookup_insert_ne by congruence.
    auto.
Qed.

Lemma handleMessage_touches_only_the_sender_witness :
  let st :=
    (MessageHandler.handleMessage exampleConfig (exampleEnv 1 echoGenerator)
       (exampleMessage 1 (js "/stop")) initialState).1 in
  let other :=
    {| MessageHandler.content :=
         {| id := js "m2"; from := js "4915111111@c.us";
            body := js "hello"; timestamp := 1700000020;
            type := js "chat" |};
       MessageHandler.to := js "4915199999@c.us";
       MessageHandler.fromMe := false |} in
  let st' :=
    (MessageHandler.handleMessage exampleConfig (exampleEnv 2 echoGenerator)
       other st).1 in
  conversations (MessageHandler.memory st') !! js "4915100000"
  = conversations (MessageHandler.memory st) !! js "4915100000"
  /\ summaries (MessageHandler.memory st') !! js "4915100000"
     = summaries (MessageHandler.memory st) !! js "4915100000"
  /\ MessageHandler.cooldownMap st' !! js "cooldown_4915100000@c.us"
     = MessageHandler.cooldownMap st !! js "cooldown_4915100000@c.us"
  /\ MessageHandler.userSettings st' !! exampleContact
     = MessageHandler.userSettings st !! exampleContact.
Proof.
  intros st other.
  apply (handleMessage_touches_only_the_sender exampleConfig
           (exampleEnv 2 echoGenerator) other st (js "4915100000")
           (js "cooldown_4915100000@c.us") exampleContact);
    vm_compute; discriminate.
Defined.

Section IgnoreList.

Import MessageHandler.

Variable cfg : MessageHandler.Config.

Lemma dispatch_addIgnoredContact c env message st :
  dispatch (addIgnoredContact c cfg) env message st
  = dispatch cfg env message st.
Proof. reflexivity. Qed.

End IgnoreList.

(** Property X21.  The ignore list: once a contact is added, its messages
    are dropped without any change or call, and the messages of every other
    sender are handled as before; removing a contact that was added, and was
    not on the list before, gives back the handling of before for every
    message. *)
Theorem ignore_list_switches_a_contact
    (cfg : MessageHandler.Config) (c : jsstring)
    (env : MessageHandler.Env) (message : MessageHandler.Message)
    (st : MessageHandler.State) :
  c ∉ MessageHandler.ignoredContacts cfg ->
  MessageHandler.handleMessage (MessageHandler.addIgnoredContact c cfg)
    env message st
  = (if bool_decide (from (MessageHandler.content message) = c)
     then (st, [])
     else MessageHandler.handleMessage cfg env message st)
  /\ MessageHandler.handleMessage
       (MessageHandler.removeIgnoredContact c
          (MessageHandler.addIgnoredContact c cfg)) env message st
     = MessageHandler.handleMessage cfg env message st.
Proof.
  intros Hc. split.
  - unfold MessageHandler.handleMessage at 1.
    cbn [MessageHandler.addIgnoredContact MessageHandler.ignoredContacts
         MessageHandler.ignoreGroups].
    destruct (decide (from (MessageHandler.content message) = c)) as [E|E].
    + rewrite (bool_decide_eq_true_2 _ E).
      rewrite bool_decide_eq_true_2 by set_solver. reflexivity.
    + rewrite (bool_decide_eq_false_2 _ E).
      unfold MessageHandler.handleMessage.
      destruct (decide (from (MessageHandler.content message)
                        ∈ MessageHandler.ignoredContacts cfg)) as [Hin|Hin].
      * rewrite (bool_decide_eq_true_2 _ Hin).
        rewrite bool_decide_eq_true_2 by set_solver. reflexivity.
      * rewrite (bool_decide_eq_false_2 _ Hin).
        rewrite bool_decide_eq_false_2 by set_solver.
        rewrite dispatch_addIgnoredContact. reflexivity.
  - replace (MessageHandler.removeIgnoredContact c
               (MessageHandler.addIgnoredContact c cfg)) with cfg;
      [reflexivity|].
    destruct cfg as [cc mc ic ig rl cb].
    unfold MessageHandler.removeIgnoredContact,
      MessageHandler.addIgnoredContact.
    cbn [MessageHandler.commandCfg MessageHandler.memoryCfg
         MessageHandler.ignoredContacts MessageHandler.ignoreGroups
         MessageHandler.responseFrequencyLimit
         MessageHandler.sendMessageCallback] in *.
    f_equal. set_solver.
Qed.

Lemma ignore_list_switches_a_contact_witness :
  MessageHandler.handleMessage
    (MessageHandler.addIgnoredContact exampleContact exampleConfig)
    (exampleEnv 1 echoGenerator) (exampleMessage 1 (js "hello")) initialState
  = (if bool_decide
          (from (MessageHandler.content (exampleMessage 1 (js "hello")))
           = exampleContact)
     then (initialState, [])
     else MessageHandler.handleMessage exampleConfig
            (exampleEnv 1 echoGenerator) (exampleMessage 1 (js "hello"))
            initialState)
  /\ MessageHandler.handleMessage
       (MessageHandler.removeIgnoredContact exampleContact
          (MessageHandler.addIgnoredContact exampleContact exampleConfig))
       (exampleEnv 1 echoGenerator) (exampleMessage 1 (js "hello"))
       initialState
     = MessageHandler.handleMessage exampleConfig
         (exampleEnv 1 echoGenerator) (exampleMessage 1 (js "hello"))
         initialState.
Proof.
  apply (ignore_list_switches_a_contact exampleConfig exampleContact
           (exampleEnv 1 echoGenerator) (exampleMessage 1 (js "hello"))
           initialState).
  cbn. set_solver.
Defined.

(** ** The memory under all its operations *)

Section MemoryConsistency.

Variable cfg : ConversationMemory.Config.

Lemma addMessage_consistent now cid m st :
  consistent st -> consistent (addMessage cfg now cid m st).
Proof.
  intros [Hc Hs]. split.
  - intros cid' c Hlook. destruct (decide (cid' = cid)) as [->|Hne].
    + destruct (addMessage_record cfg now cid m st) as (c' & Hc' & Hid & _).
      rewrite Hc' in Hlook. injection Hlook as <-. rewrite Hid.
      destruct (conversations st !! cid) as [c0|] eqn:E; [|reflexivity].
      exact (Hc cid c0 E).
    + destruct (addMessage_other cfg now cid cid' m st) as [H1 _];
        [congruence|].
      rewrite H1 in Hlook. exact (Hc cid' c Hlook).
  - intros cid' s Hlook. destruct (decide (cid' = cid)) as [->|Hne].
    + split; [|apply addMessage_present].
      rewrite addMessage_summary in Hlook.
      destruct (_ <=? _).
      * injection Hlook as <-. reflexivity.
      * exact (proj1 (Hs cid s Hlook)).
    + destruct (addMessage_other cfg now cid cid' m st) as [H1 H2];
        [congruence|].
      rewrite H2 in Hlook. rewrite H1. exact (Hs cid' s Hlook).
Qed.

Lemma deleteConversation_consistent cid st :
  consistent st -> consistent (deleteConversation cid st).
Proof.
  intros [Hc Hs]. unfold deleteConversation. split; cbn [conversations summaries].
  - intros cid' c Hlook. apply lookup_delete_Some in Hlook as [_ Hlook].
    exact (Hc cid' c Hlook).
  - intros cid' s Hlook. apply lookup_delete_Some in Hlook as [Hne Hlook].
    rewrite lookup_delete_ne by exact Hne. exact (Hs cid' s Hlook).
Qed.

Lemma cleanupOldConversations_consistent now maxAge st :
  consistent st -> consistent (cleanupOldConversations now maxAge st).
Proof.
  intros [Hc Hs]. split.
  - intros cid c Hlook.
    pose proof (cleanupOldConversations_lookup now maxAge st cid) as H.
    cbv zeta in H. destruct (conversations st !! cid) as [c0|] eqn:E.
    + destruct (isOld now maxAge c0); destruct H as [H1 _];
        rewrite H1 in Hlook; [discriminate|].
      injection Hlook as <-. exact (Hc cid c0 E).
    + destruct H as [H1 _]. rewrite H1 in Hlook. discriminate.
  - intros cid s Hlook.
    pose proof (cleanupOldConversations_lookup now maxAge st cid) as H.
    cbv zeta in H. destruct (conversations st !! cid) as [c0|] eqn:E.
    + destruct (isOld now maxAge c0); destruct H as [H1 H2];
        rewrite H2 in Hlook; [discriminate|].
      rewrite H1. split; [|eauto].
      exact (proj1 (Hs cid s Hlook)).
    + destruct H as [_ H2]. rewrite H2 in Hlook.
      destruct (Hs cid s Hlook) as [_ [c0 Hc0]]. congruence.
Qed.

Lemma runOps_consistent ops : forall st,
  consistent st -> consistent (runOps cfg ops st).
Proof.
  induction ops as [|op ops IH]; intros st H; [exact H|].
  cbn [runOps fold_left]. apply IH.
  destruct op as [now cid m|cid n|cid|now maxAge]; cbn [runOp].
  - apply addMessage_consistent, H.
  - rewrite getConversationContext_state. exact H.
  - apply deleteConversation_consistent, H.
  - apply cleanupOldConversations_consistent, H.
Qed.

Lemma consistent_sizes st :
  consistent st -> (size (summaries st) <= size (conversations st))%nat.
Proof.
  intros [_ Hs]. rewrite <- !size_dom. apply subseteq_size.
  intros cid Hin. apply elem_of_dom in Hin as [s Hlook].
  apply elem_of_dom. exact (proj2 (Hs cid s Hlook)).
Qed.

End MemoryConsistency.

(** Property X22.  The memory stays consistent under every sequence of its
    operations (appending, reading a context, deleting, cleaning up), from
    the empty memory on: a conversation is stored under its own id, a
    summary under the id it names and only while its conversation is in the
    memory, so [getStats] never reports more summaries than conversations. *)
Theorem memory_stays_consistent
    (cfg : ConversationMemory.Config) (ops : list MemoryOp) :
  let st := runOps cfg ops empty in
  (forall cid c, conversations st !! cid = Some c -> conv_id c = cid)
  /\ (forall cid s, summaries st !! cid = Some s ->
        conversationId s = cid /\ is_Some (conversations st !! cid))
  /\ totalSummaries (getStats st) <= totalConversations (getStats st).
Proof.
  intros st.
  assert (H : consistent st).
  { apply runOps_consistent. split; intros cid x Hlook;
      cbn in Hlook; rewrite lookup_empty in Hlook; discriminate. }
  destruct H as [Hc Hs]. split; [exact Hc|]. split; [exact Hs|].
  unfold getStats. cbn [totalSummaries totalConversations].
  apply inj_le, consistent_sizes. split; assumption.
Qed.

(** ** Key topics: the ranking *)

Section Ranking.

Lemma insertIndex_perm {V} (x : N * (jsstring * V)) l :
  insertIndex x l ≡ₚ x :: l.
Proof.
  induction l as [|y l IH]; cbn [insertIndex]; [reflexivity|].
  destruct (x.1 <=? y.1)%N; [reflexivity|].
  rewrite IH. apply perm_swap.
Qed.

Lemma sortIndex_perm {V} (l : list (N * (jsstring * V))) :
  foldr insertIndex [] l ≡ₚ l.
Proof.
  induction l as [|x l IH]; cbn [foldr]; [reflexivity|].
  rewrite insertIndex_perm, IH. reflexivity.
Qed.

(** [Object.entries] lists every own property once. *)
Lemma objectEntries_perm {V} (obj : JsObject V) : objectEntries obj ≡ₚ obj.
Proof.
  unfold objectEntries. rewrite sortIndex_perm.
  induction obj as [|e obj IH]; [reflexivity|]. csimpl.
  destruct (arrayIndex e.1) as [i|] eqn:E; csimpl.
  - constructor. exact IH.
  - rewrite <- Permutation_middle. constructor. exact IH.
Qed.

Lemma sorted_lookup {A} (R : A -> A -> Prop) (l : list A) :
  StronglySorted R l ->
  forall i j x y, (i < j)%nat -> l !! i = Some x -> l !! j = Some y -> R x y.
Proof.
  induction 1 as [|a l Hs IH Hall]; intros i j x y Hij Hi Hj;
    [rewrite lookup_nil in Hi; discriminate|].
  destruct j as [|j]; [lia|]. simpl in Hj.
  destruct i as [|i]; simpl in Hi.
  - injection Hi as <-. rewrite Forall_forall in Hall.
    apply Hall. apply list_elem_of_lookup. exists j. exact Hj.
  - apply (IH i j); [lia | assumption | assumption].
Qed.

Lemma ranked_entries (toks : list jsstring) (x : jsstring * N) :
  x ∈ sortDesc (objectEntries (frequencies toks)) <->
  x.1 ∈ toks /\ x.2 = occurrences x.1 toks.
Proof.
  rewrite sortDesc_perm, objectEntries_perm. unfold frequencies.
  rewrite list_elem_of_fmap. split.
  - intros (w & -> & Hw).
    split; [exact (proj1 (elem_of_firstOccurrences _ _) Hw) | reflexivity].
  - intros [Hw Hx]. exists x.1. split.
    + destruct x as [w n]. cbn in *. congruence.
    + exact (proj2 (elem_of_firstOccurrences _ _) Hw).
Qed.

Lemma ranked_keys (toks : list jsstring) :
  NoDup (map fst (sortDesc (objectEntries (frequencies toks)))).
Proof.
  assert (E : map fst (sortDesc (objectEntries (frequencies toks)))
              ≡ₚ firstOccurrences toks).
  { rewrite <- frequencies_keys. apply Permutation_map.
    rewrite sortDesc_perm. apply objectEntries_perm. }
  rewrite E. apply NoDup_firstOccurrences.
Qed.

End Ranking.

(** Property X23.  The key topics are the most frequent tokens: for messages
    without the token [constructor], the topics are distinct counted tokens,
    listed by frequency from the highest down; a counted token is left out
    only when ten topics are listed, and then it is no more frequent than
    any of them. *)
Theorem key_topics_are_the_most_frequent (msgs : list StoredMessage) :
  let toks := counted (tokens msgs) in
  js "constructor" ∉ toks ->
  exists topics,
    extractKeyTopics msgs = Some topics
    /\ NoDup topics
    /\ (forall w, w ∈ topics -> w ∈ toks)
    /\ (forall i j u v,
          (i < j)%nat -> topics !! i = Some u -> topics !! j = Some v ->
          (occurrences v toks <= occurrences u toks)%N)
    /\ (forall w, w ∈ toks -> w ∉ topics ->
          length topics = 10%nat
          /\ forall u, u ∈ topics ->
               (occurrences w toks <= occurrences u toks)%N).
Proof.
  intros toks Hc.
  exists (topicsByEnumeration toks).
  split; [apply extractKeyTopics_enumeration, Hc|].
  unfold topicsByEnumeration.
  set (L := sortDesc (objectEntries (frequencies toks))).
  pose proof (ranked_entries toks) as Hin. fold L in Hin.
  pose proof (ranked_keys toks) as Hnd. fold L in Hnd.
  pose proof (sortDesc_sorted (objectEntries (frequencies toks))) as Hs.
  fold L in Hs.
  assert (Hlook : forall i u,
            map fst (take 10 L) !! i = Some u ->
            (i < 10)%nat /\ L !! i = Some (u, occurrences u toks)).
  { intros i u Hi.
    change (map fst (take 10 L)) with (fst <$> take 10 L) in Hi.
    rewrite list_lookup_fmap in Hi.
    destruct (take 10 L !! i) as [x|] eqn:E; [|discriminate].
    injection Hi as <-.
    apply lookup_take_Some in E as [E Hi]. split; [exact Hi|].
    rewrite E. f_equal.
    assert (Hx : x ∈ L) by (apply list_elem_of_lookup; eauto).
    apply Hin in Hx as [_ Hx]. destruct x as [w n]. cbn in *. congruence. }
  split; [|split; [|split]].
  - change (map fst (take 10 L)) with (fst <$> take 10 L).
    rewrite fmap_take. eapply sublist_NoDup; [exact Hnd|]. apply sublist_take.
  - intros w Hw. apply list_elem_of_lookup in Hw as [i Hi].
    apply Hlook in Hi as [_ Hi].
    assert (Hx : (w, occurrences w toks) ∈ L)
      by (apply list_elem_of_lookup; eauto).
    apply Hin in Hx as [Hx _]. exact Hx.
  - intros i j u v Hij Hi Hj.
    apply Hlook in Hi as [_ Hi]. apply Hlook in Hj as [_ Hj].
    exact (sorted_lookup descending L Hs i j _ _ Hij Hi Hj).
  - intros w Hw Hout.
    assert (Hx : (w, occurrences w toks) ∈ L) by (apply Hin; auto).
    apply list_elem_of_lookup in Hx as [j Hj].
    assert (Hj10 : (10 <= j)%nat).
    { destruct (Nat.le_gt_cases 10 j) as [H|H]; [exact H|].
      exfalso. apply Hout. apply list_elem_of_lookup. exists j.
      change (map fst (take 10 L)) with (fst <$> take 10 L).
      rewrite list_lookup_fmap, lookup_take_lt by exact H.
      rewrite Hj. reflexivity. }
    split.
    + rewrite length_map, length_take.
      apply lookup_lt_Some in Hj. lia.
    + intros u Hu. apply list_elem_of_lookup in Hu as [i Hi].
      apply Hlook in Hi as [Hi10 Hi].
      apply (sorted_lookup descending L Hs i j _ _ ltac:(lia) Hi Hj).
Qed.

Lemma key_topics_are_the_most_frequent_witness :
  let msgs :=
    [ storedText "Project kickoff 2024: budget and Budget review";
      storedText "the budget review moved to 2025" ] in
  let toks := counted (tokens msgs) in
  exists topics,
    extractKeyTopics msgs = Some topics
    /\ NoDup topics
    /\ (forall w, w ∈ topics -> w ∈ toks)
    /\ (forall i j u v,
          (i < j)%nat -> topics !! i = Some u -> topics !! j = Some v ->
          (occurrences v toks <= occurrences u toks)%N)
    /\ (forall w, w ∈ toks -> w ∉ topics ->
          length topics = 10%nat
          /\ forall u, u ∈ topics ->
               (occurrences w toks <= occurrences u toks)%N).
Proof.
  intros msgs.
  apply (key_topics_are_the_most_frequent msgs).
  apply (proj1 (bool_decide_eq_false _)). vm_compute. reflexivity.
Defined.

(** ** GeminiAI's own fallback, through the post-processing *)

(** Property X24.  When the API call fails inside
    [GeminiAI.generateResponse], it returns one of its four fallback texts,
    each of which is also a fallback text of the response handler. The
    handler's post-processing leaves that text as it is when it fits
    [maxResponseLength], and otherwise cuts it to its first
    [maxResponseLength - 3] units and "..." like any generated text; it
    never replaces it by a fallback of its own. *)
Theorem gemini_fallback_through_post_processing
    (maxLen : Z) (rnd rnd' : nat) :
  let text := GeminiAI.generateResponse GeminiAI.Failed maxLen rnd' in
  text ∈ GeminiAI.fallbacks
  /\ text ∈ ResponseHandler.fallbacks
  /\ ResponseHandler.cleanResponse maxLen rnd text
     = (if Z.of_nat (length text) <=? maxLen then text
        else take (Z.to_nat (maxLen - 3)) text ++ js "...").
Proof.
  intros text. subst text. cbn [GeminiAI.generateResponse].
  pose proof gemini_fallbacks_plain as H. rewrite Forall_forall in H.
  destruct (H _ (gemini_getFallbackResponse_in rnd')) as (Hplain & Hin & Hlen).
  split; [apply gemini_getFallbackResponse_in|]. split; [exact Hin|].
  rewrite cleanResponse_withEllipsis, Hplain. unfold withEllipsis.
  destruct (GeminiAI.getFallbackResponse rnd') as [|c s] eqn:E;
    [simpl in Hlen; lia|].
  rewrite bool_decide_eq_false_2 by discriminate. cbn [orb].
  destruct (Z.leb_spec (Z.of_nat (length (c :: s))) maxLen).
  - destruct (Nat.ltb_spec (length (c :: s)) 3); [lia | reflexivity].
  - match goal with
    | |- context [(length ?x <? 3)%nat] =>
        destruct (Nat.ltb_spec (length x) 3) as [Hshort|Hlong]
    end; [|reflexivity].
    rewrite length_app in Hshort.
    change (length (js "...")) with 3%nat in Hshort. lia.
Qed.

(** ** The client in front of the handler *)

(** Property X25.  The bot as it is wired: the client's own filter in front
    of the message handler changes nothing. With the handler registered as
    the only one, and both reading the same [filtering.ignoreGroups], a
    message that comes through [handleIncomingMessage] has the outcome of
    [handleMessage] on it, whether the client skips it or not. *)
Theorem client_filter_is_subsumed
    (cfg : MessageHandler.Config) (env : MessageHandler.Env)
    (message : MessageHandler.Message) (st : MessageHandler.State) :
  WhatsAppClient.handleIncomingMessage (MessageHandler.ignoreGroups cfg)
    [MessageHandler.handleMessage cfg env] message st
  = MessageHandler.handleMessage cfg env message st.
Proof.
  unfold WhatsAppClient.handleIncomingMessage, WhatsAppClient.notify.
  destruct (MessageHandler.fromMe message) eqn:Hme.
  - symmetry. apply handleMessage_rejected. unfold passesFilters.
    rewrite Hme. cbn [negb]. rewrite !andb_false_r. reflexivity.
  - destruct (Helpers.isGroupMessage _ && MessageHandler.ignoreGroups cfg)
      eqn:Hg.
    + symmetry. apply handleMessage_rejected. unfold passesFilters.
      rewrite Hg. cbn [negb]. rewrite !andb_false_r. reflexivity.
    + destruct (MessageHandler.handleMessage cfg env message st) as [st1 out1].
      rewrite app_nil_r. reflexivity.
Qed.
